(** * matrix-puppet-server: identifier codec, loop-prevention tagger and
      message relay of [src/base.ts], with the receipt handler of the
      [Puppet] class.

    JavaScript strings are sequences of UTF-16 code units; they are modelled
    as [list Z].  Promise-returning methods are modelled in a small monad
    that threads the log of calls made to the outside world (homeserver,
    third-party adapter, Node runtime) and the mutable [thirdPartyRooms]
    map of [Base], and settles as resolved, rejected or never.

    The outside world is a deterministic oracle: what a call settles to is a
    function of the calls made before it.  The two promises that the source
    hands to [Promise.all] are started one after the other, so that each
    has made its first call before a reply is handled; their later calls
    are made in one of the orders the replies allow, those of the first
    promise first.  A promise that is started and not returned is run at
    the point where it is started.  The two
    room resolvers call themselves without bound after an alias repair; the
    model gives them a number of rounds, and answers [Never] when it is used
    up.  [bridge.getIntent()] is taken to return an intent wherever the
    source uses it unchecked; the one place that tests it against [null]
    asks the world. *)

From Stdlib Require Import ZArith Lia List Bool Ascii String.
From stdpp Require Import base option list gmap.
Import ListNotations.
Local Open Scope Z_scope.

(* ------------------------------------------------------------------ *)
(** ** JavaScript strings *)
(* ------------------------------------------------------------------ *)

Module Js.

(** A JavaScript string: its UTF-16 code units. *)
Abbreviation jsstring := (list Z).

(** A string literal of the source whose characters are all ASCII. *)
Definition lit (s : string) : jsstring :=
  List.map (fun a => Z.of_N (N_of_ascii a)) (list_ascii_of_string s).

(** [s === t] on strings. *)
Definition str_eqb (s t : jsstring) : bool := bool_decide (s = t).

(** Truthiness of a string value: the empty string is falsy. *)
Definition truthy (s : jsstring) : bool :=
  match s with [] => false | _ => true end.

(** Truthiness of a possibly [undefined] string. *)
Definition truthy_opt (o : option jsstring) : bool :=
  match o with Some s => truthy s | None => false end.

(** [a || b] on possibly undefined strings. *)
Definition or_else (a b : option jsstring) : option jsstring :=
  if truthy_opt a then a else b.

(** Every code unit is in the 7-bit ASCII range. *)
Definition is_ascii (s : jsstring) : Prop := Forall (fun c => 0 <= c < 128) s.

Definition is_asciib (s : jsstring) : bool :=
  forallb (fun c => (0 <=? c) && (c <? 128)) s.

End Js.
Import Js.

(* ------------------------------------------------------------------ *)
(** ** The Node [Buffer] operations used by [a2b] and [b2a] *)
(* ------------------------------------------------------------------ *)

Module Buffer.

(** Bytes are integers in [0, 256). *)
Definition bytes_ok (bs : list Z) : Prop := Forall (fun b => 0 <= b < 256) bs.

Definition is_high_surrogate (c : Z) : bool := (0xD800 <=? c) && (c <=? 0xDBFF).
Definition is_low_surrogate (c : Z) : bool := (0xDC00 <=? c) && (c <=? 0xDFFF).

Definition utf8_3 (c : Z) : list Z :=
  [Z.lor 0xE0 (Z.shiftr c 12);
   Z.lor 0x80 (Z.land (Z.shiftr c 6) 0x3F);
   Z.lor 0x80 (Z.land c 0x3F)].

Definition utf8_4 (cp : Z) : list Z :=
  [Z.lor 0xF0 (Z.shiftr cp 18);
   Z.lor 0x80 (Z.land (Z.shiftr cp 12) 0x3F);
   Z.lor 0x80 (Z.land (Z.shiftr cp 6) 0x3F);
   Z.lor 0x80 (Z.land cp 0x3F)].

(** [new Buffer(str)]: the UTF-8 encoding of the string.  A surrogate pair
    becomes one four-byte sequence, a lone surrogate U+FFFD. *)
Fixpoint from_string (s : jsstring) : list Z :=
  match s with
  | [] => []
  | c :: rest =>
    if c <? 0x80 then c :: from_string rest
    else if c <? 0x800 then
      Z.lor 0xC0 (Z.shiftr c 6) :: Z.lor 0x80 (Z.land c 0x3F) :: from_string rest
    else if is_high_surrogate c then
      match rest with
      | d :: rest' =>
        if is_low_surrogate d
        then utf8_4 (0x10000 + Z.shiftl (c - 0xD800) 10 + (d - 0xDC00))
               ++ from_string rest'
        else utf8_3 0xFFFD ++ from_string rest
      | [] => utf8_3 0xFFFD
      end
    else if is_low_surrogate c then utf8_3 0xFFFD ++ from_string rest
    else utf8_3 c ++ from_string rest
  end.

(** [buf.toString('ascii')]: each byte with its high bit cleared. *)
Definition to_ascii (bs : list Z) : jsstring := List.map (fun b => Z.land b 0x7F) bs.

(** The base64 alphabet: the character for a 6-bit value. *)
Definition b64_char (v : Z) : Z :=
  if v <? 26 then 65 + v
  else if v <? 52 then 71 + v
  else if v <? 62 then v - 4
  else if v =? 62 then 43 else 47.

(** The 6-bit value of a character; the URL-safe [-] and [_] are accepted
    too, as Node does.  [None] for any other character. *)
Definition unbase64 (c : Z) : option Z :=
  if (65 <=? c) && (c <=? 90) then Some (c - 65)
  else if (97 <=? c) && (c <=? 122) then Some (c - 71)
  else if (48 <=? c) && (c <=? 57) then Some (c + 4)
  else if (c =? 43) || (c =? 45) then Some 62
  else if (c =? 47) || (c =? 95) then Some 63
  else None.

Definition pad : Z := 61.

(** [buf.toString('base64')]. *)
Fixpoint to_base64 (bs : list Z) : jsstring :=
  match bs with
  | [] => []
  | [a] =>
    [b64_char (Z.shiftr a 2); b64_char (Z.shiftl (Z.land a 3) 4); pad; pad]
  | [a; b] =>
    [b64_char (Z.shiftr a 2);
     b64_char (Z.lor (Z.shiftl (Z.land a 3) 4) (Z.shiftr b 4));
     b64_char (Z.shiftl (Z.land b 15) 2); pad]
  | a :: b :: c :: rest =>
    [b64_char (Z.shiftr a 2);
     b64_char (Z.lor (Z.shiftl (Z.land a 3) 4) (Z.shiftr b 4));
     b64_char (Z.lor (Z.shiftl (Z.land b 15) 2) (Z.shiftr c 6));
     b64_char (Z.land c 63)] ++ to_base64 rest
  end.

(** The 6-bit values of the legal characters of a base64 text, up to the
    first padding character; characters outside the alphabet are skipped. *)
Fixpoint sextets (s : jsstring) : list Z :=
  match s with
  | [] => []
  | c :: rest =>
    match unbase64 c with
    | Some v => v :: sextets rest
    | None => if c =? pad then [] else sextets rest
    end
  end.

(** Four 6-bit values give three bytes; a trailing group of three gives two
    bytes, of two gives one, and a single trailing value gives none. *)
Fixpoint unpack (ss : list Z) : list Z :=
  match ss with
  | s0 :: s1 :: s2 :: s3 :: rest =>
    Z.lor (Z.shiftl (Z.land s0 0x3F) 2) (Z.shiftr (Z.land s1 0x30) 4)
    :: Z.lor (Z.shiftl (Z.land s1 0x0F) 4) (Z.shiftr (Z.land s2 0x3C) 2)
    :: Z.lor (Z.shiftl (Z.land s2 0x03) 6) (Z.land s3 0x3F)
    :: unpack rest
  | [s0; s1; s2] =>
    [Z.lor (Z.shiftl (Z.land s0 0x3F) 2) (Z.shiftr (Z.land s1 0x30) 4);
     Z.lor (Z.shiftl (Z.land s1 0x0F) 4) (Z.shiftr (Z.land s2 0x3C) 2)]
  | [s0; s1] =>
    [Z.lor (Z.shiftl (Z.land s0 0x3F) 2) (Z.shiftr (Z.land s1 0x30) 4)]
  | _ => []
  end.


(** All byte values. *)
Definition byte_range : list Z := List.map Z.of_nat (seq 0 256).

(** A 6-bit value. *)
Definition sextet_ok (v : Z) : bool := (0 <=? v) && (v <? 64).

(** The four 6-bit values cut from three bytes. *)
Definition q0 (a : Z) := Z.shiftr a 2.
Definition q1 (a b : Z) := Z.lor (Z.shiftl (Z.land a 3) 4) (Z.shiftr b 4).
Definition q2 (b c : Z) := Z.lor (Z.shiftl (Z.land b 15) 2) (Z.shiftr c 6).
Definition q3 (c : Z) := Z.land c 63.

(** [new Buffer(str, 'base64')]. *)
Definition from_base64 (s : jsstring) : list Z := unpack (sextets s).

End Buffer.

(** [const a2b = a => new Buffer(a).toString('base64')] *)
Definition a2b (a : jsstring) : jsstring := Buffer.to_base64 (Buffer.from_string a).

(** [const b2a = b => new Buffer(b, 'base64').toString('ascii')] *)
Definition b2a (b : jsstring) : jsstring := Buffer.to_ascii (Buffer.from_base64 b).

(* ------------------------------------------------------------------ *)
(** ** The fragment of JavaScript [RegExp] the bridge relies on *)
(* ------------------------------------------------------------------ *)

Module RegExp.

(** A set of code units: one character, [.], or a bracketed class. *)
Inductive cset :=
  | CLit (c : Z)
  | CAny
  | CClass (neg : bool) (ranges : list (Z * Z)).

Inductive quant := One | Opt | Star | Plus.

(** Pattern items: a (possibly quantified) character set, the assertions
    [^] and [$], and the parentheses of a capture group. *)
Inductive item :=
  | IChar (q : quant) (cs : cset)
  | IStart
  | IEnd
  | IOpen
  | IClose.

Abbreviation regex := (list item).

Definition ILit (c : Z) : item := IChar One (CLit c).

Definition in_ranges (c : Z) (rs : list (Z * Z)) : bool :=
  existsb (fun r => (fst r <=? c) && (c <=? snd r)) rs.

Definition is_line_terminator (c : Z) : bool :=
  (c =? 10) || (c =? 13) || (c =? 0x2028) || (c =? 0x2029).

Definition mem (cs : cset) (c : Z) : bool :=
  match cs with
  | CLit d => c =? d
  | CAny => negb (is_line_terminator c)
  | CClass neg rs => xorb neg (in_ranges c rs)
  end.

(** The pattern made of the literal characters of [w], anchored at the end
    of the input. *)
Definition anchored_literal (w : jsstring) : regex := List.map ILit w ++ [IEnd].

(** *** Pattern syntax *)

(** What reading a pattern gives: the pattern read, [Malformed] where
    [new RegExp] throws a [SyntaxError], or [Unmodelled] where the pattern
    is outside the fragment read here (alternation, braces, quantified or
    non-capturing groups, lazy quantifiers, back-references, word
    boundaries and the other escapes not listed below): about such a
    pattern nothing is said. *)
Inductive parsed (A : Type) :=
  | Parsed (a : A)
  | Malformed
  | Unmodelled.
Arguments Parsed {A} a.
Arguments Malformed {A}.
Arguments Unmodelled {A}.

Definition parsed_map {A B} (f : A -> B) (p : parsed A) : parsed B :=
  match p with
  | Parsed a => Parsed (f a)
  | Malformed => Malformed
  | Unmodelled => Unmodelled
  end.

Definition hex_digit (c : Z) : option Z :=
  if (48 <=? c) && (c <=? 57) then Some (c - 48)
  else if (97 <=? c) && (c <=? 102) then Some (c - 87)
  else if (65 <=? c) && (c <=? 70) then Some (c - 55)
  else None.

(** The syntax characters [^$\.*+?()[]{}|], with [/] and [-]. *)
Definition is_syntax_char (c : Z) : bool :=
  existsb (Z.eqb c) [94; 36; 92; 46; 42; 43; 63; 40; 41; 91; 93; 123; 125; 124; 47; 45].

Definition digits : list (Z * Z) := [(48, 57)].

Definition word_chars : list (Z * Z) := [(97, 122); (65, 90); (48, 57); (95, 95)].

(** White space and line terminators, as [\s] has them. *)
Definition white_space : list (Z * Z) :=
  [(9, 13); (32, 32); (0xA0, 0xA0); (0x1680, 0x1680); (0x2000, 0x200A);
   (0x2028, 0x2029); (0x202F, 0x202F); (0x205F, 0x205F); (0x3000, 0x3000);
   (0xFEFF, 0xFEFF)].

(** What follows a backslash: [uHHHH], an escaped syntax character, one of
    the control escapes [\t \n \v \f \r], or one of the class escapes
    [\d \D \w \W \s \S].  A backslash that ends the pattern is an error. *)
Definition escape (s : jsstring) : parsed (cset * jsstring) :=
  match s with
  | [] => Malformed
  | 117 :: h1 :: h2 :: h3 :: h4 :: rest =>
    match hex_digit h1, hex_digit h2, hex_digit h3, hex_digit h4 with
    | Some a, Some b, Some c, Some d =>
      Parsed (CLit (((a * 16 + b) * 16 + c) * 16 + d), rest)
    | _, _, _, _ => Unmodelled
    end
  | c :: rest =>
    if is_syntax_char c then Parsed (CLit c, rest)
    else if c =? 116 then Parsed (CLit 9, rest)
    else if c =? 110 then Parsed (CLit 10, rest)
    else if c =? 118 then Parsed (CLit 11, rest)
    else if c =? 102 then Parsed (CLit 12, rest)
    else if c =? 114 then Parsed (CLit 13, rest)
    else if c =? 100 then Parsed (CClass false digits, rest)
    else if c =? 68 then Parsed (CClass true digits, rest)
    else if c =? 119 then Parsed (CClass false word_chars, rest)
    else if c =? 87 then Parsed (CClass true word_chars, rest)
    else if c =? 115 then Parsed (CClass false white_space, rest)
    else if c =? 83 then Parsed (CClass true white_space, rest)
    else Unmodelled
  end.

(** A member of a bracketed class: a character, or an escape. *)
Definition class_atom (s : jsstring) : parsed (cset * jsstring) :=
  match s with
  | [] => Malformed
  | 92 :: rest => escape rest
  | c :: rest => Parsed (CLit c, rest)
  end.

(** The members of a bracketed class, up to and including the closing [\]].
    A class that is not closed, and a range whose ends are out of order,
    are errors. *)
Fixpoint parse_class (fuel : nat) (s : jsstring) (acc : list (Z * Z))
  : parsed (list (Z * Z) * jsstring) :=
  match fuel with
  | O => Unmodelled
  | S fuel' =>
    match s with
    | [] => Malformed
    | 93 :: rest => Parsed (acc, rest)
    | _ =>
      match class_atom s with
      | Parsed (CLit a, rest) =>
        match rest with
        | 45 :: 93 :: _ => parse_class fuel' rest (acc ++ [(a, a)])
        | 45 :: rest' =>
          match class_atom rest' with
          | Parsed (CLit b, rest'') =>
            if b <? a then Malformed
            else parse_class fuel' rest'' (acc ++ [(a, b)])
          | Parsed (_, _) => Unmodelled
          | Malformed => Malformed
          | Unmodelled => Unmodelled
          end
        | _ => parse_class fuel' rest (acc ++ [(a, a)])
        end
      | Parsed (CClass false rs, rest) =>
        match rest with
        | 45 :: 93 :: _ => parse_class fuel' rest (acc ++ rs)
        | 45 :: _ => Unmodelled
        | _ => parse_class fuel' rest (acc ++ rs)
        end
      | Parsed (_, _) => Unmodelled
      | Malformed => Malformed
      | Unmodelled => Unmodelled
      end
    end
  end.

(** The quantifier that follows an atom, if any. *)
Definition quantifier (s : jsstring) : quant * jsstring :=
  match s with
  | 43 :: rest => (Plus, rest)
  | 42 :: rest => (Star, rest)
  | 63 :: rest => (Opt, rest)
  | _ => (One, s)
  end.

Fixpoint parse (fuel : nat) (s : jsstring) : parsed regex :=
  match fuel with
  | O => Unmodelled
  | S fuel' =>
    let atom (cs : cset) (rest : jsstring) :=
      let '(q, rest') := quantifier rest in
      parsed_map (cons (IChar q cs)) (parse fuel' rest') in
    match s with
    | [] => Parsed []
    | 94 :: rest => parsed_map (cons IStart) (parse fuel' rest)
    | 36 :: rest => parsed_map (cons IEnd) (parse fuel' rest)
    | 40 :: rest => parsed_map (cons IOpen) (parse fuel' rest)
    | 41 :: rest => parsed_map (cons IClose) (parse fuel' rest)
    | 46 :: rest => atom CAny rest
    | 91 :: 94 :: rest =>
      match parse_class fuel' rest [] with
      | Parsed (rs, rest') => atom (CClass true rs) rest'
      | Malformed => Malformed
      | Unmodelled => Unmodelled
      end
    | 91 :: rest =>
      match parse_class fuel' rest [] with
      | Parsed (rs, rest') => atom (CClass false rs) rest'
      | Malformed => Malformed
      | Unmodelled => Unmodelled
      end
    | 92 :: rest =>
      match escape rest with
      | Parsed (cs, rest') => atom cs rest'
      | Malformed => Malformed
      | Unmodelled => Unmodelled
      end
    | c :: rest =>
      if existsb (Z.eqb c) [42; 43; 63; 123; 125; 124] then Unmodelled
      else atom (CLit c) rest
    end
  end.

(** Parentheses are balanced. *)
Fixpoint balanced (depth : nat) (r : regex) : bool :=
  match r with
  | [] => Nat.eqb depth 0
  | IOpen :: r' => balanced (S depth) r'
  | IClose :: r' => match depth with O => false | S d => balanced d r' end
  | _ :: r' => balanced depth r'
  end.

(** [new RegExp(pattern)], without flags: a pattern of the fragment,
    [Malformed] where the constructor throws (a parenthesis without its
    pair, and the errors above), [Unmodelled] otherwise. *)
Definition compile (pattern : jsstring) : parsed regex :=
  match parse (S (length pattern)) pattern with
  | Parsed r => if balanced 0 r then Parsed r else Malformed
  | Malformed => Malformed
  | Unmodelled => Unmodelled
  end.

(** *** Matching *)

(** Capture groups during a match: the open ones (innermost first, text
    reversed) and the closed ones, each with its 1-based number. *)
Record mstate := {
  opens : list (nat * jsstring);
  closed : list (nat * jsstring);
  next_group : nat
}.

Definition mstate0 : mstate := {| opens := []; closed := []; next_group := 1 |}.

Definition consume (c : Z) (st : mstate) : mstate :=
  {| opens := List.map (fun g => (fst g, c :: snd g)) (opens st);
     closed := closed st; next_group := next_group st |}.

Definition open_group (st : mstate) : mstate :=
  {| opens := (next_group st, []) :: opens st;
     closed := closed st; next_group := S (next_group st) |}.

Definition close_group (st : mstate) : mstate :=
  match opens st with
  | (i, acc) :: os =>
    {| opens := os; closed := (i, rev acc) :: closed st; next_group := next_group st |}
  | [] => st
  end.

Definition cont := bool -> jsstring -> mstate -> option mstate.

(** Greedy repetition of a character set, backtracking to shorter runs. *)
Fixpoint star (k : cont) (cs : cset) (bol : bool) (s : jsstring) (st : mstate)
  : option mstate :=
  match s with
  | c :: s' =>
    if mem cs c then
      match star k cs false s' (consume c st) with
      | Some st' => Some st'
      | None => k bol s st
      end
    else k bol s st
  | [] => k bol s st
  end.

(** Match the pattern at the current position; [bol] tells whether that
    position is the start of the input. *)
Fixpoint match_here (r : regex) (bol : bool) (s : jsstring) (st : mstate)
  : option mstate :=
  match r with
  | [] => Some st
  | IStart :: r' => if bol then match_here r' bol s st else None
  | IEnd :: r' => match s with [] => match_here r' bol s st | _ :: _ => None end
  | IOpen :: r' => match_here r' bol s (open_group st)
  | IClose :: r' => match_here r' bol s (close_group st)
  | IChar One cs :: r' =>
    match s with
    | c :: s' => if mem cs c then match_here r' false s' (consume c st) else None
    | [] => None
    end
  | IChar Opt cs :: r' =>
    match s with
    | c :: s' =>
      if mem cs c then
        match match_here r' false s' (consume c st) with
        | Some st' => Some st'
        | None => match_here r' bol s st
        end
      else match_here r' bol s st
    | [] => match_here r' bol s st
    end
  | IChar Star cs :: r' => star (match_here r') cs bol s st
  | IChar Plus cs :: r' =>
    match s with
    | c :: s' =>
      if mem cs c then star (match_here r') cs false s' (consume c st) else None
    | [] => None
    end
  end.

(** [regex.exec(text)]: the leftmost position at which the pattern matches. *)
Fixpoint exec_from (r : regex) (bol : bool) (s : jsstring) : option mstate :=
  match match_here r bol s mstate0 with
  | Some st => Some st
  | None =>
    match s with
    | [] => None
    | _ :: s' => exec_from r false s'
    end
  end.

(** [regex.test(text)] *)
Definition test (r : regex) (text : jsstring) : bool :=
  match exec_from r true text with Some _ => true | None => false end.

(** [text.match(regex)]: [None] for [null]; otherwise the captures, of which
    [group n] is element [n] of the result array ([None] for [undefined]). *)
Definition str_match (text : jsstring) (r : regex) : option mstate :=
  exec_from r true text.

Definition group (n : nat) (st : mstate) : option jsstring :=
  option_map snd (List.find (fun g => Nat.eqb (fst g) n) (closed st)).

End RegExp.

(* ------------------------------------------------------------------ *)
(** ** Data carried by the bridge *)
(* ------------------------------------------------------------------ *)

(** A rejection reason or thrown value: an [Error] with its [message]. *)
Record JsError := MkError { message : jsstring }.

(** How a promise settles.  [Never] is a promise that does not settle; it is
    also what the model returns when the unbounded alias-repair recursion
    has used up its fuel. *)
Inductive Outcome (A : Type) :=
  | Resolved (a : A)
  | Rejected (e : JsError)
  | Never.
Arguments Resolved {A} a.
Arguments Rejected {A} e.
Arguments Never {A}.

(** The home-network identity a call is made with: the puppet's own client,
    the application-service bot, or the ghost with the given user id. *)
Inductive Actor :=
  | PuppetClient
  | Bot
  | Ghost (userId : jsstring).

(** The [dedupe] argument of the constructor. *)
Record Deduplication := {
  dd_tag : option jsstring;
  dd_pattern : option jsstring
}.

(** What [Base] uses of its [Puppet]: [userId], the user id in the client's
    credentials, [makeRoomAlias] and [makeUserAlias].  The [Puppet] class
    under src/ does not declare them; they are taken as given. *)
Record PuppetEnv := {
  p_userId : jsstring;
  p_credentials_userId : jsstring;
  makeRoomAlias : jsstring -> jsstring;
  makeUserAlias : jsstring -> jsstring
}.

(** The static members of the third-party adapter. *)
Record AdapterEnv := {
  serviceName : jsstring;
  serviceIconPath : option jsstring;
  has_handleMatrixUserBangCommand : bool
}.

(** The fields of a [Base] instance that never change after construction
    and [setAdapter]. *)
Record Base := {
  identityPair_id : jsstring;
  network : jsstring;
  puppet : PuppetEnv;
  adapter : AdapterEnv;
  deduplicationTag : jsstring;
  deduplicationTagPattern : jsstring;
  deduplicationTagRegex : RegExp.regex
}.

Record RoomData := {
  rd_name : option jsstring;
  rd_topic : option jsstring;
  rd_avatarUrl : option jsstring
}.

Record UserData := {
  ud_name : option jsstring;
  ud_avatarUrl : option jsstring
}.

Record RemoteUser := {
  ru_id : jsstring;
  ru_data : UserData
}.

Record BufferAndType := {
  bt_buffer : list Z;
  bt_type : jsstring
}.

Record Uploaded := {
  content_uri : jsstring;
  up_size : Z
}.

Record CreateRoomOpts := {
  createAsClient : bool;
  cr_name : option jsstring;
  cr_topic : option jsstring;
  room_alias_name : jsstring
}.

Record UploadOpts := {
  uo_name : jsstring;
  uo_type : jsstring
}.

(** The content of an [m.room.message] sent to the home network. *)
Record Content := {
  body : jsstring;
  formatted_body : option jsstring;
  format : option jsstring;
  msgtype : jsstring
}.

Record ImageOpts := {
  io_mimetype : option jsstring;
  io_h : option Z;
  io_w : option Z;
  io_size : Z
}.

(** The [Image] handed to [adapter.sendImageMessage]. *)
Record Image := {
  im_url : jsstring;
  im_text : jsstring;
  im_mimetype : option jsstring;
  im_width : option Z;
  im_height : option Z;
  im_size : option Z
}.

Record ThirdPartyMessagePayload := {
  tm_roomId : jsstring;
  tm_senderId : option jsstring;
  tm_senderName : option jsstring;
  tm_avatarUrl : option jsstring;
  tm_text : jsstring;
  tm_html : option jsstring
}.

Record ThirdPartyImageMessagePayload := {
  ti_roomId : jsstring;
  ti_senderId : option jsstring;
  ti_senderName : option jsstring;
  ti_avatarUrl : option jsstring;
  ti_text : jsstring;
  ti_url : option jsstring;
  ti_path : option jsstring;
  ti_buffer : option (list Z);
  ti_h : option Z;
  ti_w : option Z;
  ti_mimetype : option jsstring
}.

Record EventInfo := {
  ei_mimetype : option jsstring;
  ei_w : option Z;
  ei_h : option Z;
  ei_size : option Z
}.

(** The data of a home-network event: [type], [room_id], [sender] and
    [content] with [body], [msgtype], [url] and [info]. *)
Record EventData := {
  ev_type : jsstring;
  room_id : jsstring;
  sender : jsstring;
  ev_body : jsstring;
  ev_msgtype : jsstring;
  ev_url : jsstring;
  ev_info : option EventInfo
}.

Record BangCommand := {
  bc_command : jsstring;
  bc_body : jsstring
}.

(** The values [sendStatusMsg] formats. *)
Inductive JsValue :=
  | VString (s : jsstring)
  | VError (e : JsError)
  | VTextPayload (p : ThirdPartyMessagePayload)
  | VImagePayload (p : ThirdPartyImageMessagePayload)
  | VEvent (d : EventData).

(** Every call that leaves [base.ts]: to the homeserver through a client or
    intent, to the user store, to the third-party adapter, to the helpers
    of matrix-puppet-bridge and utils, and to the file system. *)
Inductive Call :=
  | GetRoomIdForAlias (alias : jsstring)
  | CreateRoom (opts : CreateRoomOpts)
  | JoinRoom (room : jsstring)
  | DeleteAlias (alias : jsstring)
  | SetPowerLevel (room user : jsstring) (level : Z)
  | IntentJoin (who : Actor) (room : jsstring)
  | IntentLeave (room : jsstring)
  | SetDisplayName (who : Actor) (name : jsstring)
  | SetAvatarUrl (who : Actor) (uri : jsstring)
  | SetRoomAvatar (room uri : jsstring)
  | GetProfileInfo (who : Actor) (user : jsstring)
  | UploadContent (who : Actor) (buffer : list Z) (opts : UploadOpts)
  | SendMessage (who : Actor) (room : jsstring) (content : Content)
  | SendImageMessage (who : Actor) (room uri : jsstring) (opts : ImageOpts) (text : jsstring)
  | StoreGetRemoteUser (id : jsstring)
  | StoreSetRemoteUser (u : RemoteUser)
  | AdapterGetUserData (id : jsstring)
  | AdapterGetRoomData (id : jsstring)
  | AdapterSendMessage (room text : jsstring)
  | AdapterSendImageMessage (room : jsstring) (image : Image)
  | AdapterBangCommand (bc : BangCommand) (data : EventData)
  | AdapterSendReadReceipt (room : option jsstring)
  | Download (url : jsstring)
  | LocalDisk (path : jsstring)
  | ReadFile (path : jsstring)
  | UploaderUpload (who : Actor) (text : jsstring) (mimetype : option jsstring)
      (buffer : option (list Z)) (opts : option (option jsstring)).

(** The outside world: what each call settles to, given the calls made so
    far, and the synchronous helpers imported by [base.ts]. *)
Record World := {
  w_getRoomIdForAlias : list Call -> jsstring -> Outcome jsstring;
  w_createRoom : list Call -> CreateRoomOpts -> Outcome jsstring;
  w_joinRoom : list Call -> jsstring -> Outcome unit;
  w_deleteAlias : list Call -> jsstring -> Outcome unit;
  w_setPowerLevel : list Call -> jsstring -> jsstring -> Z -> Outcome unit;
  w_intentJoin : list Call -> Actor -> jsstring -> Outcome unit;
  w_intentLeave : list Call -> jsstring -> Outcome unit;
  w_setDisplayName : list Call -> Actor -> jsstring -> Outcome unit;
  w_setAvatarUrl : list Call -> Actor -> jsstring -> Outcome unit;
  w_setRoomAvatar : list Call -> jsstring -> jsstring -> Outcome unit;
  w_getProfileInfo : list Call -> Actor -> jsstring -> Outcome (option jsstring);
  w_uploadContent : list Call -> Actor -> list Z -> UploadOpts -> Outcome Uploaded;
  w_sendMessage : list Call -> Actor -> jsstring -> Content -> Outcome unit;
  w_sendImageMessage :
    list Call -> Actor -> jsstring -> jsstring -> ImageOpts -> jsstring -> Outcome unit;
  w_getRemoteUser : list Call -> jsstring -> Outcome (option RemoteUser);
  w_setRemoteUser : list Call -> RemoteUser -> Outcome unit;
  w_getUserData : list Call -> jsstring -> Outcome UserData;
  w_getRoomData : list Call -> jsstring -> Outcome RoomData;
  w_adapterSendMessage : list Call -> jsstring -> jsstring -> Outcome unit;
  w_adapterSendImageMessage : list Call -> jsstring -> Image -> Outcome unit;
  w_bangCommand : list Call -> BangCommand -> EventData -> Outcome unit;
  w_sendReadReceipt : list Call -> jsstring -> Outcome unit;
  w_download : list Call -> jsstring -> Outcome BufferAndType;
  w_localdisk : list Call -> jsstring -> Outcome BufferAndType;
  w_readFile : list Call -> jsstring -> Outcome (list Z);
  w_upload :
    list Call -> Actor -> jsstring -> option jsstring -> option (list Z)
    -> option (option jsstring) -> Outcome Uploaded;
  (** [bridge.getIntent() === null], as tested by [sendStatusMsg] *)
  w_botIntentIsNull : list Call -> bool;
  (** [puppet.getClient().getRoom(id).getAliases()]; [None] when [getRoom]
      gives [null] *)
  w_roomAliases : list Call -> jsstring -> option (list jsstring);
  w_mxcUrlToHttp : jsstring -> jsstring;
  w_parseBangCommand : jsstring -> option BangCommand;
  w_inspect : JsValue -> jsstring;
  w_entities_encode : jsstring -> jsstring;
  w_basename : jsstring -> jsstring;
  (** [autoTagger(senderId, this)] of utils, which is not under src/ *)
  w_autoTagger : option jsstring -> Base -> jsstring -> jsstring;
  (** [new RegExp(pattern)] for a pattern outside the modelled fragment:
      [None] when it throws; otherwise what [text.match(re)] gives, [None]
      for [null] and else element 1 of the result *)
  w_RegExp : jsstring -> option (jsstring -> option (option jsstring))
}.

(** *** JavaScript objects used as maps *)

(** The property names every object inherits from [Object.prototype]. *)
Definition object_prototype_names : list jsstring :=
  List.map lit
    ["constructor"; "__defineGetter__"; "__defineSetter__"; "hasOwnProperty";
     "__lookupGetter__"; "__lookupSetter__"; "isPrototypeOf";
     "propertyIsEnumerable"; "toString"; "valueOf"; "__proto__";
     "toLocaleString"]%string.

(** The property names a [Map] instance inherits. *)
Definition map_prototype_names : list jsstring :=
  List.map lit
    ["get"; "set"; "has"; "delete"; "clear"; "entries"; "forEach"; "keys";
     "size"; "values"]%string ++ object_prototype_names.

(** [key in obj]: an own property or an inherited one. *)
Definition js_in (inherited : list jsstring) (key : jsstring)
    (obj : gmap jsstring jsstring) : bool :=
  bool_decide (is_Some (obj !! key)) || bool_decide (key ∈ inherited).

(** [obj[key] = value] on a plain object; assigning a string to [__proto__]
    stores nothing. *)
Definition js_set (key value : jsstring) (obj : gmap jsstring jsstring)
  : gmap jsstring jsstring :=
  if str_eqb key (lit "__proto__") then obj else <[key := value]> obj.

(** [map[key] = value] on a [Map] instance, in strict code as a class body
    is: [size] is an accessor of [Map.prototype] that has no setter, so
    assigning to it throws a [TypeError]; any other key is stored as on a
    plain object. *)
Definition map_set (key value : jsstring) (obj : gmap jsstring jsstring)
  : JsError + gmap jsstring jsstring :=
  if str_eqb key (lit "size")
  then inl (MkError (lit "Cannot set property size of #<Map> which has only a getter"))
  else inr (js_set key value obj).

(** [obj[key]] where it is a stored string; [None] for [undefined] and for
    an inherited member. *)
Definition js_get (key : jsstring) (obj : gmap jsstring jsstring) : option jsstring :=
  obj !! key.

(* ------------------------------------------------------------------ *)
(** ** Promises *)
(* ------------------------------------------------------------------ *)

(** The mutable state of a run: the calls made so far, oldest first, and
    the string-keyed members of the [thirdPartyRooms] map of the [Base]
    instance, which the code reads and writes as an object. *)
Record St := {
  log : list Call;
  thirdPartyRooms : gmap jsstring jsstring
}.

Definition M (A : Type) : Type := World -> St -> Outcome A * St.

Definition ret {A} (a : A) : M A := fun _ s => (Resolved a, s).

(** [Promise.reject(e)], or [throw e] inside a promise callback. *)
Definition reject {A} (e : JsError) : M A := fun _ s => (Rejected e, s).

Definition never {A} : M A := fun _ s => (Never, s).

(** [m.then(k)] *)
Definition bind {A B} (m : M A) (k : A -> M B) : M B :=
  fun w s =>
    match m w s with
    | (Resolved a, s') => k a w s'
    | (Rejected e, s') => (Rejected e, s')
    | (Never, s') => (Never, s')
    end.

(** [m.then(k, h)]: [h] sees a rejection of [m], not one of [k]. *)
Definition then2 {A B} (m : M A) (k : A -> M B) (h : JsError -> M B) : M B :=
  fun w s =>
    match m w s with
    | (Resolved a, s') => k a w s'
    | (Rejected e, s') => h e w s'
    | (Never, s') => (Never, s')
    end.

(** [m.catch(h)] *)
Definition catch {A} (m : M A) (h : JsError -> M A) : M A := then2 m ret h.

(** A promise that is started and not returned: its calls are made, its
    outcome is dropped. *)
Definition detached {A} (m : M A) : M unit :=
  fun w s => (Resolved tt, snd (m w s)).

(** One call to the outside world. *)
Definition call {A} (c : Call) (reply : World -> list Call -> Outcome A) : M A :=
  fun w s =>
    (reply w (log s), {| log := log s ++ [c]; thirdPartyRooms := thirdPartyRooms s |}).

(** A promise as the code holds it once the function that makes it has been
    called: the function has made its first call, and [and_then] is what the
    promise does with the reply. *)
Record Chain (A : Type) := Starts {
  reply_type : Type;
  first_call : Call;
  first_reply : World -> list Call -> Outcome reply_type;
  and_then : reply_type -> M A
}.
Arguments Starts {A reply_type} first_call first_reply and_then.
Arguments reply_type {A} _.
Arguments first_call {A} _.
Arguments first_reply {A} _.
Arguments and_then {A} _.

(** The promise awaited on its own: the call, then the rest. *)
Definition await {A} (p : Chain A) : M A :=
  bind (call (first_call p) (first_reply p)) (and_then p).

(** [p.then(k)] *)
Definition chain_then {A B} (p : Chain A) (k : A -> M B) : Chain B :=
  Starts (first_call p) (first_reply p) (fun x => bind (and_then p x) k).

(** What a started promise does once the reply to its first call is in. *)
Definition resume {A} (p : Chain A) (o : Outcome (reply_type p)) : M A :=
  match o with
  | Resolved x => and_then p x
  | Rejected e => reject e
  | Never => never
  end.

(** [Promise.all([p1, p2])] of two promises started one after the other:
    the first call of each is made before any reply is handled.  In which
    order the later calls of the two are made depends on when the replies
    arrive; here those of the first promise arrive first.  The result is
    rejected as soon as one promise is. *)
Definition all2 {A B} (p1 : Chain A) (p2 : Chain B) : M (A * B) :=
  fun w s =>
    let o1 := first_reply p1 w (log s) in
    let o2 := first_reply p2 w (log s ++ [first_call p1]) in
    let started := {| log := log s ++ [first_call p1; first_call p2];
                      thirdPartyRooms := thirdPartyRooms s |} in
    let '(r1, s1) := resume p1 o1 w started in
    let '(r2, s2) := resume p2 o2 w s1 in
    (match r1, r2 with
     | Rejected e, _ => Rejected e
     | _, Rejected e => Rejected e
     | Resolved a, Resolved b => Resolved (a, b)
     | _, _ => Never
     end, s2).

(** A synchronous question to the outside world. *)
Definition ask {A} (q : World -> list Call -> A) : M A :=
  fun w s => (Resolved (q w (log s)), s).

Definition get_rooms : M (gmap jsstring jsstring) :=
  fun _ s => (Resolved (thirdPartyRooms s), s).

(** [this.thirdPartyRooms[key] = value], in a promise callback *)
Definition set_room (key value : jsstring) : M unit :=
  fun _ s =>
    match map_set key value (thirdPartyRooms s) with
    | inr rooms => (Resolved tt, {| log := log s; thirdPartyRooms := rooms |})
    | inl e => (Rejected e, s)
    end.

Declare Scope promise_scope.
Delimit Scope promise_scope with promise.
Notation "x <- m ;; k" := (bind m (fun x => k))
  (at level 100, m at next level, right associativity) : promise_scope.
Notation "m ;; k" := (bind m (fun _ => k))
  (at level 100, right associativity) : promise_scope.
Local Open Scope promise_scope.

(** *** The calls, one definition each *)

Definition getRoomIdForAlias (alias : jsstring) : M jsstring :=
  call (GetRoomIdForAlias alias) (fun w l => w_getRoomIdForAlias w l alias).
Definition createRoom (o : CreateRoomOpts) : M jsstring :=
  call (CreateRoom o) (fun w l => w_createRoom w l o).
Definition joinRoom (room : jsstring) : M unit :=
  call (JoinRoom room) (fun w l => w_joinRoom w l room).
Definition deleteAlias (alias : jsstring) : M unit :=
  call (DeleteAlias alias) (fun w l => w_deleteAlias w l alias).
Definition setPowerLevel (room user : jsstring) (level : Z) : M unit :=
  call (SetPowerLevel room user level) (fun w l => w_setPowerLevel w l room user level).
Definition intentJoin (who : Actor) (room : jsstring) : M unit :=
  call (IntentJoin who room) (fun w l => w_intentJoin w l who room).
Definition intentLeave (room : jsstring) : M unit :=
  call (IntentLeave room) (fun w l => w_intentLeave w l room).
Definition setDisplayName (who : Actor) (name : jsstring) : M unit :=
  call (SetDisplayName who name) (fun w l => w_setDisplayName w l who name).
Definition setAvatarUrl (who : Actor) (uri : jsstring) : M unit :=
  call (SetAvatarUrl who uri) (fun w l => w_setAvatarUrl w l who uri).
Definition intentSetRoomAvatar (room uri : jsstring) : M unit :=
  call (SetRoomAvatar room uri) (fun w l => w_setRoomAvatar w l room uri).
Definition getProfileInfo (who : Actor) (user : jsstring) : M (option jsstring) :=
  call (GetProfileInfo who user) (fun w l => w_getProfileInfo w l who user).
Definition uploadContent (who : Actor) (buffer : list Z) (o : UploadOpts) : M Uploaded :=
  call (UploadContent who buffer o) (fun w l => w_uploadContent w l who buffer o).
Definition sendMessage (who : Actor) (room : jsstring) (c : Content) : M unit :=
  call (SendMessage who room c) (fun w l => w_sendMessage w l who room c).
Definition sendImageMessage (who : Actor) (room uri : jsstring) (o : ImageOpts)
    (text : jsstring) : M unit :=
  call (SendImageMessage who room uri o text)
       (fun w l => w_sendImageMessage w l who room uri o text).
Definition getRemoteUser (id : jsstring) : M (option RemoteUser) :=
  call (StoreGetRemoteUser id) (fun w l => w_getRemoteUser w l id).
Definition setRemoteUser (u : RemoteUser) : M unit :=
  call (StoreSetRemoteUser u) (fun w l => w_setRemoteUser w l u).
Definition adapter_getUserData (id : jsstring) : M UserData :=
  call (AdapterGetUserData id) (fun w l => w_getUserData w l id).
Definition adapter_getRoomData (id : jsstring) : M RoomData :=
  call (AdapterGetRoomData id) (fun w l => w_getRoomData w l id).
Definition adapter_sendMessage (room text : jsstring) : M unit :=
  call (AdapterSendMessage room text) (fun w l => w_adapterSendMessage w l room text).
Definition adapter_sendImageMessage (room : jsstring) (image : Image) : M unit :=
  call (AdapterSendImageMessage room image)
       (fun w l => w_adapterSendImageMessage w l room image).
Definition adapter_handleMatrixUserBangCommand (bc : BangCommand) (d : EventData) : M unit :=
  call (AdapterBangCommand bc d) (fun w l => w_bangCommand w l bc d).
Definition download_getBufferAndType (url : jsstring) : M BufferAndType :=
  call (Download url) (fun w l => w_download w l url).
Definition localdisk_getBufferAndType (path : jsstring) : M BufferAndType :=
  call (LocalDisk path) (fun w l => w_localdisk w l path).
Definition fs_readFile (path : jsstring) : M (list Z) :=
  call (ReadFile path) (fun w l => w_readFile w l path).

(** [createUploader(client, text, mimetype).upload(buffer, opts)] of utils,
    which is not under src/: one call, answered by the world. *)
Definition upload (who : Actor) (text : jsstring) (mimetype : option jsstring)
    (buffer : option (list Z)) (opts : option (option jsstring)) : M Uploaded :=
  call (UploaderUpload who text mimetype buffer opts)
       (fun w l => w_upload w l who text mimetype buffer opts).

(* ------------------------------------------------------------------ *)
(** ** [class Base] *)
(* ------------------------------------------------------------------ *)

Definition defaultDeduplicationTag : jsstring := [32; 0xFEFF].

Definition defaultDeduplicationTagPattern : jsstring := lit " \ufeff$".

(** [(dedupe && dedupe.x) || fallback] *)
Definition configured (dedupe : option Deduplication)
    (field : Deduplication -> option jsstring) (fallback : jsstring) : jsstring :=
  match dedupe with
  | Some d =>
    match field d with
    | Some s => if truthy s then s else fallback
    | None => fallback
    end
  | None => fallback
  end.

(** The constructor, followed by [setAdapter].  [None] when [new RegExp]
    throws on the deduplication pattern, and when the pattern is outside
    the modelled fragment, so that the instance has no counterpart here:
    [RegExp.compile] tells which. *)
Definition new_Base (identityPair_id network : jsstring) (puppet : PuppetEnv)
    (dedupe : option Deduplication) (adapter : AdapterEnv) : option Base :=
  let tag := configured dedupe dd_tag defaultDeduplicationTag in
  let pattern := configured dedupe dd_pattern defaultDeduplicationTagPattern in
  match RegExp.compile pattern with
  | RegExp.Parsed re =>
    Some {| identityPair_id := identityPair_id; network := network;
            puppet := puppet; adapter := adapter;
            deduplicationTag := tag; deduplicationTagPattern := pattern;
            deduplicationTagRegex := re |}
  | RegExp.Malformed | RegExp.Unmodelled => None
  end.

Definition tagMatrixMessage (b : Base) (text : jsstring) : jsstring :=
  text ++ deduplicationTag b.

Definition isTaggedMatrixMessage (b : Base) (text : jsstring) : bool :=
  RegExp.test (deduplicationTagRegex b) text.

Definition getRoomAliasLocalPartFromThirdPartyRoomId (b : Base) (id : jsstring) : jsstring :=
  network b ++ lit "_puppet_" ++ identityPair_id b ++ lit "_" ++ id.

Definition getGhostUserFromThirdPartySenderId (b : Base) (id : jsstring) : jsstring :=
  makeUserAlias (puppet b) (getRoomAliasLocalPartFromThirdPartyRoomId b id).

Definition getRoomAliasFromThirdPartyRoomId (b : Base) (id : jsstring) : jsstring :=
  makeRoomAlias (puppet b) (getRoomAliasLocalPartFromThirdPartyRoomId b id).

(** [alias.split(':')[0]] *)
Fixpoint before_colon (s : jsstring) : jsstring :=
  match s with
  | [] => []
  | c :: rest => if c =? 58 then [] else c :: before_colon rest
  end.

(** [new RegExp(pattern)] as [getThirdPartyRoomIdFromMatrixRoomId] uses
    it: the function from a text to [text.match(patt)], [None] for [null]
    and else element 1 of the result.  For a pattern outside the modelled
    fragment the answer is the world's. *)
Definition new_RegExp (pattern : jsstring)
  : M (jsstring -> option (option jsstring)) :=
  match RegExp.compile pattern with
  | RegExp.Parsed patt =>
    ret (fun text => option_map (RegExp.group 1) (RegExp.str_match text patt))
  | RegExp.Malformed => reject (MkError (lit "Invalid regular expression"))
  | RegExp.Unmodelled =>
    engine <- ask (fun w _ => w_RegExp w pattern);;
    match engine with
    | Some matcher => ret matcher
    | None => reject (MkError (lit "Invalid regular expression"))
    end
  end.

Definition getThirdPartyRoomIdFromMatrixRoomId (b : Base) (matrixRoomId : jsstring)
  : M (option jsstring) :=
  patt <- new_RegExp (lit "^#" ++ network b ++ lit "_puppet_" ++ identityPair_id b
                        ++ lit "_([a-zA-Z0-9+\/=_]+)$");;
  room <- ask (fun w l => w_roomAliases w l matrixRoomId);;
  match room with
  | None => reject (MkError (lit "Cannot read property 'getAliases' of null"))
  | Some aliases =>
    ret (fold_left
           (fun result alias =>
              let localpart := before_colon alias in
              match patt localpart with
              | Some matches => matches
              | None => result
              end)
           aliases None)
  end.

(** The local helper [grantPuppetMaxPowerLevel] of the two room resolvers:
    a failed grant is swallowed. *)
Definition grantPuppetMaxPowerLevel (b : Base) (room_id : jsstring) : M jsstring :=
  catch (setPowerLevel room_id (p_credentials_userId (puppet b)) 100)
        (fun _ => ret tt);;
  ret room_id.

Definition setRoomAvatar (roomId avatarUrl : jsstring) : M unit :=
  bt <- download_getBufferAndType avatarUrl;;
  name <- ask (fun w _ => w_basename w avatarUrl);;
  res <- uploadContent Bot (bt_buffer bt) {| uo_name := name; uo_type := bt_type bt |};;
  intentSetRoomAvatar roomId (content_uri res).

Definition setRoomAvatarFromDisk (roomId avatarPath : jsstring) : M unit :=
  bt <- localdisk_getBufferAndType avatarPath;;
  name <- ask (fun w _ => w_basename w avatarPath);;
  res <- uploadContent Bot (bt_buffer bt) {| uo_name := name; uo_type := bt_type bt |};;
  intentSetRoomAvatar roomId (content_uri res).

Definition no_known_servers (err : JsError) : bool :=
  str_eqb (message err) (lit "No known servers").

(** The room alias [getStatusRoomId] works on. *)
Definition status_alias_localpart (b : Base) (_roomAliasLocalPart : option jsstring)
  : jsstring :=
  if truthy_opt _roomAliasLocalPart
  then default [] _roomAliasLocalPart
  else getRoomAliasLocalPartFromThirdPartyRoomId b (lit "status_room").

(** The first step of [getStatusRoomId]: look the alias up; when the lookup
    fails, create the status room. *)
Definition lookup_or_create_status_room (b : Base) (roomAliasLocalPart : jsstring)
  : M jsstring :=
  then2 (getRoomIdForAlias (makeRoomAlias (puppet b) roomAliasLocalPart))
    (fun room_id => grantPuppetMaxPowerLevel b room_id)
    (fun _err =>
       let name := serviceName (adapter b) ++ lit " Protocol" in
       let topic := serviceName (adapter b) ++ lit " Protocol Status Messages" in
       room_id <- createRoom {| createAsClient := false; cr_name := Some name;
                                cr_topic := Some topic;
                                room_alias_name := roomAliasLocalPart |};;
       if truthy_opt (serviceIconPath (adapter b))
       then setRoomAvatarFromDisk room_id (default [] (serviceIconPath (adapter b)));;
            ret room_id
       else ret room_id).

(** [getStatusRoomId].  The recursion after the alias repair is unbounded
    in the source; [fuel] bounds the number of resolution rounds. *)
Fixpoint getStatusRoomId (fuel : nat) (b : Base) (_roomAliasLocalPart : option jsstring)
  : M jsstring :=
  match fuel with
  | O => never
  | S fuel' =>
    let roomAliasLocalPart := status_alias_localpart b _roomAliasLocalPart in
    let roomAlias := makeRoomAlias (puppet b) roomAliasLocalPart in
    matrixRoomId <- lookup_or_create_status_room b roomAliasLocalPart;;
    then2 (joinRoom matrixRoomId)
      (fun _ => grantPuppetMaxPowerLevel b matrixRoomId)
      (fun err =>
         if no_known_servers err
         then deleteAlias roomAlias;; getStatusRoomId fuel' b _roomAliasLocalPart
         else ret matrixRoomId)
  end.

Record StatusMessageOptions := {
  fixedWidthOutput : option bool;
  roomAliasLocalPart : option jsstring
}.

(** [typeof arg === 'object' ? inspect(arg, ...) : arg.toString()] *)
Definition format_arg (w : World) (arg : JsValue) : jsstring :=
  match arg with
  | VString s => s
  | _ => w_inspect w arg
  end.

(** The [args.reduce] of [sendStatusMsg]. *)
Fixpoint reduce_args (w : World) (index : nat) (acc : jsstring) (args : list JsValue)
  : jsstring :=
  match args with
  | [] => acc
  | arg :: rest =>
    let sep := if (0 <? index)%nat then lit " " else [] in
    reduce_args w (S index) (acc ++ sep ++ format_arg w arg) rest
  end.

(** What the promise returned by [sendStatusMsg] resolves to: [false], or
    the array it handed to [Promise.all]. *)
Inductive StatusResult :=
  | NotReady
  | PromiseList (entries : list (M unit)).

(** The two functions [sendStatusMsg] pushes on [promiseList]. *)
Definition status_join (statusRoomId : jsstring) : M unit :=
  detached (intentJoin Bot statusRoomId).

Definition status_send (b : Base) (fixedWidth : bool) (statusRoomId msgText : jsstring)
  : M unit :=
  let txt := tagMatrixMessage b msgText in
  if fixedWidth then
    encoded <- ask (fun w _ => w_entities_encode w txt);;
    sendMessage Bot statusRoomId
      {| body := txt;
         formatted_body := Some (lit "<pre><code>" ++ encoded ++ lit "</code></pre>");
         format := Some (lit "org.matrix.custom.html");
         msgtype := lit "m.notice" |}
  else
    sendMessage Bot statusRoomId
      {| body := txt; formatted_body := None; format := None;
         msgtype := lit "m.notice" |}.

(** [sendStatusMsg].  [promiseList] holds functions, not promises, and
    [Promise.all] resolves with its non-promise entries as they are: the
    functions are returned, none is called.  [options] is a record, so the
    [typeof options !== 'object'] guard never fires. *)
Definition sendStatusMsg (fuel : nat) (b : Base) (options : StatusMessageOptions)
    (args : list JsValue) : M StatusResult :=
  let fixedWidth := default true (fixedWidthOutput options) in
  msgText <- ask (fun w _ => reduce_args w 0 [] args);;
  statusRoomId <- getStatusRoomId fuel b (roomAliasLocalPart options);;
  isNull <- ask w_botIntentIsNull;;
  if isNull : bool then ret NotReady
  else ret (PromiseList [status_join statusRoomId;
                         status_send b fixedWidth statusRoomId msgText]).

(** [getOrInitRemoteUserStoreDataFromThirdPartyUserId]: the promise it
    returns, which starts with the read of the user store. *)
Definition getOrInitRemoteUserStoreData_started (thirdPartyUserId : jsstring)
  : Chain (option RemoteUser) :=
  Starts (StoreGetRemoteUser thirdPartyUserId)
    (fun w l => w_getRemoteUser w l thirdPartyUserId)
    (fun rUser =>
       match rUser with
       | Some u => ret (Some u)
       | None =>
         thirdPartyUserData <- adapter_getUserData (b2a thirdPartyUserId);;
         setRemoteUser {| ru_id := thirdPartyUserId; ru_data := thirdPartyUserData |};;
         getRemoteUser thirdPartyUserId
       end).

Definition getOrInitRemoteUserStoreDataFromThirdPartyUserId (thirdPartyUserId : jsstring)
  : M (option RemoteUser) :=
  await (getOrInitRemoteUserStoreData_started thirdPartyUserId).

(** [setGhostAvatar] for the ghost intent of user [ghostUserId]: the promise
    it returns, which starts with the read of the ghost's profile. *)
Definition setGhostAvatar_started (ghostUserId avatarUrl : jsstring) : Chain unit :=
  Starts (GetProfileInfo (Ghost ghostUserId) ghostUserId)
    (fun w l => w_getProfileInfo w l (Ghost ghostUserId) ghostUserId)
    (fun avatar_url =>
       if truthy_opt avatar_url then ret tt
       else
         bt <- download_getBufferAndType avatarUrl;;
         name <- ask (fun w _ => w_basename w avatarUrl);;
         res <- uploadContent (Ghost ghostUserId) (bt_buffer bt)
                  {| uo_name := name; uo_type := bt_type bt |};;
         setAvatarUrl (Ghost ghostUserId) (content_uri res)).

Definition setGhostAvatar (ghostUserId avatarUrl : jsstring) : M unit :=
  await (setGhostAvatar_started ghostUserId avatarUrl).

(** [ghostIntent.setDisplayName(name)]: the promise it returns. *)
Definition setDisplayName_started (who : Actor) (name : jsstring) : Chain unit :=
  Starts (SetDisplayName who name) (fun w l => w_setDisplayName w l who name) ret.

(** [remoteUser.get(field)] on what the store returned; reading a field of
    [null] is a [TypeError]. *)
Definition with_remote_user (field : UserData -> option jsstring)
    (k : jsstring -> M unit) (remoteUser : option RemoteUser) : M unit :=
  match remoteUser with
  | None => reject (MkError (lit "Cannot read property 'get' of null"))
  | Some u =>
    match field (ru_data u) with
    | Some v => if truthy v then k v else ret tt
    | None => ret tt
    end
  end.

(** [getIntentFromThirdPartySenderId]: the user id of the ghost whose intent
    it resolves to. *)
Definition getIntentFromThirdPartySenderId (b : Base) (userId : jsstring)
    (name avatarUrl : option jsstring) : M jsstring :=
  let ghost := getGhostUserFromThirdPartySenderId b userId in
  let setName :=
    if truthy_opt name then setDisplayName_started (Ghost ghost) (default [] name)
    else chain_then (getOrInitRemoteUserStoreData_started userId)
           (with_remote_user ud_name (setDisplayName (Ghost ghost))) in
  let setAvatar :=
    if truthy_opt avatarUrl then setGhostAvatar_started ghost (default [] avatarUrl)
    else chain_then (getOrInitRemoteUserStoreData_started userId)
           (with_remote_user ud_avatarUrl (setGhostAvatar ghost)) in
  all2 setName setAvatar;;
  ret ghost.

(** The first step of [getOrCreateMatrixRoomFromThirdPartyRoomId]: look the
    alias up; when the lookup fails, create the room from the adapter's room
    data. *)
Definition lookup_or_create_room (b : Base) (thirdPartyRoomId : jsstring) : M jsstring :=
  then2 (getRoomIdForAlias (getRoomAliasFromThirdPartyRoomId b thirdPartyRoomId))
    (fun room_id => ret room_id)
    (fun _err =>
       thirdPartyRoomData <- adapter_getRoomData (b2a thirdPartyRoomId);;
       room_id <- createRoom
                    {| createAsClient := true;
                       cr_name := rd_name thirdPartyRoomData;
                       cr_topic := rd_topic thirdPartyRoomData;
                       room_alias_name :=
                         getRoomAliasLocalPartFromThirdPartyRoomId b thirdPartyRoomId |};;
       if truthy_opt (rd_avatarUrl thirdPartyRoomData)
       then setRoomAvatar room_id (default [] (rd_avatarUrl thirdPartyRoomData));;
            ret room_id
       else ret room_id).

(** Its last step: record the room in [thirdPartyRooms] and make the bot
    leave, without waiting for the leave. *)
Definition record_and_leave (thirdPartyRoomId matrixRoomId : jsstring) : M jsstring :=
  set_room matrixRoomId thirdPartyRoomId;;
  detached (intentLeave matrixRoomId);;
  ret matrixRoomId.

(** [getOrCreateMatrixRoomFromThirdPartyRoomId], with [fuel] bounding the
    number of resolution rounds as in [getStatusRoomId]. *)
Fixpoint getOrCreateMatrixRoomFromThirdPartyRoomId (fuel : nat) (b : Base)
    (thirdPartyRoomId : jsstring) : M jsstring :=
  match fuel with
  | O => never
  | S fuel' =>
    let roomAlias := getRoomAliasFromThirdPartyRoomId b thirdPartyRoomId in
    matrixRoomId <- lookup_or_create_room b thirdPartyRoomId;;
    matrixRoomId <-
      then2 (joinRoom matrixRoomId)
        (fun _ => grantPuppetMaxPowerLevel b matrixRoomId)
        (fun err =>
           if no_known_servers err
           then deleteAlias roomAlias;;
                getOrCreateMatrixRoomFromThirdPartyRoomId fuel' b thirdPartyRoomId
           else ret matrixRoomId);;
    record_and_leave thirdPartyRoomId matrixRoomId
  end.

Record PrepareMessageHandlerParams := {
  pm_senderId : option jsstring;
  pm_senderName : option jsstring;
  pm_avatarUrl : option jsstring;
  pm_roomId : jsstring;
  pm_text : jsstring
}.

Record MessageHandler := {
  mh_tag : jsstring -> jsstring;
  matrixRoomId : jsstring;
  client : Actor;
  ignore : bool
}.

Definition prepareMessageHandler (fuel : nat) (b : Base)
    (params : PrepareMessageHandlerParams) : M MessageHandler :=
  tag <- ask (fun w _ => w_autoTagger w (pm_senderId params) b);;
  matrixRoomId <- getOrCreateMatrixRoomFromThirdPartyRoomId fuel b (pm_roomId params);;
  match pm_senderId params with
  | None =>
    ret {| mh_tag := tag; matrixRoomId := matrixRoomId; client := PuppetClient;
           ignore := isTaggedMatrixMessage b (pm_text params) |}
  | Some senderId =>
    ghost <- getIntentFromThirdPartySenderId b senderId
               (pm_senderName params) (pm_avatarUrl params);;
    (statusRoomId <- getStatusRoomId fuel b None;;
     intentJoin (Ghost ghost) statusRoomId);;
    intentJoin (Ghost ghost) matrixRoomId;;
    ret {| mh_tag := tag; matrixRoomId := matrixRoomId; client := Ghost ghost;
           ignore := false |}
  end.

Definition not_a_function : JsError := MkError (lit "promise is not a function").

(** [url || path || text] *)
Definition url_or_path_or_text (url path : option jsstring) (text : jsstring) : jsstring :=
  if truthy_opt url then default [] url
  else if truthy_opt path then default [] path
  else text.

(** The payload as [handleThirdPartyRoomImageMessage] rewrites it in place
    before use: the sender name defaults to the raw sender id, then both ids
    are encoded. *)
Definition image_payload_encoded (p : ThirdPartyImageMessagePayload)
  : ThirdPartyImageMessagePayload :=
  let has_sender := truthy_opt (ti_senderId p) in
  {| ti_roomId := a2b (ti_roomId p);
     ti_senderId := if has_sender then option_map a2b (ti_senderId p) else ti_senderId p;
     ti_senderName :=
       if has_sender && negb (truthy_opt (ti_senderName p))
       then ti_senderId p else ti_senderName p;
     ti_avatarUrl := ti_avatarUrl p; ti_text := ti_text p; ti_url := ti_url p;
     ti_path := ti_path p; ti_buffer := ti_buffer p; ti_h := ti_h p; ti_w := ti_w p;
     ti_mimetype := ti_mimetype p |}.

(** [const prep = { text, senderId, senderName, avatarUrl, roomId }] *)
Definition image_prep (p : ThirdPartyImageMessagePayload) : PrepareMessageHandlerParams :=
  {| pm_text := ti_text p; pm_senderId := ti_senderId p;
     pm_senderName := ti_senderName p; pm_avatarUrl := ti_avatarUrl p;
     pm_roomId := ti_roomId p |}.

Definition handleThirdPartyRoomImageMessage (fuel : nat) (b : Base)
    (payload : ThirdPartyImageMessagePayload) : M unit :=
  let p := image_payload_encoded payload in
  handler <- prepareMessageHandler fuel b (image_prep p);;
  if ignore handler then ret tt
  else
    let tag := mh_tag handler in
    let room := matrixRoomId handler in
    let who := client handler in
    let uploaded (r : Uploaded) :=
      sendImageMessage who room (content_uri r)
        {| io_mimetype := ti_mimetype p; io_h := ti_h p; io_w := ti_w p;
           io_size := up_size r |}
        (tag (ti_text p)) in
    let failed (_ : JsError) :=
      sendMessage who room
        {| body := tag (url_or_path_or_text (ti_url p) (ti_path p) (ti_text p));
           formatted_body := None; format := None; msgtype := lit "m.text" |} in
    if truthy_opt (ti_url p) then
      detached
        (then2 (bt <- download_getBufferAndType (default [] (ti_url p));;
                upload who (ti_text p) (ti_mimetype p) (Some (bt_buffer bt))
                  (Some (or_else (ti_mimetype p) (Some (bt_type bt)))))
               uploaded failed)
    else if truthy_opt (ti_path p) then
      (* [promise] is the promise of the read followed by the upload of
         [payload.buffer]; calling it throws. *)
      detached (fs_readFile (default [] (ti_path p));;
                upload who (ti_text p) (ti_mimetype p) (ti_buffer p) None);;
      reject not_a_function
    else
      match ti_buffer p with
      | Some _ =>
        detached (then2 (upload who (ti_text p) (ti_mimetype p) (ti_buffer p) None)
                        uploaded failed)
      | None =>
        (* [promise] is a rejected promise; calling it throws. *)
        reject not_a_function
      end.

(** The payload as [handleThirdPartyRoomMessage] rewrites it in place: the
    sender id is encoded first, and the sender name defaults to the encoded
    id. *)
Definition text_payload_encoded (p : ThirdPartyMessagePayload) : ThirdPartyMessagePayload :=
  let has_sender := truthy_opt (tm_senderId p) in
  let senderId := if has_sender then option_map a2b (tm_senderId p) else tm_senderId p in
  {| tm_roomId := a2b (tm_roomId p);
     tm_senderId := senderId;
     tm_senderName :=
       if has_sender && negb (truthy_opt (tm_senderName p))
       then senderId else tm_senderName p;
     tm_avatarUrl := tm_avatarUrl p; tm_text := tm_text p; tm_html := tm_html p |}.

Definition text_prep (p : ThirdPartyMessagePayload) : PrepareMessageHandlerParams :=
  {| pm_text := tm_text p; pm_senderId := tm_senderId p;
     pm_senderName := tm_senderName p; pm_avatarUrl := tm_avatarUrl p;
     pm_roomId := tm_roomId p |}.

Definition handleThirdPartyRoomMessage (fuel : nat) (b : Base)
    (payload : ThirdPartyMessagePayload) : M unit :=
  let p := text_payload_encoded payload in
  catch
    (handler <- prepareMessageHandler fuel b (text_prep p);;
     if ignore handler then ret tt
     else if truthy_opt (tm_html p) then
       sendMessage (client handler) (matrixRoomId handler)
         {| body := mh_tag handler (tm_text p);
            formatted_body := tm_html p;
            format := Some (lit "org.matrix.custom.html");
            msgtype := lit "m.text" |}
     else
       sendMessage (client handler) (matrixRoomId handler)
         {| body := mh_tag handler (tm_text p); formatted_body := None;
            format := None; msgtype := lit "m.text" |})
    (fun err =>
       detached (sendStatusMsg fuel b {| fixedWidthOutput := None;
                                         roomAliasLocalPart := None |}
                   [VError err; VTextPayload p])).

Definition status_notice : jsstring := lit "Commands are currently ignored here".

Definition handleMatrixMessageEvent (fuel : nat) (b : Base) (data : EventData) : M unit :=
  if negb (str_eqb (p_userId (puppet b)) (sender data))
     || isTaggedMatrixMessage b (ev_body data)
  then ret tt
  else
    thirdPartyRoomId <- getThirdPartyRoomIdFromMatrixRoomId b (room_id data);;
    let isStatusRoom := bool_decide (thirdPartyRoomId = Some (lit "status_room")) in
    let report (m : M unit) : M unit :=
      catch m
        (fun err =>
           detached (sendStatusMsg fuel b {| fixedWidthOutput := None;
                                             roomAliasLocalPart := None |}
                       [VError err; VEvent data])) in
    if negb (truthy_opt thirdPartyRoomId) then
      report (reject (MkError (lit "could not determine third party room id!")))
    else if isStatusRoom then
      let msg := tagMatrixMessage b status_notice in
      report (sendStatusMsg fuel b {| fixedWidthOutput := Some false;
                                      roomAliasLocalPart := None |} [VString msg];;
              ret tt)
    else
      let room := b2a (default [] thirdPartyRoomId) in
      let msg := tagMatrixMessage b (ev_body data) in
      if str_eqb (ev_msgtype data) (lit "m.text") then
        bc <- ask (fun w _ =>
                     if has_handleMatrixUserBangCommand (adapter b)
                     then w_parseBangCommand w (ev_body data) else None);;
        match bc with
        | Some bc => adapter_handleMatrixUserBangCommand bc data
        | None => report (adapter_sendMessage room msg)
        end
      else if str_eqb (ev_msgtype data) (lit "m.image") then
        url <- ask (fun w _ => w_mxcUrlToHttp w (ev_url data));;
        match ev_info data with
        | None => reject (MkError (lit "Cannot read property 'mimetype' of undefined"))
        | Some info =>
          report (adapter_sendImageMessage room
                    {| im_url := url; im_text := tagMatrixMessage b (ev_body data);
                       im_mimetype := ei_mimetype info; im_width := ei_w info;
                       im_height := ei_h info; im_size := ei_size info |})
        end
      else
        report (reject (MkError (lit "dont know how to handle this msgtype "
                                   ++ ev_msgtype data))).

Definition handleMatrixEvent (fuel : nat) (b : Base) (data : EventData) : M unit :=
  if str_eqb (ev_type data) (lit "m.room.message")
  then handleMatrixMessageEvent fuel b data
  else ret tt.

(** [Base.sendReadReceipt] *)
Definition sendReadReceipt (roomId : jsstring) : M unit :=
  rooms <- get_rooms;;
  if js_in map_prototype_names roomId rooms then
    match js_get roomId rooms with
    | Some id =>
      call (AdapterSendReadReceipt (Some (b2a id)))
           (fun w l => w_sendReadReceipt w l (b2a id))
    | None => reject (MkError (lit "argument must be a string"))
    end
  else ret tt.

(* ------------------------------------------------------------------ *)
(** ** [class Puppet]: the read-receipt handler *)
(* ------------------------------------------------------------------ *)

Module Puppet.

(** The adapter as the receipt handler sees it: whether it has a
    [sendReadReceipt] member. *)
Record Adapter := {
  has_sendReadReceipt : bool
}.

(** The fields the handler reads; [None] stands for [null]. *)
Record t := {
  id : option jsstring;
  thirdPartyRooms : gmap jsstring jsstring;
  adapter : option Adapter
}.

(** The constructor. *)
Definition new : t := {| id := None; thirdPartyRooms := ∅; adapter := None |}.

(** [startClient] sets [this.id = config.puppet.id]. *)
Definition with_id (userId : jsstring) (p : t) : t :=
  {| id := Some userId; thirdPartyRooms := thirdPartyRooms p; adapter := adapter p |}.

Definition saveThirdPartyRoomId (matrixRoomId thirdPartyRoomId : jsstring) (p : t) : t :=
  {| id := id p;
     thirdPartyRooms := js_set matrixRoomId thirdPartyRoomId (thirdPartyRooms p);
     adapter := adapter p |}.

Definition setAdapter (a : Adapter) (p : t) : t :=
  {| id := id p; thirdPartyRooms := thirdPartyRooms p; adapter := Some a |}.

(** The methods of the class that write a field the receipt listener
    reads. *)
Inductive Method :=
  | StartClient (userId : jsstring)
  | SaveThirdPartyRoomId (matrixRoomId thirdPartyRoomId : jsstring)
  | SetAdapter (a : Adapter).

Definition invoke (p : t) (m : Method) : t :=
  match m with
  | StartClient userId => with_id userId p
  | SaveThirdPartyRoomId matrixRoomId thirdPartyRoomId =>
    saveThirdPartyRoomId matrixRoomId thirdPartyRoomId p
  | SetAdapter a => setAdapter a p
  end.

(** The session after these method calls on a new one, oldest first. *)
Definition after (calls : list Method) : t := fold_left invoke calls new.

Definition is_save (m : Method) : bool :=
  match m with
  | SaveThirdPartyRoomId _ _ => true
  | _ => false
  end.

(** The content of a receipt event: for each event id, the user ids under
    its [m.read] member, [None] when it has no such member. *)
Abbreviation ReceiptContent := (list (jsstring * option (list jsstring))).

(** The two nested [for ... in] loops: some user id under some [m.read]
    is [this.id]. *)
Definition read_by (p : t) (content : ReceiptContent) : bool :=
  existsb
    (fun entry =>
       match snd entry with
       | Some users => existsb (fun userId => bool_decide (Some userId = id p)) users
       | None => false
       end)
    content.

(** The [Room.receipt] listener: the calls it makes on the adapter. *)
Definition on_Room_receipt (p : t) (roomId : jsstring) (content : ReceiptContent)
  : list Call :=
  match adapter p with
  | Some a =>
    if has_sendReadReceipt a then
      if js_in object_prototype_names roomId (thirdPartyRooms p) then
        if read_by p content
        then [AdapterSendReadReceipt (js_get roomId (thirdPartyRooms p))]
        else []
      else []
    else []
  | None => []
  end.

End Puppet.

(* ------------------------------------------------------------------ *)
(** ** Observing a run *)
(* ------------------------------------------------------------------ *)

(** The calls a computation adds to the log when started in state [s]. *)
Definition calls_of {A} (m : M A) (w : World) (s : St) : list Call :=
  drop (length (log s)) (log (snd (m w s))).

(** A message sent to the home network. *)
Definition home_send (c : Call) : bool :=
  match c with
  | SendMessage _ _ _ | SendImageMessage _ _ _ _ _ => true
  | _ => false
  end.

(** A call that hands an event to the third-party adapter. *)
Definition adapter_relay (c : Call) : bool :=
  match c with
  | AdapterSendMessage _ _ | AdapterSendImageMessage _ _ | AdapterBangCommand _ _ => true
  | _ => false
  end.

(** Started in state [s], [m] adds to the log only calls that satisfy [P]. *)
Definition emits_from {A} (P : Call -> Prop) (w : World) (m : M A) (s : St) : Prop :=
  exists extra, log (snd (m w s)) = log s ++ extra /\ Forall P extra.

(** [m] only ever adds calls that satisfy [P]. *)
Definition emits {A} (P : Call -> Prop) (w : World) (m : M A) : Prop :=
  forall s, emits_from P w m s.

(** The started promise [p] only ever makes calls that satisfy [P]. *)
Definition chain_emits {A} (P : Call -> Prop) (w : World) (p : Chain A) : Prop :=
  P (first_call p) /\ forall x, emits P w (and_then p x).

(** Calls that neither send a message to the home network nor hand an event
    to the adapter. *)
Definition infrastructure (c : Call) : bool := negb (home_send c) && negb (adapter_relay c).

(** The body of every message sent to the home network is an output of
    [tag]. *)
Definition tagged_by (tag : jsstring -> jsstring) (c : Call) : Prop :=
  match c with
  | SendMessage _ _ content => exists text, body content = tag text
  | SendImageMessage _ _ _ _ caption => exists text, caption = tag text
  | _ => True
  end.

(** The body of a message sent to the home network ends with the
    deduplication tag of [b]. *)
Definition sent_tagged (b : Base) (c : Call) : Prop :=
  match c with
  | SendMessage _ _ content => exists text, body content = text ++ deduplicationTag b
  | SendImageMessage _ _ _ _ caption => exists text, caption = text ++ deduplicationTag b
  | _ => True
  end.

(** The body of a message sent to the home network passes the tag test. *)
Definition sent_tests_tagged (b : Base) (c : Call) : bool :=
  match c with
  | SendMessage _ _ content => isTaggedMatrixMessage b (body content)
  | SendImageMessage _ _ _ _ caption => isTaggedMatrixMessage b caption
  | _ => true
  end.









Definition st0 : St := {| log := []; thirdPartyRooms := ∅ |}.

(* ------------------------------------------------------------------ *)
(** ** A concrete deployment, for running the model *)
(* ------------------------------------------------------------------ *)

Module Deployment.

Definition puppetEnv : PuppetEnv :=
  {| p_userId := lit "@me:hs";
     p_credentials_userId := lit "@me:hs";
     makeRoomAlias := fun localpart => lit "#" ++ localpart ++ lit ":hs";
     makeUserAlias := fun localpart => lit "@" ++ localpart ++ lit ":hs" |}.

Definition adapterEnv : AdapterEnv :=
  {| serviceName := lit "Net"; serviceIconPath := None;
     has_handleMatrixUserBangCommand := true |}.

(** The bridge with the default deduplication tag and pattern. *)
Definition base : Base :=
  {| identityPair_id := lit "me"; network := lit "net";
     puppet := puppetEnv; adapter := adapterEnv;
     deduplicationTag := defaultDeduplicationTag;
     deduplicationTagPattern := defaultDeduplicationTagPattern;
     deduplicationTagRegex := [RegExp.ILit 32; RegExp.ILit 0xFEFF; RegExp.IEnd] |}.

(** Modelled from the spec: [autoTagger] of utils is not under src/; the
    relay pipeline is to "apply the Tagger to outgoing text" (4.4, step 3),
    and the Tagger "appends a fixed marker" (4.5). *)
Definition autoTagger (_ : option jsstring) (b : Base) (text : jsstring) : jsstring :=
  tagMatrixMessage b text.

Definition png : BufferAndType := {| bt_buffer := [137; 80; 78; 71]; bt_type := lit "image/png" |}.

(** A world in which every call succeeds, except as the four arguments
    say: the alias lookup, the puppet's join, the adapter's room data and
    the ghost's profile. *)
Definition world
    (lookup : list Call -> jsstring -> Outcome jsstring)
    (join : list Call -> jsstring -> Outcome unit)
    (roomData : Outcome RoomData)
    (profile : Outcome (option jsstring)) : World :=
  {| w_getRoomIdForAlias := lookup;
     w_createRoom := fun _ _ => Resolved (lit "!new:hs");
     w_joinRoom := join;
     w_deleteAlias := fun _ _ => Resolved tt;
     w_setPowerLevel := fun _ _ _ _ => Resolved tt;
     w_intentJoin := fun _ _ _ => Resolved tt;
     w_intentLeave := fun _ _ => Resolved tt;
     w_setDisplayName := fun _ _ _ => Resolved tt;
     w_setAvatarUrl := fun _ _ _ => Resolved tt;
     w_setRoomAvatar := fun _ _ _ => Resolved tt;
     w_getProfileInfo := fun _ _ _ => profile;
     w_uploadContent := fun _ _ _ _ =>
       Resolved {| content_uri := lit "mxc://hs/avatar"; up_size := 4 |};
     w_sendMessage := fun _ _ _ _ => Resolved tt;
     w_sendImageMessage := fun _ _ _ _ _ _ => Resolved tt;
     w_getRemoteUser := fun _ id =>
       Resolved (Some {| ru_id := id;
                         ru_data := {| ud_name := Some (lit "Ann");
                                       ud_avatarUrl := None |} |});
     w_setRemoteUser := fun _ _ => Resolved tt;
     w_getUserData := fun _ _ =>
       Resolved {| ud_name := Some (lit "Ann"); ud_avatarUrl := None |};
     w_getRoomData := fun _ _ => roomData;
     w_adapterSendMessage := fun _ _ _ => Resolved tt;
     w_adapterSendImageMessage := fun _ _ _ => Resolved tt;
     w_bangCommand := fun _ _ _ => Resolved tt;
     w_sendReadReceipt := fun _ _ => Resolved tt;
     w_download := fun _ _ => Resolved png;
     w_localdisk := fun _ _ => Resolved png;
     w_readFile := fun _ _ => Resolved (bt_buffer png);
     w_upload := fun _ _ _ _ _ _ =>
       Resolved {| content_uri := lit "mxc://hs/image"; up_size := 4 |};
     w_botIntentIsNull := fun _ => false;
     w_roomAliases := fun _ room =>
       if str_eqb room (lit "!status:hs")
       then Some [lit "#net_puppet_me_status_room:hs"]
       else Some [lit "#net_puppet_me_cm9vbTE=:hs"];
     w_mxcUrlToHttp := fun url => url;
     w_parseBangCommand := fun _ => None;
     w_inspect := fun _ => lit "[object]";
     w_entities_encode := fun text => text;
     w_basename := fun path => path;
     w_autoTagger := autoTagger;
     w_RegExp := fun _ => None |}.

Definition found (room : string) : list Call -> jsstring -> Outcome jsstring :=
  fun _ _ => Resolved (lit room).

Definition not_found : list Call -> jsstring -> Outcome jsstring :=
  fun _ _ => Rejected (MkError (lit "Room alias not found"))%string.

Definition joins : list Call -> jsstring -> Outcome unit :=
  fun _ _ => Resolved tt.



Definition room1 : RoomData :=
  {| rd_name := Some (lit "Room one"); rd_topic := None; rd_avatarUrl := None |}.

(** Everything succeeds; every alias resolves to the given room. *)
Definition calm (room : string) : World :=
  world (found room) joins (Resolved room1) (Resolved None).

(** A [m.room.message] event authored by the puppet in the status room. *)
Definition status_event : EventData :=
  {| ev_type := lit "m.room.message"; room_id := lit "!status:hs";
     sender := lit "@me:hs"; ev_body := lit "!help"; ev_msgtype := lit "m.text";
     ev_url := []; ev_info := None |}.

(** A third-party text message from contact [ann] in room [room1]. *)
Definition text_payload : ThirdPartyMessagePayload :=
  {| tm_roomId := lit "room1"; tm_senderId := Some (lit "ann");
     tm_senderName := Some (lit "Ann"); tm_avatarUrl := None;
     tm_text := lit "hello"; tm_html := None |}.

(** The operator's own message, seen again on the third-party side with the
    tag on it. *)
Definition echoed_payload : ThirdPartyMessagePayload :=
  {| tm_roomId := lit "room1"; tm_senderId := None; tm_senderName := None;
     tm_avatarUrl := None; tm_text := lit "hello" ++ defaultDeduplicationTag;
     tm_html := None |}.

(** The bridge's own relayed message, echoed back by the home network. *)
Definition echoed_event : EventData :=
  {| ev_type := lit "m.room.message"; room_id := lit "!r1:hs";
     sender := lit "@me:hs"; ev_body := lit "hello" ++ defaultDeduplicationTag;
     ev_msgtype := lit "m.text"; ev_url := []; ev_info := None |}.

Definition image_payload (url path : option jsstring) (buffer : option (list Z))
    (senderId : option jsstring) (text : jsstring) : ThirdPartyImageMessagePayload :=
  {| ti_roomId := lit "room1"; ti_senderId := senderId; ti_senderName := None;
     ti_avatarUrl := None; ti_text := text; ti_url := url; ti_path := path;
     ti_buffer := buffer; ti_h := Some 10; ti_w := Some 20;
     ti_mimetype := Some (lit "image/png") |}.

(** The operator's own picture, seen again with the tag on its caption. *)
Definition echoed_image : ThirdPartyImageMessagePayload :=
  image_payload (Some (lit "http://cdn/cat.png")) None None None
    (lit "cat" ++ defaultDeduplicationTag).

(** A picture given by a local path only. *)
Definition image_by_path : ThirdPartyImageMessagePayload :=
  image_payload None (Some (lit "/tmp/cat.png")) None None (lit "cat").

(** The homeserver does not know the alias and the adapter fails to give
    the room data. *)
Definition adapter_down : World :=
  world not_found joins (Rejected (MkError (lit "adapter down"))) (Resolved None).

(** A puppet session that knows room [!r1:hs], before an adapter is
    attached and after. *)
Definition detached : Puppet.t :=
  Puppet.saveThirdPartyRoomId (lit "!r1:hs") (lit "room1")
    (Puppet.with_id (lit "@me:hs") Puppet.new).

Definition attached : Puppet.t :=
  Puppet.setAdapter {| Puppet.has_sendReadReceipt := true |} detached.

(** A started puppet session with an adapter attached, on which
    [saveThirdPartyRoomId] was never called. *)
Definition unsaved_calls : list Puppet.Method :=
  [Puppet.StartClient (lit "@me:hs");
   Puppet.SetAdapter {| Puppet.has_sendReadReceipt := true |}].

Definition unsaved : Puppet.t := Puppet.after unsaved_calls.

(** A receipt event in which the operator's account has read one event. *)
Definition own_receipt : Puppet.ReceiptContent :=
  [(lit "$event1", Some [lit "@ann:hs"; lit "@me:hs"])].

End Deployment.

(* ------------------------------------------------------------------ *)
(** ** Identifiers and aliases *)
(* ------------------------------------------------------------------ *)

(** A byte. *)
Definition byte_ok (b : Z) : bool := (0 <=? b) && (b <? 256).

(** A string of UTF-16 code units. *)
Definition code_units (s : jsstring) : Prop := Forall (fun c => 0 <= c < 65536) s.

(** The character class [[a-zA-Z0-9+\/=_]] of the alias pattern in
    [getThirdPartyRoomIdFromMatrixRoomId]. *)
Definition alias_class : RegExp.cset :=
  RegExp.CClass false [(97, 122); (65, 90); (48, 57); (43, 43); (47, 47); (61, 61); (95, 95)].

Definition in_alias_class (c : Z) : bool := RegExp.mem alias_class c.

(** A character that stands for itself in a pattern and does not end the
    local part of an alias: not one of [^$().[\*+?{}|], not [:]. *)
Definition alias_safe (c : Z) : bool :=
  negb (existsb (Z.eqb c) [94; 36; 40; 41; 46; 91; 92; 42; 43; 63; 123; 125; 124; 58]).

(** What every room alias of a bridge starts with. *)
Definition alias_prefix (b : Base) : jsstring :=
  lit "#" ++ network b ++ lit "_puppet_" ++ identityPair_id b ++ lit "_".

(** The pattern [getThirdPartyRoomIdFromMatrixRoomId] builds, once compiled,
    when the network name and the identity id are made of such characters. *)
Definition alias_regex (b : Base) : RegExp.regex :=
  RegExp.IStart
  :: List.map RegExp.ILit
       (lit "#" ++ network b ++ lit "_puppet_" ++ identityPair_id b ++ lit "_")
  ++ [RegExp.IOpen; RegExp.IChar RegExp.Plus alias_class; RegExp.IClose; RegExp.IEnd].

(* ------------------------------------------------------------------ *)
(** ** More situations of the deployment *)
(* ------------------------------------------------------------------ *)

Module Scenes.

Definition with_parseBangCommand (f : jsstring -> option BangCommand) (w : World) : World :=
  {| w_getRoomIdForAlias := w_getRoomIdForAlias w; w_createRoom := w_createRoom w;
     w_joinRoom := w_joinRoom w; w_deleteAlias := w_deleteAlias w;
     w_setPowerLevel := w_setPowerLevel w; w_intentJoin := w_intentJoin w;
     w_intentLeave := w_intentLeave w; w_setDisplayName := w_setDisplayName w;
     w_setAvatarUrl := w_setAvatarUrl w; w_setRoomAvatar := w_setRoomAvatar w;
     w_getProfileInfo := w_getProfileInfo w; w_uploadContent := w_uploadContent w;
     w_sendMessage := w_sendMessage w; w_sendImageMessage := w_sendImageMessage w;
     w_getRemoteUser := w_getRemoteUser w; w_setRemoteUser := w_setRemoteUser w;
     w_getUserData := w_getUserData w; w_getRoomData := w_getRoomData w;
     w_adapterSendMessage := w_adapterSendMessage w;
     w_adapterSendImageMessage := w_adapterSendImageMessage w;
     w_bangCommand := w_bangCommand w; w_sendReadReceipt := w_sendReadReceipt w;
     w_download := w_download w; w_localdisk := w_localdisk w;
     w_readFile := w_readFile w; w_upload := w_upload w;
     w_botIntentIsNull := w_botIntentIsNull w; w_roomAliases := w_roomAliases w;
     w_mxcUrlToHttp := w_mxcUrlToHttp w; w_parseBangCommand := f;
     w_inspect := w_inspect w; w_entities_encode := w_entities_encode w;
     w_basename := w_basename w; w_autoTagger := w_autoTagger w;
     w_RegExp := w_RegExp w |}.

Definition with_download (f : list Call -> jsstring -> Outcome BufferAndType) (w : World) : World :=
  {| w_getRoomIdForAlias := w_getRoomIdForAlias w; w_createRoom := w_createRoom w;
     w_joinRoom := w_joinRoom w; w_deleteAlias := w_deleteAlias w;
     w_setPowerLevel := w_setPowerLevel w; w_intentJoin := w_intentJoin w;
     w_intentLeave := w_intentLeave w; w_setDisplayName := w_setDisplayName w;
     w_setAvatarUrl := w_setAvatarUrl w; w_setRoomAvatar := w_setRoomAvatar w;
     w_getProfileInfo := w_getProfileInfo w; w_uploadContent := w_uploadContent w;
     w_sendMessage := w_sendMessage w; w_sendImageMessage := w_sendImageMessage w;
     w_getRemoteUser := w_getRemoteUser w; w_setRemoteUser := w_setRemoteUser w;
     w_getUserData := w_getUserData w; w_getRoomData := w_getRoomData w;
     w_adapterSendMessage := w_adapterSendMessage w;
     w_adapterSendImageMessage := w_adapterSendImageMessage w;
     w_bangCommand := w_bangCommand w; w_sendReadReceipt := w_sendReadReceipt w;
     w_download := f; w_localdisk := w_localdisk w; w_readFile := w_readFile w;
     w_upload := w_upload w; w_botIntentIsNull := w_botIntentIsNull w;
     w_roomAliases := w_roomAliases w; w_mxcUrlToHttp := w_mxcUrlToHttp w;
     w_parseBangCommand := w_parseBangCommand w; w_inspect := w_inspect w;
     w_entities_encode := w_entities_encode w; w_basename := w_basename w;
     w_autoTagger := w_autoTagger w;
     w_RegExp := w_RegExp w |}.

Definition with_getRemoteUser (f : list Call -> jsstring -> Outcome (option RemoteUser)) (w : World) : World :=
  {| w_getRoomIdForAlias := w_getRoomIdForAlias w; w_createRoom := w_createRoom w;
     w_joinRoom := w_joinRoom w; w_deleteAlias := w_deleteAlias w;
     w_setPowerLevel := w_setPowerLevel w; w_intentJoin := w_intentJoin w;
     w_intentLeave := w_intentLeave w; w_setDisplayName := w_setDisplayName w;
     w_setAvatarUrl := w_setAvatarUrl w; w_setRoomAvatar := w_setRoomAvatar w;
     w_getProfileInfo := w_getProfileInfo w; w_uploadContent := w_uploadContent w;
     w_sendMessage := w_sendMessage w; w_sendImageMessage := w_sendImageMessage w;
     w_getRemoteUser := f; w_setRemoteUser := w_setRemoteUser w;
     w_getUserData := w_getUserData w; w_getRoomData := w_getRoomData w;
     w_adapterSendMessage := w_adapterSendMessage w;
     w_adapterSendImageMessage := w_adapterSendImageMessage w;
     w_bangCommand := w_bangCommand w; w_sendReadReceipt := w_sendReadReceipt w;
     w_download := w_download w; w_localdisk := w_localdisk w;
     w_readFile := w_readFile w; w_upload := w_upload w;
     w_botIntentIsNull := w_botIntentIsNull w; w_roomAliases := w_roomAliases w;
     w_mxcUrlToHttp := w_mxcUrlToHttp w; w_parseBangCommand := w_parseBangCommand w;
     w_inspect := w_inspect w; w_entities_encode := w_entities_encode w;
     w_basename := w_basename w; w_autoTagger := w_autoTagger w;
     w_RegExp := w_RegExp w |}.

Definition with_upload (f : list Call -> Actor -> jsstring -> option jsstring -> option (list Z) -> option (option jsstring) -> Outcome Uploaded) (w : World) : World :=
  {| w_getRoomIdForAlias := w_getRoomIdForAlias w; w_createRoom := w_createRoom w;
     w_joinRoom := w_joinRoom w; w_deleteAlias := w_deleteAlias w;
     w_setPowerLevel := w_setPowerLevel w; w_intentJoin := w_intentJoin w;
     w_intentLeave := w_intentLeave w; w_setDisplayName := w_setDisplayName w;
     w_setAvatarUrl := w_setAvatarUrl w; w_setRoomAvatar := w_setRoomAvatar w;
     w_getProfileInfo := w_getProfileInfo w; w_uploadContent := w_uploadContent w;
     w_sendMessage := w_sendMessage w; w_sendImageMessage := w_sendImageMessage w;
     w_getRemoteUser := w_getRemoteUser w; w_setRemoteUser := w_setRemoteUser w;
     w_getUserData := w_getUserData w; w_getRoomData := w_getRoomData w;
     w_adapterSendMessage := w_adapterSendMessage w;
     w_adapterSendImageMessage := w_adapterSendImageMessage w;
     w_bangCommand := w_bangCommand w; w_sendReadReceipt := w_sendReadReceipt w;
     w_download := w_download w; w_localdisk := w_localdisk w;
     w_readFile := w_readFile w; w_upload := f;
     w_botIntentIsNull := w_botIntentIsNull w; w_roomAliases := w_roomAliases w;
     w_mxcUrlToHttp := w_mxcUrlToHttp w; w_parseBangCommand := w_parseBangCommand w;
     w_inspect := w_inspect w; w_entities_encode := w_entities_encode w;
     w_basename := w_basename w; w_autoTagger := w_autoTagger w;
     w_RegExp := w_RegExp w |}.


Definition with_setPowerLevel (f : list Call -> jsstring -> jsstring -> Z -> Outcome unit) (w : World) : World :=
  {| w_getRoomIdForAlias := w_getRoomIdForAlias w; w_createRoom := w_createRoom w;
     w_joinRoom := w_joinRoom w; w_deleteAlias := w_deleteAlias w;
     w_setPowerLevel := f; w_intentJoin := w_intentJoin w;
     w_intentLeave := w_intentLeave w; w_setDisplayName := w_setDisplayName w;
     w_setAvatarUrl := w_setAvatarUrl w; w_setRoomAvatar := w_setRoomAvatar w;
     w_getProfileInfo := w_getProfileInfo w; w_uploadContent := w_uploadContent w;
     w_sendMessage := w_sendMessage w; w_sendImageMessage := w_sendImageMessage w;
     w_getRemoteUser := w_getRemoteUser w; w_setRemoteUser := w_setRemoteUser w;
     w_getUserData := w_getUserData w; w_getRoomData := w_getRoomData w;
     w_adapterSendMessage := w_adapterSendMessage w;
     w_adapterSendImageMessage := w_adapterSendImageMessage w;
     w_bangCommand := w_bangCommand w; w_sendReadReceipt := w_sendReadReceipt w;
     w_download := w_download w; w_localdisk := w_localdisk w;
     w_readFile := w_readFile w; w_upload := w_upload w;
     w_botIntentIsNull := w_botIntentIsNull w; w_roomAliases := w_roomAliases w;
     w_mxcUrlToHttp := w_mxcUrlToHttp w; w_parseBangCommand := w_parseBangCommand w;
     w_inspect := w_inspect w; w_entities_encode := w_entities_encode w;
     w_basename := w_basename w; w_autoTagger := w_autoTagger w;
     w_RegExp := w_RegExp w |}.

Definition with_roomAliases (f : list Call -> jsstring -> option (list jsstring)) (w : World) : World :=
  {| w_getRoomIdForAlias := w_getRoomIdForAlias w; w_createRoom := w_createRoom w;
     w_joinRoom := w_joinRoom w; w_deleteAlias := w_deleteAlias w;
     w_setPowerLevel := w_setPowerLevel w; w_intentJoin := w_intentJoin w;
     w_intentLeave := w_intentLeave w; w_setDisplayName := w_setDisplayName w;
     w_setAvatarUrl := w_setAvatarUrl w; w_setRoomAvatar := w_setRoomAvatar w;
     w_getProfileInfo := w_getProfileInfo w; w_uploadContent := w_uploadContent w;
     w_sendMessage := w_sendMessage w; w_sendImageMessage := w_sendImageMessage w;
     w_getRemoteUser := w_getRemoteUser w; w_setRemoteUser := w_setRemoteUser w;
     w_getUserData := w_getUserData w; w_getRoomData := w_getRoomData w;
     w_adapterSendMessage := w_adapterSendMessage w;
     w_adapterSendImageMessage := w_adapterSendImageMessage w;
     w_bangCommand := w_bangCommand w; w_sendReadReceipt := w_sendReadReceipt w;
     w_download := w_download w; w_localdisk := w_localdisk w;
     w_readFile := w_readFile w; w_upload := w_upload w;
     w_botIntentIsNull := w_botIntentIsNull w; w_roomAliases := f;
     w_mxcUrlToHttp := w_mxcUrlToHttp w; w_parseBangCommand := w_parseBangCommand w;
     w_inspect := w_inspect w; w_entities_encode := w_entities_encode w;
     w_basename := w_basename w; w_autoTagger := w_autoTagger w;
     w_RegExp := w_RegExp w |}.


(** A message of the operator in the room of third-party room [room1]. *)
Definition text_event : EventData :=
  {| ev_type := lit "m.room.message"; room_id := lit "!r1:hs";
     sender := lit "@me:hs"; ev_body := lit "see you"; ev_msgtype := lit "m.text";
     ev_url := []; ev_info := None |}.

(** A picture of the operator in that room. *)
Definition image_event : EventData :=
  {| ev_type := lit "m.room.message"; room_id := lit "!r1:hs";
     sender := lit "@me:hs"; ev_body := lit "cat.png"; ev_msgtype := lit "m.image";
     ev_url := lit "mxc://hs/cat";
     ev_info := Some {| ei_mimetype := Some (lit "image/png"); ei_w := Some 20;
                        ei_h := Some 10; ei_size := Some 4 |} |}.

(** A message kind the bridge does not relay. *)
Definition location_event : EventData :=
  {| ev_type := lit "m.room.message"; room_id := lit "!r1:hs";
     sender := lit "@me:hs"; ev_body := lit "here"; ev_msgtype := lit "m.location";
     ev_url := []; ev_info := None |}.

(** A message somebody else wrote in that room. *)
Definition foreign_event : EventData :=
  {| ev_type := lit "m.room.message"; room_id := lit "!r1:hs";
     sender := lit "@ann:hs"; ev_body := lit "hello"; ev_msgtype := lit "m.text";
     ev_url := []; ev_info := None |}.

Definition help : BangCommand := {| bc_command := lit "help"; bc_body := [] |}.

(** The adapter's command grammar recognises every body. *)
(** The bridge of a service that declares an icon. *)
Definition branded : Base :=
  {| identityPair_id := lit "me"; network := lit "net";
     puppet := Deployment.puppetEnv;
     adapter := {| serviceName := lit "Net"; serviceIconPath := Some (lit "/srv/net.png");
                   has_handleMatrixUserBangCommand := false |};
     deduplicationTag := defaultDeduplicationTag;
     deduplicationTagPattern := defaultDeduplicationTagPattern;
     deduplicationTagRegex := [RegExp.ILit 32; RegExp.ILit 0xFEFF; RegExp.IEnd] |}.

(** No alias is known yet; everything else succeeds. *)
Definition fresh : World :=
  Deployment.world Deployment.not_found Deployment.joins
    (Resolved Deployment.room1) (Resolved None).

Definition commands : World :=
  with_parseBangCommand (fun _ => Some help) (Deployment.calm "!r1:hs").

(** A picture of the operator's own, given by URL, by bytes, and by URL
    from contact [ann] with an avatar. *)
Definition cat_by_url : ThirdPartyImageMessagePayload :=
  Deployment.image_payload (Some (lit "http://cdn/cat.png")) None None None (lit "cat").

Definition cat_by_bytes : ThirdPartyImageMessagePayload :=
  Deployment.image_payload None None (Some [137; 80; 78; 71]) None (lit "cat").

(** The handler prepared for the operator's own message in room [!r1:hs]. *)
Definition own_handler : MessageHandler :=
  {| mh_tag := Deployment.autoTagger None Deployment.base;
     matrixRoomId := lit "!r1:hs"; client := PuppetClient; ignore := false |}.

(** A text and a picture of contact [ann], who has an avatar. *)
Definition ann_text : ThirdPartyMessagePayload :=
  {| tm_roomId := lit "room1"; tm_senderId := Some (lit "ann"); tm_senderName := None;
     tm_avatarUrl := Some (lit "http://cdn/ann.png"); tm_text := lit "hello";
     tm_html := None |}.

Definition ann_picture : ThirdPartyImageMessagePayload :=
  {| ti_roomId := lit "room1"; ti_senderId := Some (lit "ann"); ti_senderName := None;
     ti_avatarUrl := Some (lit "http://cdn/ann.png"); ti_text := lit "cat";
     ti_url := Some (lit "http://cdn/cat.png"); ti_path := None; ti_buffer := None;
     ti_h := Some 10; ti_w := Some 20; ti_mimetype := Some (lit "image/png") |}.

(** Everything succeeds except downloads. *)
Definition offline : World :=
  with_download (fun _ _ => Rejected (MkError (lit "404"))) (Deployment.calm "!r1:hs").

(** Everything succeeds, and the user store knows nobody and keeps
    nothing. *)
Definition strangers : World :=
  with_getRemoteUser (fun _ _ => Resolved None) (Deployment.calm "!r1:hs").

(** A third-party room that has an avatar, in a homeserver that does not
    know its alias yet. *)
Definition pictured : RoomData :=
  {| rd_name := Some (lit "Room one"); rd_topic := None;
     rd_avatarUrl := Some (lit "http://cdn/room.png") |}.

Definition fresh_pictured : World :=
  Deployment.world Deployment.not_found Deployment.joins (Resolved pictured)
    (Resolved None).


(** A homeserver that keeps its alias directory.  The alias is bound to
    [!old:hs] at first; a deletion unbinds it, and a creation binds it to
    the room created, named after the number of rooms created before it.
    The first [n] joins are rejected with "No known servers". *)
Definition created (n : nat) : jsstring := lit "!new" ++ [48 + Z.of_nat n] ++ lit ":hs".




End Scenes.

(* ------------------------------------------------------------------ *)
(** ** Observing the room record *)
(* ------------------------------------------------------------------ *)

(** [m] never changes the [thirdPartyRooms] object. *)
Definition keeps_rooms {A} (w : World) (m : M A) : Prop :=
  forall s, thirdPartyRooms (snd (m w s)) = thirdPartyRooms s.

(** The options of the room created for a third-party room. *)
Definition room_creation (b : Base) (id : jsstring) (data : RoomData) : CreateRoomOpts :=
  {| createAsClient := true; cr_name := rd_name data; cr_topic := rd_topic data;
     room_alias_name := getRoomAliasLocalPartFromThirdPartyRoomId b id |}.

(** The options of the status room. *)
Definition status_room_creation (b : Base) : CreateRoomOpts :=
  {| createAsClient := false;
     cr_name := Some (serviceName (adapter b) ++ lit " Protocol");
     cr_topic := Some (serviceName (adapter b) ++ lit " Protocol Status Messages");
     room_alias_name := getRoomAliasLocalPartFromThirdPartyRoomId b (lit "status_room") |}.

(** A promise that settles. *)
Definition settles {A} (o : Outcome A) : Prop := o <> Never.

(* ------------------------------------------------------------------ *)
(** ** Observing the inbound relay *)
(* ------------------------------------------------------------------ *)

(** Started in state [s], the first call [m] makes is [c]. *)
Definition leads_from {A} (c : Call) (w : World) (m : M A) (s : St) : Prop :=
  exists rest, log (snd (m w s)) = log s ++ c :: rest.

(** A call that reads or writes the remote user store, or asks the adapter
    for user data. *)
Definition is_user_lookup (c : Call) : bool :=
  match c with
  | StoreGetRemoteUser _ | StoreSetRemoteUser _ | AdapterGetUserData _ => true
  | _ => false
  end.

Definition unasked (c : Call) : Prop := is_user_lookup c = false.

Definition any_call (_ : Call) : Prop := True.

(** The content of a relayed text message. *)
Definition relayed_text (body : jsstring) (html : option jsstring) : Content :=
  {| body := body;
     formatted_body := if truthy_opt html then html else None;
     format := if truthy_opt html then Some (lit "org.matrix.custom.html") else None;
     msgtype := lit "m.text" |}.

(** The text message sent in place of a picture that could not be fetched or
    uploaded. *)
Definition fallback_text (body : jsstring) : Content :=
  {| body := body; formatted_body := None; format := None; msgtype := lit "m.text" |}.

(* ================================================================== *)
(** * Properties *)
(* ================================================================== *)

(* ------------------------------------------------------------------ *)
(** ** The identifier codec *)
(* ------------------------------------------------------------------ *)

Section Codec.
Import Buffer.

Lemma is_asciib_spec s : is_asciib s = true <-> is_ascii s.
Proof.
  unfold is_asciib, is_ascii. rewrite forallb_forall, List.Forall_forall.
  split; intros H c Hc; specialize (H c Hc); lia.
Qed.

(** Induction over a byte sequence three bytes at a time, as the base64
    encoder consumes it. *)
Lemma triples_ind (P : list Z -> Prop) :
  P [] -> (forall a, P [a]) -> (forall a b, P [a; b]) ->
  (forall a b c rest, P rest -> P (a :: b :: c :: rest)) ->
  forall l, P l.
Proof.
  intros H0 H1 H2 H3.
  assert (Hall : forall l, P l /\ (forall a, P (a :: l)) /\ (forall a b, P (a :: b :: l))).
  { induction l as [|x l (IH0 & IH1 & IH2)]; [by auto|].
    repeat split; [apply IH1 | intros; apply IH2 | intros; by apply H3]. }
  intros l. apply Hall.
Qed.

Lemma in_byte_range a : 0 <= a < 256 -> In a byte_range.
Proof.
  intros Ha. unfold byte_range. apply in_map_iff. exists (Z.to_nat a).
  split; [lia | apply in_seq; lia].
Qed.

(** A boolean fact about one byte, or about two, holds for all of them as
    soon as it evaluates to [true] on each. *)
Lemma for_all_bytes (f : Z -> bool) :
  forallb f byte_range = true -> forall a, 0 <= a < 256 -> f a = true.
Proof.
  intros H a Ha. rewrite forallb_forall in H. by apply H, in_byte_range.
Qed.

Lemma for_all_byte_pairs (f : Z -> Z -> bool) :
  forallb (fun a => forallb (f a) byte_range) byte_range = true ->
  forall a b, 0 <= a < 256 -> 0 <= b < 256 -> f a b = true.
Proof.
  intros H a b Ha Hb.
  apply (for_all_bytes (f a)); [|assumption].
  by apply (for_all_bytes (fun a => forallb (f a) byte_range)).
Qed.

Lemma unbase64_b64_char v : sextet_ok v = true -> unbase64 (b64_char v) = Some v.
Proof.
  intros Hv.
  assert (Hr : 0 <= v < 256) by (unfold sextet_ok in Hv; lia).
  pose proof (for_all_bytes
                (fun v => implb (sextet_ok v)
                            match unbase64 (b64_char v) with
                            | Some u => u =? v
                            | None => false
                            end) eq_refl v Hr) as H.
  cbv beta in H. rewrite Hv in H. cbn [implb] in H.
  destruct (unbase64 (b64_char v)) as [u|]; [|discriminate].
  f_equal. lia.
Qed.

Lemma unbase64_pad : unbase64 pad = None.
Proof. reflexivity. Qed.

Lemma q0_ok a : 0 <= a < 256 -> sextet_ok (q0 a) = true.
Proof. apply (for_all_bytes (fun a => sextet_ok (q0 a))). by vm_compute. Qed.

Lemma q1_ok a b : 0 <= a < 256 -> 0 <= b < 256 -> sextet_ok (q1 a b) = true.
Proof. apply (for_all_byte_pairs (fun a b => sextet_ok (q1 a b))). by vm_compute. Qed.

Lemma q2_ok b c : 0 <= b < 256 -> 0 <= c < 256 -> sextet_ok (q2 b c) = true.
Proof. apply (for_all_byte_pairs (fun a b => sextet_ok (q2 a b))). by vm_compute. Qed.

Lemma q3_ok c : 0 <= c < 256 -> sextet_ok (q3 c) = true.
Proof. apply (for_all_bytes (fun a => sextet_ok (q3 a))). by vm_compute. Qed.

Lemma q1_last_ok a : 0 <= a < 256 -> sextet_ok (Z.shiftl (Z.land a 3) 4) = true.
Proof. apply (for_all_bytes (fun a => sextet_ok (Z.shiftl (Z.land a 3) 4))). by vm_compute. Qed.

Lemma q2_last_ok b : 0 <= b < 256 -> sextet_ok (Z.shiftl (Z.land b 15) 2) = true.
Proof. apply (for_all_bytes (fun a => sextet_ok (Z.shiftl (Z.land a 15) 2))). by vm_compute. Qed.

(** Reassembling the bytes.  The low four bits of [q1] and the high four of
    [q2] come from the middle byte alone, so each equation is checked over
    at most two bytes. *)
Lemma byte0_back a b :
  0 <= a < 256 -> 0 <= b < 256 ->
  Z.lor (Z.shiftl (Z.land (q0 a) 0x3F) 2) (Z.shiftr (Z.land (q1 a b) 0x30) 4) = a.
Proof.
  intros Ha Hb. apply Z.eqb_eq.
  revert a b Ha Hb.
  apply (for_all_byte_pairs
           (fun a b => Z.lor (Z.shiftl (Z.land (q0 a) 0x3F) 2)
                             (Z.shiftr (Z.land (q1 a b) 0x30) 4) =? a)).
  by vm_compute.
Qed.

Lemma q1_low a b : 0 <= a < 256 -> 0 <= b < 256 -> Z.land (q1 a b) 0x0F = Z.shiftr b 4.
Proof.
  intros Ha Hb. apply Z.eqb_eq. revert a b Ha Hb.
  apply (for_all_byte_pairs (fun a b => Z.land (q1 a b) 0x0F =? Z.shiftr b 4)).
  by vm_compute.
Qed.

Lemma q2_high b c :
  0 <= b < 256 -> 0 <= c < 256 -> Z.shiftr (Z.land (q2 b c) 0x3C) 2 = Z.land b 15.
Proof.
  intros Hb Hc. apply Z.eqb_eq. revert b c Hb Hc.
  apply (for_all_byte_pairs (fun b c => Z.shiftr (Z.land (q2 b c) 0x3C) 2 =? Z.land b 15)).
  by vm_compute.
Qed.

Lemma nibbles_back b : 0 <= b < 256 -> Z.lor (Z.shiftl (Z.shiftr b 4) 4) (Z.land b 15) = b.
Proof.
  intros Hb. apply Z.eqb_eq. revert b Hb.
  apply (for_all_bytes (fun b => Z.lor (Z.shiftl (Z.shiftr b 4) 4) (Z.land b 15) =? b)).
  by vm_compute.
Qed.

Lemma byte1_back a b c :
  0 <= a < 256 -> 0 <= b < 256 -> 0 <= c < 256 ->
  Z.lor (Z.shiftl (Z.land (q1 a b) 0x0F) 4) (Z.shiftr (Z.land (q2 b c) 0x3C) 2) = b.
Proof. intros Ha Hb Hc. rewrite q1_low, q2_high by assumption. by apply nibbles_back. Qed.

Lemma byte2_back b c :
  0 <= b < 256 -> 0 <= c < 256 ->
  Z.lor (Z.shiftl (Z.land (q2 b c) 0x03) 6) (Z.land (q3 c) 0x3F) = c.
Proof.
  intros Hb Hc. apply Z.eqb_eq. revert b c Hb Hc.
  apply (for_all_byte_pairs
           (fun b c => Z.lor (Z.shiftl (Z.land (q2 b c) 0x03) 6) (Z.land (q3 c) 0x3F) =? c)).
  by vm_compute.
Qed.

(** The same with the zero bits the encoder pads a short last group with. *)
Lemma byte0_back_last a :
  0 <= a < 256 ->
  Z.lor (Z.shiftl (Z.land (q0 a) 0x3F) 2)
        (Z.shiftr (Z.land (Z.shiftl (Z.land a 3) 4) 0x30) 4) = a.
Proof.
  intros Ha. apply Z.eqb_eq. revert a Ha.
  apply (for_all_bytes
           (fun a => Z.lor (Z.shiftl (Z.land (q0 a) 0x3F) 2)
                           (Z.shiftr (Z.land (Z.shiftl (Z.land a 3) 4) 0x30) 4) =? a)).
  by vm_compute.
Qed.

Lemma byte1_back_last a b :
  0 <= a < 256 -> 0 <= b < 256 ->
  Z.lor (Z.shiftl (Z.land (q1 a b) 0x0F) 4)
        (Z.shiftr (Z.land (Z.shiftl (Z.land b 15) 2) 0x3C) 2) = b.
Proof.
  intros Ha Hb. rewrite q1_low by assumption. apply Z.eqb_eq. revert b Hb.
  apply (for_all_bytes
           (fun b => Z.lor (Z.shiftl (Z.shiftr b 4) 4)
                           (Z.shiftr (Z.land (Z.shiftl (Z.land b 15) 2) 0x3C) 2) =? b)).
  by vm_compute.
Qed.

(** Decoding undoes encoding on every byte sequence. *)
Lemma from_base64_to_base64 bs : bytes_ok bs -> from_base64 (to_base64 bs) = bs.
Proof.
  unfold from_base64, bytes_ok.
  induction bs as [|a|a b|a b c rest IH] using triples_ind; intros Hbs.
  - reflexivity.
  - apply Forall_cons_1 in Hbs as [Ha _].
    cbn [to_base64 sextets].
    rewrite !unbase64_b64_char by (apply q0_ok || apply q1_last_ok; assumption).
    rewrite unbase64_pad. cbn [Z.eqb pad Pos.eqb unpack].
    fold (q0 a). by rewrite byte0_back_last.
  - apply Forall_cons_1 in Hbs as [Ha Hbs]. apply Forall_cons_1 in Hbs as [Hb _].
    cbn [to_base64 sextets]. fold (q0 a) (q1 a b).
    rewrite !unbase64_b64_char
      by (apply q0_ok || apply q1_ok || apply q2_last_ok; assumption).
    rewrite unbase64_pad. cbn [Z.eqb pad Pos.eqb unpack].
    by rewrite byte0_back, byte1_back_last.
  - apply Forall_cons_1 in Hbs as [Ha Hbs]. apply Forall_cons_1 in Hbs as [Hb Hbs].
    apply Forall_cons_1 in Hbs as [Hc Hrest].
    cbn [to_base64 sextets app]. fold (q0 a) (q1 a b) (q2 b c) (q3 c).
    rewrite !unbase64_b64_char
      by (apply q0_ok || apply q1_ok || apply q2_ok || apply q3_ok; assumption).
    cbn [unpack].
    rewrite byte0_back, byte1_back, byte2_back by assumption.
    by rewrite IH.
Qed.

Lemma from_string_ascii s : is_ascii s -> from_string s = s.
Proof.
  induction 1 as [|c s Hc _ IH]; [reflexivity|].
  cbn [from_string]. destruct (Z.ltb_spec c 0x80); [by rewrite IH | lia].
Qed.

Lemma land_127_small c : 0 <= c < 128 -> Z.land c 0x7F = c.
Proof.
  intros Hc. change 0x7F with (Z.ones 7). rewrite Z.land_ones by lia.
  apply Z.mod_small. change (2 ^ 7) with 128. lia.
Qed.

Lemma to_ascii_ascii s : is_ascii s -> to_ascii s = s.
Proof.
  induction 1 as [|c s Hc _ IH]; [reflexivity|].
  unfold to_ascii in *. cbn [List.map]. by rewrite land_127_small, IH.
Qed.

Lemma ascii_bytes_ok s : is_ascii s -> bytes_ok s.
Proof.
  unfold is_ascii, bytes_ok. intros H.
  eapply Forall_impl; [exact H|]. intros c Hc. cbv beta in Hc. lia.
Qed.

End Codec.

(** C1, as the code has it: decoding the encoding of an identifier gives
    the identifier back when all its characters are ASCII. *)
Theorem b2a_a2b_ascii (x : jsstring) : is_ascii x -> b2a (a2b x) = x.
Proof.
  intros Hx. unfold b2a, a2b.
  rewrite from_string_ascii by assumption.
  rewrite from_base64_to_base64 by by apply ascii_bytes_ok.
  by apply to_ascii_ascii.
Qed.

Lemma b2a_a2b_ascii_witness :
  is_ascii (lit "status_room") /\ b2a (a2b (lit "status_room")) = lit "status_room".
Proof.
  assert (H : is_ascii (lit "status_room")) by (apply is_asciib_spec; reflexivity).
  split; [exact H | exact (b2a_a2b_ascii (lit "status_room") H)].
Defined.

(** C1 fails outside ASCII: the one-character identifier U+00E9 is encoded
    as [w6k=], which decodes to the two characters [C)]. *)
Lemma b2a_a2b_not_identity :
  a2b [233] = lit "w6k=" /\ b2a (a2b [233]) = lit "C)" /\ b2a (a2b [233]) <> [233].
Proof. repeat split. discriminate. Qed.

(* ------------------------------------------------------------------ *)
(** ** The loop-prevention tagger *)
(* ------------------------------------------------------------------ *)

Section Tagger.
Import RegExp.

Lemma match_here_anchored_literal w : forall bol s st,
  match_here (anchored_literal w) bol s st <> None <-> s = w.
Proof.
  unfold anchored_literal.
  induction w as [|c w IH]; intros bol s st; cbn [List.map app match_here ILit].
  - destruct s; split; congruence.
  - destruct s as [|d s]; [split; congruence|].
    cbn [mem]. destruct (Z.eqb_spec d c) as [->|Hne].
    + rewrite (IH false s (consume c st)). split; congruence.
    + split; congruence.
Qed.

Lemma exec_from_anchored_literal w : forall s bol,
  exec_from (anchored_literal w) bol s <> None <-> exists t, s = t ++ w.
Proof.
  induction s as [|c s IH]; intros bol; cbn [exec_from].
  - pose proof (match_here_anchored_literal w bol [] mstate0) as Hm.
    destruct (match_here (anchored_literal w) bol [] mstate0) eqn:E.
    + split; [intros _; exists []; by apply Hm | congruence].
    + split; [congruence|]. intros [t Ht]. symmetry in Ht.
      apply app_eq_nil in Ht as [_ ->]. apply Hm. reflexivity.
  - pose proof (match_here_anchored_literal w bol (c :: s) mstate0) as Hm.
    destruct (match_here (anchored_literal w) bol (c :: s) mstate0) eqn:E.
    + split; [intros _; exists []; by apply Hm | congruence].
    + rewrite (IH false). split.
      * intros [t ->]. by exists (c :: t).
      * intros [[|d t] Ht]; cbn [app] in Ht.
        -- exfalso. apply Hm; [assumption | congruence].
        -- injection Ht as _ ->. by exists t.
Qed.

Lemma test_anchored_literal w text :
  test (anchored_literal w) text = true <-> exists t, text = t ++ w.
Proof.
  unfold test. rewrite <- (exec_from_anchored_literal w text true).
  destruct (exec_from (anchored_literal w) true text); split; congruence.
Qed.

End Tagger.

(** The constructor without a [dedupe] argument always succeeds, and its
    pattern is its tag, anchored at the end of the string. *)
Lemma new_Base_default id net p a :
  exists b, new_Base id net p None a = Some b
            /\ deduplicationTag b = defaultDeduplicationTag
            /\ deduplicationTagRegex b = RegExp.anchored_literal (deduplicationTag b).
Proof. eexists. repeat split. Qed.

Lemma deployment_base_constructed :
  new_Base (lit "me") (lit "net") Deployment.puppetEnv None Deployment.adapterEnv
  = Some Deployment.base.
Proof. reflexivity. Qed.

(** C2, as the code has it: when the pattern is the tag itself anchored at
    the end of the string, which is the case by default, a tagged text is
    always recognised, and the recognised texts are exactly those of the
    form [tagMatrixMessage b t]. *)
Theorem tagged_iff_produced_by_tag (b : Base) (text : jsstring) :
  deduplicationTagRegex b = RegExp.anchored_literal (deduplicationTag b) ->
  isTaggedMatrixMessage b (tagMatrixMessage b text) = true
  /\ (isTaggedMatrixMessage b text = true <-> exists t, text = tagMatrixMessage b t).
Proof.
  intros Hre. unfold isTaggedMatrixMessage, tagMatrixMessage. rewrite Hre. split.
  - apply test_anchored_literal. by exists text.
  - apply test_anchored_literal.
Qed.

Lemma tagged_iff_produced_by_tag_witness :
  isTaggedMatrixMessage Deployment.base (tagMatrixMessage Deployment.base (lit "hello")) = true
  /\ (isTaggedMatrixMessage Deployment.base (lit "hello") = true
      <-> exists t, lit "hello" = tagMatrixMessage Deployment.base t).
Proof. exact (tagged_iff_produced_by_tag Deployment.base (lit "hello") eq_refl). Defined.

(** C2 fails for tag and pattern overrides in general.  With only the tag
    overridden, the default pattern does not recognise a tagged text; with
    only the pattern overridden to [!], a text that no tagging produced is
    recognised. *)
Lemma tag_override_not_recognised :
  (exists b,
     new_Base (lit "me") (lit "net") Deployment.puppetEnv
       (Some {| dd_tag := Some (lit " (bridged)"); dd_pattern := None |})
       Deployment.adapterEnv = Some b
     /\ isTaggedMatrixMessage b (tagMatrixMessage b (lit "hi")) = false)
  /\ (exists b,
        new_Base (lit "me") (lit "net") Deployment.puppetEnv
          (Some {| dd_tag := None; dd_pattern := Some (lit "!") |})
          Deployment.adapterEnv = Some b
        /\ isTaggedMatrixMessage b (lit "hi! there") = true
        /\ forall t, lit "hi! there" <> tagMatrixMessage b t).
Proof.
  split.
  - eexists. split; [reflexivity|]. reflexivity.
  - eexists. split; [reflexivity|]. split; [reflexivity|].
    intros t Ht. apply (f_equal (@List.rev Z)) in Ht.
    unfold tagMatrixMessage in Ht. rewrite List.rev_app_distr in Ht.
    discriminate Ht.
Qed.

(* ------------------------------------------------------------------ *)
(** ** What a run can add to the log *)
(* ------------------------------------------------------------------ *)

Create HintDb emits.

Lemma bind_resolved {A B} (m : M A) (k : A -> M B) w s a s1 :
  m w s = (Resolved a, s1) -> bind m k w s = k a w s1.
Proof. intros H. unfold bind. by rewrite H. Qed.

Section Emits.
Context (P : Call -> Prop) (w : World).

Lemma emits_at {A} (m : M A) s : emits P w m -> emits_from P w m s.
Proof. intros Hm. apply Hm. Qed.

Lemma emits_from_bind {A B} (m : M A) (k : A -> M B) s :
  emits_from P w m s ->
  (forall a s1, m w s = (Resolved a, s1) -> emits_from P w (k a) s1) ->
  emits_from P w (bind m k) s.
Proof.
  intros (e1 & Hlog & HP1) Hk. unfold emits_from, bind.
  destruct (m w s) as [[a|e|] s1]; cbn [snd] in Hlog.
  - destruct (Hk a s1 eq_refl) as (e2 & Hlog2 & HP2). exists (e1 ++ e2).
    rewrite Hlog2, Hlog, app_assoc. split; [reflexivity | by apply Forall_app].
  - by exists e1.
  - by exists e1.
Qed.

Lemma emits_from_then2 {A B} (m : M A) (k : A -> M B) (h : JsError -> M B) s :
  emits_from P w m s ->
  (forall a s1, m w s = (Resolved a, s1) -> emits_from P w (k a) s1) ->
  (forall e s1, m w s = (Rejected e, s1) -> emits_from P w (h e) s1) ->
  emits_from P w (then2 m k h) s.
Proof.
  intros (e1 & Hlog & HP1) Hk Hh. unfold emits_from, then2.
  destruct (m w s) as [[a|e|] s1]; cbn [snd] in Hlog.
  - destruct (Hk a s1 eq_refl) as (e2 & Hlog2 & HP2). exists (e1 ++ e2).
    rewrite Hlog2, Hlog, app_assoc. split; [reflexivity | by apply Forall_app].
  - destruct (Hh e s1 eq_refl) as (e2 & Hlog2 & HP2). exists (e1 ++ e2).
    rewrite Hlog2, Hlog, app_assoc. split; [reflexivity | by apply Forall_app].
  - by exists e1.
Qed.

Lemma emits_from_calls_of {A} (m : M A) s :
  emits_from P w m s ->
  log (snd (m w s)) = log s ++ calls_of m w s /\ Forall P (calls_of m w s).
Proof.
  intros (extra & Hlog & HP). unfold calls_of.
  rewrite Hlog, drop_app_length. by split.
Qed.

Lemma emits_nothing {A} (m : M A) :
  (forall s, log (snd (m w s)) = log s) -> emits P w m.
Proof. intros H s. exists []. by rewrite H, app_nil_r. Qed.

Lemma emits_ret {A} (a : A) : emits P w (ret a).
Proof. by apply emits_nothing. Qed.

Lemma emits_reject {A} e : emits P w (@reject A e).
Proof. by apply emits_nothing. Qed.

Lemma emits_never {A} : emits P w (@never A).
Proof. by apply emits_nothing. Qed.

Lemma emits_ask {A} (q : World -> list Call -> A) : emits P w (ask q).
Proof. by apply emits_nothing. Qed.

Lemma emits_get_rooms : emits P w get_rooms.
Proof. by apply emits_nothing. Qed.

Lemma emits_set_room k v : emits P w (set_room k v).
Proof.
  apply emits_nothing. intros s. unfold set_room.
  by destruct (map_set k v (thirdPartyRooms s)).
Qed.

Lemma emits_call {A} c (reply : World -> list Call -> Outcome A) :
  P c -> emits P w (call c reply).
Proof. intros Hc s. exists [c]. split; [reflexivity | by constructor]. Qed.

Lemma emits_then2 {A B} (m : M A) (k : A -> M B) (h : JsError -> M B) :
  emits P w m -> (forall a, emits P w (k a)) -> (forall e, emits P w (h e)) ->
  emits P w (then2 m k h).
Proof.
  intros Hm Hk Hh s.
  apply emits_from_then2; [apply Hm | intros; apply Hk | intros; apply Hh].
Qed.

Lemma emits_bind {A B} (m : M A) (k : A -> M B) :
  emits P w m -> (forall a, emits P w (k a)) -> emits P w (bind m k).
Proof. intros Hm Hk s. apply emits_from_bind; [apply Hm | intros; apply Hk]. Qed.

Lemma emits_catch {A} (m : M A) (h : JsError -> M A) :
  emits P w m -> (forall e, emits P w (h e)) -> emits P w (catch m h).
Proof. intros Hm Hh. apply emits_then2; [assumption | intros; apply emits_ret | assumption]. Qed.

Lemma emits_detached {A} (m : M A) : emits P w m -> emits P w (detached m).
Proof. intros Hm s. exact (Hm s). Qed.

Lemma chain_emits_starts {A X} c (reply : World -> list Call -> Outcome X)
    (k : X -> M A) :
  P c -> (forall x, emits P w (k x)) -> chain_emits P w (Starts c reply k).
Proof. by split. Qed.

Lemma chain_emits_then {A B} (p : Chain A) (k : A -> M B) :
  chain_emits P w p -> (forall a, emits P w (k a)) -> chain_emits P w (chain_then p k).
Proof.
  intros [Hc Hp] Hk. split; [exact Hc|]. intros x. cbn [chain_then and_then].
  apply emits_bind; [apply Hp | exact Hk].
Qed.

Lemma emits_await {A} (p : Chain A) : chain_emits P w p -> emits P w (await p).
Proof. intros [Hc Hp]. apply emits_bind; [by apply emits_call | exact Hp]. Qed.

Lemma emits_resume {A} (p : Chain A) o :
  (forall x, emits P w (and_then p x)) -> emits P w (resume p o).
Proof.
  intros Hp. destruct o as [x|e|]; [apply Hp | apply emits_reject | apply emits_never].
Qed.

Lemma emits_all2 {A B} (p1 : Chain A) (p2 : Chain B) :
  chain_emits P w p1 -> chain_emits P w p2 -> emits P w (all2 p1 p2).
Proof.
  intros [Hc1 H1] [Hc2 H2] s. unfold emits_from, all2. cbv zeta.
  match goal with
  | |- context [resume p1 ?o w ?started] =>
    destruct (emits_resume p1 o H1 started) as (e1 & Hlog1 & HP1);
    destruct (resume p1 o w started) as [r1 s1]
  end.
  match goal with
  | |- context [resume p2 ?o w s1] =>
    destruct (emits_resume p2 o H2 s1) as (e2 & Hlog2 & HP2);
    destruct (resume p2 o w s1) as [r2 s2]
  end.
  cbn [snd log] in *. exists ([first_call p1; first_call p2] ++ e1 ++ e2).
  rewrite Hlog2, Hlog1, <- !app_assoc. split; [reflexivity|].
  repeat (apply Forall_app; split); try assumption. by repeat constructor.
Qed.

Lemma emits_calls_of {A} (m : M A) s :
  emits P w m -> log (snd (m w s)) = log s ++ calls_of m w s /\ Forall P (calls_of m w s).
Proof. intros Hm. apply emits_from_calls_of, Hm. Qed.

End Emits.

Ltac head_of t :=
  lazymatch t with
  | ?f _ => head_of f
  | _ => t
  end.

(** One step of a proof that a computation emits only calls in [P]: known
    facts first, then the shape of the computation, then the definition of
    the call at its head. *)
Ltac emits_step :=
  first
    [ solve [auto 3 with emits nocore]
    | lazymatch goal with
      | |- emits _ _ (bind _ _) => apply emits_bind; [|intros ?]
      | |- emits _ _ (then2 _ _ _) => apply emits_then2; [|intros ?|intros ?]
      | |- emits _ _ (catch _ _) => apply emits_catch; [|intros ?]
      | |- emits _ _ (detached _) => apply emits_detached
      | |- emits _ _ (all2 _ _) => apply emits_all2
      | |- emits _ _ (await _) => apply emits_await
      | |- chain_emits _ _ (chain_then _ _) => apply chain_emits_then; [|intros ?]
      | |- chain_emits _ _ (Starts _ _ _) => apply chain_emits_starts; [|intros ?]
      | |- chain_emits _ _ (if ?c then _ else _) => destruct c
      | |- emits _ _ (ret _) => apply emits_ret
      | |- emits _ _ (reject _) => apply emits_reject
      | |- emits _ _ never => apply emits_never
      | |- emits _ _ (ask _) => apply emits_ask
      | |- emits _ _ get_rooms => apply emits_get_rooms
      | |- emits _ _ (set_room _ _) => apply emits_set_room
      | |- emits _ _ (if ?c then _ else _) => destruct c
      | |- emits _ _ (match ?x with _ => _ end) => destruct x
      | |- chain_emits _ _ ?p => let h := head_of p in unfold h
      end ].

Ltac emits_call :=
  lazymatch goal with
  | |- emits _ _ (call _ _) => apply emits_call
  | |- emits _ _ ?m => let h := head_of m in unfold h; apply emits_call
  end.

Section Infrastructure.
Context (P : Call -> Prop) (w : World).
Hypothesis HP : forall c, infrastructure c = true -> P c.

Ltac quiet :=
  repeat emits_step; first [emits_call; apply HP; reflexivity | apply HP; reflexivity | idtac].

Lemma emits_grantPuppetMaxPowerLevel b room :
  emits P w (grantPuppetMaxPowerLevel b room).
Proof using HP. unfold grantPuppetMaxPowerLevel. quiet. Qed.

Lemma emits_setRoomAvatar room url : emits P w (setRoomAvatar room url).
Proof using HP. unfold setRoomAvatar. quiet. Qed.

Lemma emits_setRoomAvatarFromDisk room path : emits P w (setRoomAvatarFromDisk room path).
Proof using HP. unfold setRoomAvatarFromDisk. quiet. Qed.

#[local] Hint Resolve emits_grantPuppetMaxPowerLevel emits_setRoomAvatar
  emits_setRoomAvatarFromDisk : emits.

Lemma emits_lookup_or_create_status_room b localpart :
  emits P w (lookup_or_create_status_room b localpart).
Proof using HP. unfold lookup_or_create_status_room. quiet. Qed.

Lemma emits_lookup_or_create_room b id : emits P w (lookup_or_create_room b id).
Proof using HP. unfold lookup_or_create_room. quiet. Qed.

Lemma emits_record_and_leave id room : emits P w (record_and_leave id room).
Proof using HP. unfold record_and_leave. quiet. Qed.

#[local] Hint Resolve emits_lookup_or_create_status_room emits_lookup_or_create_room
  emits_record_and_leave : emits.

Lemma emits_getStatusRoomId fuel b o : emits P w (getStatusRoomId fuel b o).
Proof using HP.
  induction fuel as [|fuel IH]; cbn [getStatusRoomId]; [apply emits_never|].
  quiet.
Qed.

Lemma emits_getOrCreateMatrixRoomFromThirdPartyRoomId fuel b id :
  emits P w (getOrCreateMatrixRoomFromThirdPartyRoomId fuel b id).
Proof using HP.
  induction fuel as [|fuel IH]; cbn [getOrCreateMatrixRoomFromThirdPartyRoomId];
    [apply emits_never|].
  quiet.
Qed.

#[local] Hint Resolve emits_getStatusRoomId emits_getOrCreateMatrixRoomFromThirdPartyRoomId : emits.

(** [sendStatusMsg] resolves the status room and calls nothing else: the
    functions on its [promiseList] are returned, not run. *)
Lemma emits_sendStatusMsg fuel b o args : emits P w (sendStatusMsg fuel b o args).
Proof using HP. unfold sendStatusMsg. quiet. Qed.

Lemma emits_getOrInitRemoteUser id :
  emits P w (getOrInitRemoteUserStoreDataFromThirdPartyUserId id).
Proof using HP. unfold getOrInitRemoteUserStoreDataFromThirdPartyUserId. quiet. Qed.

Lemma emits_setGhostAvatar ghost url : emits P w (setGhostAvatar ghost url).
Proof using HP. unfold setGhostAvatar. quiet. Qed.

#[local] Hint Resolve emits_sendStatusMsg emits_getOrInitRemoteUser emits_setGhostAvatar : emits.

Lemma emits_getIntentFromThirdPartySenderId b id name avatar :
  emits P w (getIntentFromThirdPartySenderId b id name avatar).
Proof using HP.
  unfold getIntentFromThirdPartySenderId, with_remote_user. quiet.
Qed.

#[local] Hint Resolve emits_getIntentFromThirdPartySenderId : emits.

Lemma emits_prepareMessageHandler fuel b params :
  emits P w (prepareMessageHandler fuel b params).
Proof using HP. unfold prepareMessageHandler. quiet. Qed.

End Infrastructure.

(* ------------------------------------------------------------------ *)
(** ** The relay pipeline *)
(* ------------------------------------------------------------------ *)

Lemma infrastructure_not_home_send c : infrastructure c = true -> home_send c = false.
Proof. by destruct c. Qed.

Lemma infrastructure_tagged_by tag c : infrastructure c = true -> tagged_by tag c.
Proof. by destruct c. Qed.

#[local] Hint Resolve emits_grantPuppetMaxPowerLevel emits_getStatusRoomId
  emits_getOrCreateMatrixRoomFromThirdPartyRoomId emits_sendStatusMsg
  emits_prepareMessageHandler infrastructure_not_home_send
  infrastructure_tagged_by : emits.

(** The handler that [prepareMessageHandler] resolves to carries the tagger
    made for the sender. *)
Lemma prepareMessageHandler_tag fuel b params w s h s' :
  prepareMessageHandler fuel b params w s = (Resolved h, s') ->
  mh_tag h = w_autoTagger w (pm_senderId params) b.
Proof.
  unfold prepareMessageHandler, bind, ask, ret. intros H.
  repeat case_match; by simplify_eq.
Qed.

(** For a payload without sender whose text is tagged, preparation is the
    room resolution, and the handler it resolves to is marked [ignore]. *)
Lemma prepareMessageHandler_echoed fuel b params w s :
  pm_senderId params = None ->
  isTaggedMatrixMessage b (pm_text params) = true ->
  prepareMessageHandler fuel b params w s =
  match getOrCreateMatrixRoomFromThirdPartyRoomId fuel b (pm_roomId params) w s with
  | (Resolved room, s1) =>
    (Resolved {| mh_tag := w_autoTagger w None b; matrixRoomId := room;
                 client := PuppetClient; ignore := true |}, s1)
  | (Rejected e, s1) => (Rejected e, s1)
  | (Never, s1) => (Never, s1)
  end.
Proof.
  intros Hsender Htagged. unfold prepareMessageHandler, bind, ask, ret.
  rewrite Hsender, Htagged. by repeat case_match.
Qed.

Section Relay.
Context (fuel : nat) (b : Base) (w : World).

Lemma emits_handleThirdPartyRoomMessage payload :
  emits (tagged_by (w_autoTagger w (tm_senderId (text_payload_encoded payload)) b)) w
        (handleThirdPartyRoomMessage fuel b payload).
Proof.
  intros s. unfold handleThirdPartyRoomMessage, catch.
  apply emits_from_then2.
  - apply emits_from_bind; [apply emits_prepareMessageHandler; auto with emits|].
    intros h s1 Hprep. apply prepareMessageHandler_tag in Hprep.
    cbn [text_prep pm_senderId] in Hprep. apply emits_at.
    repeat emits_step; emits_call; cbn [tagged_by body]; rewrite Hprep; by eexists.
  - intros; apply emits_ret.
  - intros. apply emits_detached, emits_sendStatusMsg. auto with emits.
Qed.

Lemma emits_handleThirdPartyRoomImageMessage payload :
  emits (tagged_by (w_autoTagger w (ti_senderId (image_payload_encoded payload)) b)) w
        (handleThirdPartyRoomImageMessage fuel b payload).
Proof.
  intros s. unfold handleThirdPartyRoomImageMessage.
  apply emits_from_bind; [apply emits_prepareMessageHandler; auto with emits|].
  intros h s1 Hprep. apply prepareMessageHandler_tag in Hprep.
  cbn [image_prep pm_senderId] in Hprep.
  apply emits_at.
  repeat emits_step;
    emits_call; first [ exact I | cbn [tagged_by body]; rewrite Hprep; by eexists ].
Qed.

(** A home-network event never makes the bridge send to the home network:
    its only path there is [sendStatusMsg]. *)
Lemma emits_getThirdPartyRoomIdFromMatrixRoomId P room :
  emits P w (getThirdPartyRoomIdFromMatrixRoomId b room).
Proof. unfold getThirdPartyRoomIdFromMatrixRoomId, new_RegExp. repeat emits_step. Qed.

Lemma emits_handleMatrixMessageEvent data :
  emits (fun c => home_send c = false) w (handleMatrixMessageEvent fuel b data).
Proof.
  unfold handleMatrixMessageEvent.
  pose proof emits_getThirdPartyRoomIdFromMatrixRoomId.
  repeat emits_step; emits_call; reflexivity.
Qed.

Lemma emits_handleMatrixEvent data :
  emits (fun c => home_send c = false) w (handleMatrixEvent fuel b data).
Proof.
  unfold handleMatrixEvent. pose proof emits_handleMatrixMessageEvent.
  repeat emits_step.
Qed.

(** What [sendStatusMsg] resolves to once the status room is resolved and
    the bot intent is there: the two functions it built, not called. *)
Lemma sendStatusMsg_built options args s room s1 :
  getStatusRoomId fuel b (roomAliasLocalPart options) w s = (Resolved room, s1) ->
  w_botIntentIsNull w (log s1) = false ->
  sendStatusMsg fuel b options args w s
  = (Resolved (PromiseList
                 [status_join room;
                  status_send b (default true (fixedWidthOutput options)) room
                    (reduce_args w 0 [] args)]), s1).
Proof.
  intros Hroom Hbot. unfold sendStatusMsg, bind, ask, ret. cbv zeta.
  by rewrite Hroom, Hbot.
Qed.

(** The second of them, when called, makes one call: it sends the tagged
    text to the status room as the bot. *)
Lemma status_send_run fixedWidth room text s :
  exists content,
    status_send b fixedWidth room text w s
    = (w_sendMessage w (log s) Bot room content,
       {| log := log s ++ [SendMessage Bot room content];
          thirdPartyRooms := thirdPartyRooms s |})
    /\ body content = text ++ deduplicationTag b
    /\ msgtype content = lit "m.notice".
Proof.
  unfold status_send, tagMatrixMessage, bind, ask, sendMessage, call.
  destruct fixedWidth; eexists; repeat split.
Qed.

Lemma tagged_event_is_dropped data s :
  isTaggedMatrixMessage b (ev_body data) = true ->
  handleMatrixEvent fuel b data w s = (Resolved tt, s).
Proof.
  intros Htagged. unfold handleMatrixEvent, handleMatrixMessageEvent.
  rewrite Htagged, orb_true_r. by destruct (str_eqb _ _).
Qed.

End Relay.

Lemma emits_impl {A} (P Q : Call -> Prop) w (m : M A) :
  (forall c, P c -> Q c) -> emits P w m -> emits Q w m.
Proof.
  intros HPQ Hm s. destruct (Hm s) as (extra & Hlog & Hextra).
  exists extra. split; [exact Hlog|]. by apply (Forall_impl _ _ _ Hextra).
Qed.

(** With the tagger of the spec, what a handler's tagger makes ends with
    the tag. *)
Lemma spec_tagger_sent_tagged b w sid c :
  (forall sid text, w_autoTagger w sid b text = Deployment.autoTagger sid b text) ->
  tagged_by (w_autoTagger w sid b) c -> sent_tagged b c.
Proof.
  intros Htag. destruct c; try done; cbn [tagged_by sent_tagged];
    intros [t ->]; exists t; by rewrite Htag.
Qed.

Lemma sent_tagged_tests_tagged b c :
  deduplicationTagRegex b = RegExp.anchored_literal (deduplicationTag b) ->
  sent_tagged b c -> sent_tests_tagged b c = true.
Proof.
  intros Hre. destruct c; try done; cbn [sent_tagged sent_tests_tagged];
    intros [t Ht]; unfold isTaggedMatrixMessage; rewrite Hre, Ht;
    apply test_anchored_literal; by exists t.
Qed.

(** C7: every body the bridge sends to the home network carries the tag,
    once [autoTagger] is the tagger of the spec.  Every text, image caption
    and image fallback that the two inbound handlers send ends with the
    deduplication tag, and passes the tag test when the pattern is the tag
    anchored at the end of the string.  [sendStatusMsg] resolves to the two
    functions it built, the second of which, when called, sends the tagged
    text as one notice; [sendStatusMsg] and the handling of a home-network
    event send nothing to the home network themselves.  A home-network
    event whose body tests as tagged is dropped before any call is made:
    whenever the handling of an event makes a call, the body had tested as
    untagged. *)
Theorem every_send_is_tagged (fuel : nat) (b : Base) (w : World) :
  (forall sid text, w_autoTagger w sid b text = Deployment.autoTagger sid b text) ->
  (forall payload,
     emits (sent_tagged b) w (handleThirdPartyRoomMessage fuel b payload))
  /\ (forall payload,
        emits (sent_tagged b) w (handleThirdPartyRoomImageMessage fuel b payload))
  /\ (deduplicationTagRegex b = RegExp.anchored_literal (deduplicationTag b) ->
      (forall payload,
         emits (fun c => sent_tests_tagged b c = true) w
               (handleThirdPartyRoomMessage fuel b payload))
      /\ (forall payload,
            emits (fun c => sent_tests_tagged b c = true) w
                  (handleThirdPartyRoomImageMessage fuel b payload)))
  /\ (forall options args s room s1,
        getStatusRoomId fuel b (roomAliasLocalPart options) w s = (Resolved room, s1) ->
        w_botIntentIsNull w (log s1) = false ->
        sendStatusMsg fuel b options args w s
        = (Resolved (PromiseList
                       [status_join room;
                        status_send b (default true (fixedWidthOutput options)) room
                          (reduce_args w 0 [] args)]), s1))
  /\ (forall fixedWidth room text s,
        exists content,
          status_send b fixedWidth room text w s
          = (w_sendMessage w (log s) Bot room content,
             {| log := log s ++ [SendMessage Bot room content];
                thirdPartyRooms := thirdPartyRooms s |})
          /\ body content = text ++ deduplicationTag b
          /\ msgtype content = lit "m.notice")
  /\ (forall options args,
        emits (fun c => home_send c = false) w (sendStatusMsg fuel b options args))
  /\ (forall data, emits (fun c => home_send c = false) w (handleMatrixEvent fuel b data))
  /\ (forall data s,
        isTaggedMatrixMessage b (ev_body data) = true ->
        handleMatrixEvent fuel b data w s = (Resolved tt, s))
  /\ (forall data s,
        calls_of (handleMatrixEvent fuel b data) w s <> [] ->
        isTaggedMatrixMessage b (ev_body data) = false).
Proof.
  intros Htag.
  assert (Htext : forall payload,
             emits (sent_tagged b) w (handleThirdPartyRoomMessage fuel b payload)).
  { intros payload.
    exact (emits_impl _ _ _ _ (fun c => spec_tagger_sent_tagged b w _ c Htag)
             (emits_handleThirdPartyRoomMessage fuel b w payload)). }
  assert (Himage : forall payload,
             emits (sent_tagged b) w (handleThirdPartyRoomImageMessage fuel b payload)).
  { intros payload.
    exact (emits_impl _ _ _ _ (fun c => spec_tagger_sent_tagged b w _ c Htag)
             (emits_handleThirdPartyRoomImageMessage fuel b w payload)). }
  split; [exact Htext|]. split; [exact Himage|]. split.
  { intros Hre. split; intros payload.
    - apply (emits_impl _ _ _ _ (fun c => sent_tagged_tests_tagged b c Hre)), Htext.
    - apply (emits_impl _ _ _ _ (fun c => sent_tagged_tests_tagged b c Hre)), Himage. }
  split; [apply sendStatusMsg_built|]. split; [apply status_send_run|].
  split; [intros; apply emits_sendStatusMsg; auto with emits|].
  split; [apply emits_handleMatrixEvent|].
  split; [apply tagged_event_is_dropped|].
  intros data s Hcalls.
  destruct (isTaggedMatrixMessage b (ev_body data)) eqn:Htagged; [|reflexivity].
  exfalso. apply Hcalls. unfold calls_of.
  rewrite (tagged_event_is_dropped fuel b w data s Htagged). cbn [snd].
  apply drop_all.
Qed.

Lemma every_send_is_tagged_witness :
  handleMatrixEvent 3 Deployment.base Deployment.echoed_event (Deployment.calm "!r1:hs") st0
  = (Resolved tt, st0)
  /\ Forall (fun c => sent_tests_tagged Deployment.base c = true)
            (calls_of (handleThirdPartyRoomMessage 3 Deployment.base Deployment.text_payload)
                      (Deployment.calm "!r1:hs") st0).
Proof.
  destruct (every_send_is_tagged 3 Deployment.base (Deployment.calm "!r1:hs")
              (fun _ _ => eq_refl))
    as (_ & _ & Htest & _ & _ & _ & _ & Hevent & _).
  split.
  - exact (Hevent Deployment.echoed_event st0 eq_refl).
  - exact (proj2 (emits_calls_of _ _ _ st0 (proj1 (Htest eq_refl) Deployment.text_payload))).
Defined.

(** C10: a payload without sender whose text is already tagged makes no
    send to the home network, from either handler; the room is resolved
    first, and when that succeeds the handler returns at once, in the state
    the resolution left. *)
Theorem echoed_payload_is_not_relayed (fuel : nat) (b : Base) (w : World) (s : St)
    (text : ThirdPartyMessagePayload) (image : ThirdPartyImageMessagePayload) :
  tm_senderId text = None -> isTaggedMatrixMessage b (tm_text text) = true ->
  ti_senderId image = None -> isTaggedMatrixMessage b (ti_text image) = true ->
  Forall (fun c => home_send c = false)
         (calls_of (handleThirdPartyRoomMessage fuel b text) w s)
  /\ Forall (fun c => home_send c = false)
            (calls_of (handleThirdPartyRoomImageMessage fuel b image) w s)
  /\ (forall room s1,
        getOrCreateMatrixRoomFromThirdPartyRoomId fuel b (a2b (tm_roomId text)) w s
        = (Resolved room, s1) ->
        handleThirdPartyRoomMessage fuel b text w s = (Resolved tt, s1))
  /\ (forall room s1,
        getOrCreateMatrixRoomFromThirdPartyRoomId fuel b (a2b (ti_roomId image)) w s
        = (Resolved room, s1) ->
        handleThirdPartyRoomImageMessage fuel b image w s = (Resolved tt, s1)).
Proof.
  intros Hts Htt His Hit.
  assert (Htext : forall s,
    handleThirdPartyRoomMessage fuel b text w s =
    match getOrCreateMatrixRoomFromThirdPartyRoomId fuel b (a2b (tm_roomId text)) w s with
    | (Resolved _, s1) => (Resolved tt, s1)
    | (Rejected e, s1) =>
      detached (sendStatusMsg fuel b {| fixedWidthOutput := None;
                                        roomAliasLocalPart := None |}
                  [VError e; VTextPayload (text_payload_encoded text)]) w s1
    | (Never, s1) => (Never, s1)
    end).
  { intros s'. unfold handleThirdPartyRoomMessage, catch, then2, bind.
    rewrite prepareMessageHandler_echoed
      by (cbn; unfold text_payload_encoded; by rewrite ?Hts).
    cbn [text_prep pm_roomId text_payload_encoded tm_roomId].
    by repeat case_match; simplify_eq. }
  assert (Himage : forall s,
    handleThirdPartyRoomImageMessage fuel b image w s =
    match getOrCreateMatrixRoomFromThirdPartyRoomId fuel b (a2b (ti_roomId image)) w s with
    | (Resolved _, s1) => (Resolved tt, s1)
    | (Rejected e, s1) => (Rejected e, s1)
    | (Never, s1) => (Never, s1)
    end).
  { intros s'. unfold handleThirdPartyRoomImageMessage, bind.
    rewrite prepareMessageHandler_echoed
      by (cbn; unfold image_payload_encoded; by rewrite ?His).
    cbn [image_prep pm_roomId image_payload_encoded ti_roomId].
    by repeat case_match; simplify_eq. }
  pose proof (emits_getOrCreateMatrixRoomFromThirdPartyRoomId
                (fun c => home_send c = false) w infrastructure_not_home_send) as Hres.
  repeat split.
  - apply emits_from_calls_of. unfold emits_from. rewrite Htext.
    destruct (Hres fuel b (a2b (tm_roomId text)) s) as (e1 & Hlog & HP).
    destruct (getOrCreateMatrixRoomFromThirdPartyRoomId _ _ _ w s) as [[room|e|] s1];
      cbn [snd] in *; [by exists e1 | | by exists e1].
    destruct (emits_sendStatusMsg (fun c => home_send c = false) w
                infrastructure_not_home_send fuel b
                {| fixedWidthOutput := None; roomAliasLocalPart := None |}
                [VError e; VTextPayload (text_payload_encoded text)] s1)
      as (e2 & Hlog2 & HP2).
    exists (e1 ++ e2). unfold detached. cbn [snd].
    rewrite Hlog2, Hlog, app_assoc. split; [reflexivity | by apply Forall_app].
  - apply emits_from_calls_of. unfold emits_from. rewrite Himage.
    destruct (Hres fuel b (a2b (ti_roomId image)) s) as (e1 & Hlog & HP).
    destruct (getOrCreateMatrixRoomFromThirdPartyRoomId _ _ _ w s) as [[room|e|] s1];
      cbn [snd] in *; by exists e1.
  - intros room s1 Hroom. by rewrite Htext, Hroom.
  - intros room s1 Hroom. by rewrite Himage, Hroom.
Qed.

Lemma echoed_payload_is_not_relayed_witness :
  Forall (fun c => home_send c = false)
         (calls_of (handleThirdPartyRoomMessage 3 Deployment.base Deployment.echoed_payload)
                   (Deployment.calm "!r1:hs") st0)
  /\ Forall (fun c => home_send c = false)
            (calls_of (handleThirdPartyRoomImageMessage 3 Deployment.base Deployment.echoed_image)
                      (Deployment.calm "!r1:hs") st0).
Proof.
  pose proof (echoed_payload_is_not_relayed 3 Deployment.base (Deployment.calm "!r1:hs") st0
                Deployment.echoed_payload Deployment.echoed_image
                eq_refl eq_refl eq_refl eq_refl) as (Htext & Himage & _).
  exact (conj Htext Himage).
Defined.

(** The echoed text resolves the room (lookup, join, power grant, bot
    leave) and stops there. *)
Example echoed_payload_log :
  log (snd (handleThirdPartyRoomMessage 3 Deployment.base Deployment.echoed_payload
              (Deployment.calm "!r1:hs") st0))
  = [GetRoomIdForAlias (lit "#net_puppet_me_cm9vbTE=:hs");
     JoinRoom (lit "!r1:hs");
     SetPowerLevel (lit "!r1:hs") (lit "@me:hs") 100;
     IntentLeave (lit "!r1:hs")].
Proof. reflexivity. Qed.

(** C3: an event of the puppet in the status room, with an untagged body,
    makes no call on the adapter, neither [sendMessage], [sendImageMessage]
    nor the command hook; nor does it make any send to the home network:
    the notice [sendStatusMsg] prepares is never posted. *)
Theorem status_room_event_reaches_nobody (fuel : nat) (b : Base) (w : World)
    (data : EventData) (s : St) :
  p_userId (puppet b) = sender data ->
  isTaggedMatrixMessage b (ev_body data) = false ->
  fst (getThirdPartyRoomIdFromMatrixRoomId b (room_id data) w s)
  = Resolved (Some (lit "status_room")) ->
  Forall (fun c => infrastructure c = true)
         (calls_of (handleMatrixMessageEvent fuel b data) w s).
Proof.
  intros Hsender Htagged Hroom.
  apply emits_from_calls_of. unfold handleMatrixMessageEvent.
  unfold str_eqb. rewrite bool_decide_eq_true_2 by assumption.
  rewrite Htagged. cbn [negb orb].
  apply emits_from_bind; [apply emits_getThirdPartyRoomIdFromMatrixRoomId|].
  intros room s1 Hrun. rewrite Hrun in Hroom. cbn [fst] in Hroom.
  injection Hroom as ->.
  rewrite bool_decide_eq_true_2 by reflexivity. cbn [truthy_opt truthy lit negb].
  apply emits_at.
  repeat emits_step; apply emits_sendStatusMsg; auto.
Qed.

Lemma status_room_event_reaches_nobody_witness :
  Forall (fun c => infrastructure c = true)
         (calls_of (handleMatrixMessageEvent 3 Deployment.base Deployment.status_event)
                   (Deployment.calm "!status:hs") st0).
Proof.
  exact (status_room_event_reaches_nobody 3 Deployment.base (Deployment.calm "!status:hs")
           Deployment.status_event st0 eq_refl eq_refl eq_refl).
Defined.

(** What the status-room event does instead: it resolves the status room. *)
Example status_room_event_log :
  handleMatrixMessageEvent 3 Deployment.base Deployment.status_event
    (Deployment.calm "!status:hs") st0
  = (Resolved tt,
     {| log := [GetRoomIdForAlias (lit "#net_puppet_me_status_room:hs");
                SetPowerLevel (lit "!status:hs") (lit "@me:hs") 100;
                JoinRoom (lit "!status:hs");
                SetPowerLevel (lit "!status:hs") (lit "@me:hs") 100];
        thirdPartyRooms := ∅ |}).
Proof. reflexivity. Qed.

(** C4: when the room resolution is rejected, the image handler is
    rejected with the same reason, in the state the resolution left: the
    failure reaches the caller and no report is attempted.  The text handler
    catches the failure and resolves, but sends nothing to the home network:
    the report [sendStatusMsg] prepares is never posted. *)
Theorem inbound_failure_not_reported (fuel : nat) (b : Base) (w : World) (s s1 : St)
    (e : JsError) :
  (forall image,
     getOrCreateMatrixRoomFromThirdPartyRoomId fuel b (a2b (ti_roomId image)) w s
     = (Rejected e, s1) ->
     handleThirdPartyRoomImageMessage fuel b image w s = (Rejected e, s1))
  /\ (forall text,
        getOrCreateMatrixRoomFromThirdPartyRoomId fuel b (a2b (tm_roomId text)) w s
        = (Rejected e, s1) ->
        fst (handleThirdPartyRoomMessage fuel b text w s) = Resolved tt
        /\ Forall (fun c => home_send c = false)
                  (calls_of (handleThirdPartyRoomMessage fuel b text) w s)).
Proof.
  split.
  - intros image Hroom.
    unfold handleThirdPartyRoomImageMessage, prepareMessageHandler, bind, ask.
    cbn [image_prep pm_roomId image_payload_encoded ti_roomId]. by rewrite Hroom.
  - intros text Hroom. split.
    + unfold handleThirdPartyRoomMessage, catch, then2, prepareMessageHandler, bind, ask.
      cbn [text_prep pm_roomId text_payload_encoded tm_roomId]. by rewrite Hroom.
    + apply emits_from_calls_of.
      unfold handleThirdPartyRoomMessage, catch.
      apply emits_from_then2.
      * unfold emits_from, prepareMessageHandler, bind, ask.
        cbn [text_prep pm_roomId text_payload_encoded tm_roomId]. rewrite Hroom.
        cbn [snd].
        pose proof (emits_getOrCreateMatrixRoomFromThirdPartyRoomId
                      (fun c => home_send c = false) w infrastructure_not_home_send
                      fuel b (a2b (tm_roomId text)) s) as Hres.
        unfold emits_from in Hres. by rewrite Hroom in Hres.
      * intros; apply emits_ret.
      * intros. apply emits_detached, emits_sendStatusMsg. auto with emits.
Qed.

Lemma inbound_failure_not_reported_witness :
  handleThirdPartyRoomImageMessage 3 Deployment.base Deployment.echoed_image
    Deployment.adapter_down st0
  = (Rejected (MkError (lit "adapter down")),
     {| log := [GetRoomIdForAlias (lit "#net_puppet_me_cm9vbTE=:hs");
                AdapterGetRoomData (lit "room1")];
        thirdPartyRooms := ∅ |})
  /\ fst (handleThirdPartyRoomMessage 3 Deployment.base Deployment.text_payload
            Deployment.adapter_down st0) = Resolved tt
  /\ Forall (fun c => home_send c = false)
            (calls_of (handleThirdPartyRoomMessage 3 Deployment.base Deployment.text_payload)
                      Deployment.adapter_down st0).
Proof.
  destruct (inbound_failure_not_reported 3 Deployment.base Deployment.adapter_down st0
              {| log := [GetRoomIdForAlias (lit "#net_puppet_me_cm9vbTE=:hs");
                         AdapterGetRoomData (lit "room1")];
                 thirdPartyRooms := ∅ |}
              (MkError (lit "adapter down"))) as [Himage Htext].
  split; [exact (Himage Deployment.echoed_image eq_refl)|].
  exact (Htext Deployment.text_payload eq_refl).
Defined.

(** C5: for a picture given by a local path and no URL, and for a picture
    given by none of URL, path and buffer, the handler is rejected with
    "promise is not a function" once the message handler is prepared, and
    from then on nothing is sent to the home network: neither the image
    message nor the fallback text. *)
Theorem image_without_url_raises (fuel : nat) (b : Base) (w : World) (s s1 : St)
    (payload : ThirdPartyImageMessagePayload) (handler : MessageHandler) :
  prepareMessageHandler fuel b (image_prep (image_payload_encoded payload)) w s
  = (Resolved handler, s1) ->
  ignore handler = false ->
  truthy_opt (ti_url payload) = false ->
  truthy_opt (ti_path payload) = true \/ ti_buffer payload = None ->
  fst (handleThirdPartyRoomImageMessage fuel b payload w s) = Rejected not_a_function
  /\ Forall (fun c => home_send c = false)
            (drop (length (log s1))
                  (log (snd (handleThirdPartyRoomImageMessage fuel b payload w s)))).
Proof.
  intros Hprep Hignore Hurl Hpath.
  unfold handleThirdPartyRoomImageMessage.
  rewrite (bind_resolved _ _ _ _ _ _ Hprep), Hignore.
  cbn [image_payload_encoded ti_url ti_path ti_buffer]. rewrite Hurl.
  destruct (truthy_opt (ti_path payload)) eqn:Hp.
  - split; [reflexivity|].
    match goal with
    | |- context [detached ?read] =>
      assert (Hread : emits (fun c => home_send c = false) w read)
        by (repeat emits_step; emits_call; reflexivity);
      exact (proj2 (emits_calls_of _ _ read s1 Hread))
    end.
  - destruct Hpath as [|Hb]; [discriminate|]. rewrite Hb.
    split; [reflexivity|]. cbn [reject snd]. by rewrite drop_all.
Qed.

Lemma image_without_url_raises_witness :
  fst (handleThirdPartyRoomImageMessage 3 Deployment.base Deployment.image_by_path
         (Deployment.calm "!r1:hs") st0) = Rejected not_a_function
  /\ log (snd (handleThirdPartyRoomImageMessage 3 Deployment.base Deployment.image_by_path
                 (Deployment.calm "!r1:hs") st0))
     = [GetRoomIdForAlias (lit "#net_puppet_me_cm9vbTE=:hs");
        JoinRoom (lit "!r1:hs");
        SetPowerLevel (lit "!r1:hs") (lit "@me:hs") 100;
        IntentLeave (lit "!r1:hs");
        ReadFile (lit "/tmp/cat.png");
        UploaderUpload PuppetClient (lit "cat") (Some (lit "image/png")) None None].
Proof.
  split; [|reflexivity].
  exact (proj1 (image_without_url_raises 3 Deployment.base (Deployment.calm "!r1:hs") st0 _
                  Deployment.image_by_path _ eq_refl eq_refl eq_refl (or_introl eq_refl))).
Defined.



(* ------------------------------------------------------------------ *)
(** ** Room resolution and the alias repair *)
(* ------------------------------------------------------------------ *)

Lemma str_eqb_true s t : s = t -> str_eqb s t = true.
Proof. intros ->. unfold str_eqb. by apply bool_decide_eq_true_2. Qed.

Lemma str_eqb_false s t : s <> t -> str_eqb s t = false.
Proof. intros H. unfold str_eqb. by apply bool_decide_eq_false_2. Qed.

Lemma calls_of_app {A} (m : M A) w s extra :
  log (snd (m w s)) = log s ++ extra -> calls_of m w s = extra.
Proof. intros H. unfold calls_of. by rewrite H, drop_app_length. Qed.



Section Within.
Context (w : World).






End Within.

Section Repair.
Context (b : Base) (w : World).

Lemma then2_joinRoom {B} room (k : unit -> M B) (h : JsError -> M B) s :
  then2 (joinRoom room) k h w s =
  let s' := {| log := log s ++ [JoinRoom room]; thirdPartyRooms := thirdPartyRooms s |} in
  match w_joinRoom w (log s) room with
  | Resolved u => k u w s'
  | Rejected e => h e w s'
  | Never => (Never, s')
  end.
Proof. reflexivity. Qed.

(** The power grant resolves to the room whether the homeserver accepts it
    or not. *)
Lemma grant_settled room s :
  settles (w_setPowerLevel w (log s) room (p_credentials_userId (puppet b)) 100) ->
  grantPuppetMaxPowerLevel b room w s
  = (Resolved room,
     {| log := log s ++ [SetPowerLevel room (p_credentials_userId (puppet b)) 100];
        thirdPartyRooms := thirdPartyRooms s |}).
Proof.
  unfold settles, grantPuppetMaxPowerLevel, bind, catch, then2, setPowerLevel, call.
  by destruct (w_setPowerLevel w (log s) room _ 100).
Qed.

(** Recording a room and making the bot leave it; a room called [size]
    cannot be recorded, and the bot is then not made to leave. *)
Lemma record_and_leave_run id room s :
  room <> lit "size" ->
  record_and_leave id room w s
  = (Resolved room,
     {| log := log s ++ [IntentLeave room];
        thirdPartyRooms := js_set room id (thirdPartyRooms s) |}).
Proof.
  intros Hroom. unfold record_and_leave, bind, set_room, map_set.
  by rewrite str_eqb_false.
Qed.

Lemma record_and_leave_size id s :
  exists e, record_and_leave id (lit "size") w s = (Rejected e, s).
Proof. by eexists. Qed.

Lemma record_and_leave_resolved id room s room' s' :
  record_and_leave id room w s = (Resolved room', s') ->
  room' = room /\ room <> lit "size"
  /\ s' = {| log := log s ++ [IntentLeave room];
             thirdPartyRooms := js_set room id (thirdPartyRooms s) |}.
Proof.
  unfold record_and_leave, bind, set_room, map_set, str_eqb.
  case_bool_decide as Hroom; [discriminate|]. by intros [= <- <-].
Qed.

















(** The resolution of a room whose alias the homeserver does not know, when
    the adapter's room data has no avatar and the created room can be
    joined. *)
Lemma first_contact_run fuel id room data e s :
  let alias := getRoomAliasFromThirdPartyRoomId b id in
  let user := p_credentials_userId (puppet b) in
  let created := [GetRoomIdForAlias alias; AdapterGetRoomData (b2a id);
                  CreateRoom (room_creation b id data)] in
  w_getRoomIdForAlias w (log s) alias = Rejected e ->
  (forall l, w_getRoomData w l (b2a id) = Resolved data) ->
  truthy_opt (rd_avatarUrl data) = false ->
  w_createRoom w (log s ++ [GetRoomIdForAlias alias; AdapterGetRoomData (b2a id)])
    (room_creation b id data) = Resolved room ->
  w_joinRoom w (log s ++ created) room = Resolved tt ->
  (forall l, settles (w_setPowerLevel w l room user 100)) ->
  room <> lit "size" ->
  getOrCreateMatrixRoomFromThirdPartyRoomId (S fuel) b id w s
  = (Resolved room,
     {| log := log s ++ created ++ [JoinRoom room; SetPowerLevel room user 100;
                                    IntentLeave room];
        thirdPartyRooms := js_set room id (thirdPartyRooms s) |}).
Proof.
  intros alias user created Hlookup Hdata Havatar Hcreate Hjoin Hgrant Hroom.
  cbn [getOrCreateMatrixRoomFromThirdPartyRoomId].
  assert (Hfirst : lookup_or_create_room b id w s
                   = (Resolved room,
                      {| log := log s ++ created;
                         thirdPartyRooms := thirdPartyRooms s |})).
  { unfold lookup_or_create_room, then2, getRoomIdForAlias, call. fold alias.
    rewrite Hlookup. unfold bind, adapter_getRoomData, createRoom, call.
    rewrite Hdata. fold (room_creation b id data). cbn [log thirdPartyRooms].
    rewrite <- app_assoc. cbn [app]. rewrite Hcreate, Havatar.
    unfold ret, created. cbn [log thirdPartyRooms]. by rewrite <- !app_assoc. }
  rewrite (bind_resolved _ _ _ _ _ _ Hfirst).
  unfold bind at 1. rewrite then2_joinRoom. cbv zeta. cbn [log thirdPartyRooms].
  rewrite Hjoin. rewrite grant_settled by apply Hgrant.
  rewrite record_and_leave_run by assumption. cbn [log thirdPartyRooms].
  by rewrite <- !app_assoc.
Qed.


End Repair.




(* ------------------------------------------------------------------ *)
(** ** Read receipts *)
(* ------------------------------------------------------------------ *)

Lemma js_in_stored (inherited : list jsstring) (key id : jsstring)
    (obj : gmap jsstring jsstring) :
  obj !! key = Some id -> js_in inherited key obj = true.
Proof.
  intros H. unfold js_in. rewrite bool_decide_eq_true_2; [reflexivity|]. by exists id.
Qed.

Lemma js_in_absent (inherited : list jsstring) (key : jsstring)
    (obj : gmap jsstring jsstring) :
  obj !! key = None -> key ∉ inherited -> js_in inherited key obj = false.
Proof.
  intros H Hni. unfold js_in.
  rewrite bool_decide_eq_false_2 by (rewrite H; by intros [? ?]).
  by rewrite bool_decide_eq_false_2.
Qed.

(* ------------------------------------------------------------------ *)
(** ** More on the identifier codec *)
(* ------------------------------------------------------------------ *)

Section CodecRange.
Import Buffer.

Lemma land_127_range c : 0 <= Z.land c 0x7F < 128.
Proof.
  change 0x7F with (Z.ones 7). rewrite Z.land_ones by lia.
  change (2 ^ 7) with 128. apply Z.mod_pos_bound. lia.
Qed.

Lemma byte_ok_spec b : byte_ok b = true <-> 0 <= b < 256.
Proof. unfold byte_ok. lia. Qed.

(** A byte of UTF-8 is its marker bits set on a small payload. *)
Lemma marked_ok (marker bound y : Z) :
  forallb (fun y => implb (y <? bound) (byte_ok (Z.lor marker y))) byte_range = true ->
  bound <= 256 -> 0 <= y < bound -> 0 <= Z.lor marker y < 256.
Proof.
  intros Hall Hb Hy. apply byte_ok_spec.
  pose proof (for_all_bytes _ Hall y ltac:(lia)) as H. cbv beta in H.
  destruct (Z.ltb_spec y bound); [exact H | lia].
Qed.

Lemma shiftr_range c k bound :
  0 <= k -> 0 <= c < bound * 2 ^ k -> 0 <= Z.shiftr c k < bound.
Proof.
  intros Hk Hc. rewrite Z.shiftr_div_pow2 by assumption.
  assert (0 < 2 ^ k) by (apply Z.pow_pos_nonneg; lia).
  split; [apply Z.div_pos; lia | apply Z.div_lt_upper_bound; lia].
Qed.

Lemma continuation_ok x : 0 <= Z.lor 0x80 (Z.land x 0x3F) < 256.
Proof.
  apply (marked_ok 0x80 64); [reflexivity | lia |].
  change 0x3F with (Z.ones 6). rewrite Z.land_ones by lia.
  apply Z.mod_pos_bound. reflexivity.
Qed.

Lemma utf8_3_ok c : 0 <= c < 65536 -> bytes_ok (utf8_3 c).
Proof.
  intros Hc. unfold utf8_3. repeat constructor; try apply continuation_ok.
  - apply (marked_ok 0xE0 16); [reflexivity | lia |]. apply shiftr_range; lia.
  - apply (marked_ok 0xE0 16); [reflexivity | lia |]. apply shiftr_range; lia.
Qed.

Lemma utf8_4_ok c d :
  is_high_surrogate c = true -> is_low_surrogate d = true ->
  bytes_ok (utf8_4 (0x10000 + Z.shiftl (c - 0xD800) 10 + (d - 0xDC00))).
Proof.
  unfold is_high_surrogate, is_low_surrogate. intros Hc Hd.
  rewrite Z.shiftl_mul_pow2 by lia. change (2 ^ 10) with 1024.
  unfold utf8_4. repeat constructor; try apply continuation_ok.
  - apply (marked_ok 0xF0 8); [reflexivity | lia |]. apply shiftr_range; lia.
  - apply (marked_ok 0xF0 8); [reflexivity | lia |]. apply shiftr_range; lia.
Qed.

Lemma two_bytes_ok c :
  0 <= c < 0x800 -> bytes_ok [Z.lor 0xC0 (Z.shiftr c 6); Z.lor 0x80 (Z.land c 0x3F)].
Proof.
  intros Hc. repeat constructor; try apply continuation_ok.
  - apply (marked_ok 0xC0 32); [reflexivity | lia |]. apply shiftr_range; lia.
  - apply (marked_ok 0xC0 32); [reflexivity | lia |]. apply shiftr_range; lia.
Qed.

(** One step of the encoder: the bytes of the first character, or of the
    first surrogate pair, then the encoding of the rest. *)
Lemma from_string_step c s :
  0 <= c < 65536 ->
  bytes_ok (from_string s) ->
  (forall d s', s = d :: s' -> bytes_ok (from_string s')) ->
  bytes_ok (from_string (c :: s)).
Proof.
  intros Hc Hs Htail. unfold bytes_ok in *. cbn [from_string].
  destruct (Z.ltb_spec c 0x80); [constructor; [lia | assumption]|].
  destruct (Z.ltb_spec c 0x800).
  { apply (Forall_app _ [_; _]). split; [apply two_bytes_ok; lia | assumption]. }
  destruct (is_high_surrogate c) eqn:Hhigh.
  - destruct s as [|d s']; [by apply utf8_3_ok|].
    destruct (is_low_surrogate d) eqn:Hlow; apply Forall_app; split;
      [by apply utf8_4_ok | by eapply Htail | by apply utf8_3_ok | assumption].
  - destruct (is_low_surrogate c); apply Forall_app; split;
      solve [by apply utf8_3_ok | assumption].
Qed.

(** The UTF-8 encoding of any string of code units is a sequence of bytes. *)
Lemma from_string_bytes_ok s : code_units s -> bytes_ok (from_string s).
Proof.
  enough (H : code_units s ->
              bytes_ok (from_string s)
              /\ forall d s', s = d :: s' -> bytes_ok (from_string s'))
    by (intros Hs; by apply H).
  induction 1 as [|c s Hc Hs [IH Htail]].
  - split; [constructor | discriminate].
  - split; [by apply from_string_step|].
    intros d s' Heq. by simplify_eq.
Qed.

Lemma b64_char_in_alias_class v :
  sextet_ok v = true -> in_alias_class (b64_char v) = true.
Proof.
  intros Hv. assert (Hr : 0 <= v < 256) by (unfold sextet_ok in Hv; lia).
  pose proof (for_all_bytes
                (fun v => implb (sextet_ok v) (in_alias_class (b64_char v)))
                eq_refl v Hr) as H.
  cbv beta in H. by rewrite Hv in H.
Qed.

(** Every character of a base64 text belongs to the class of the alias
    pattern. *)
Lemma to_base64_in_alias_class bs :
  bytes_ok bs -> Forall (fun c => in_alias_class c = true) (to_base64 bs).
Proof.
  unfold bytes_ok.
  induction bs as [|a|a b|a b c rest IH] using triples_ind; intros Hbs.
  - constructor.
  - apply Forall_cons_1 in Hbs as [Ha _]. cbn [to_base64].
    repeat constructor; apply b64_char_in_alias_class;
      first [by apply q0_ok | by apply q1_last_ok].
  - apply Forall_cons_1 in Hbs as [Ha Hbs]. apply Forall_cons_1 in Hbs as [Hb _].
    cbn [to_base64]. fold (q0 a) (q1 a b).
    repeat constructor; apply b64_char_in_alias_class;
      first [by apply q0_ok | by apply q1_ok | by apply q2_last_ok].
  - apply Forall_cons_1 in Hbs as [Ha Hbs]. apply Forall_cons_1 in Hbs as [Hb Hbs].
    apply Forall_cons_1 in Hbs as [Hc Hrest].
    cbn [to_base64 app]. fold (q0 a) (q1 a b) (q2 b c) (q3 c).
    repeat (constructor; [apply b64_char_in_alias_class;
      first [by apply q0_ok | by apply q1_ok | by apply q2_ok | by apply q3_ok]|]).
    by apply IH.
Qed.

Lemma is_ascii_code_units s : is_ascii s -> code_units s.
Proof.
  unfold is_ascii, code_units. intros H.
  eapply Forall_impl; [exact H|]. intros c Hc. cbv beta in Hc. lia.
Qed.

(** Decoding what was encoded, piece by piece. *)
Lemma decode_encode_ascii x :
  is_ascii x -> to_ascii (from_base64 (to_base64 (from_string x))) = x.
Proof.
  intros Hx. rewrite from_string_ascii by assumption.
  rewrite from_base64_to_base64 by by apply ascii_bytes_ok.
  by apply to_ascii_ascii.
Qed.

Lemma to_base64_nonempty bs : bs <> [] -> to_base64 bs <> [].
Proof. destruct bs as [|a [|b [|c rest]]]; [congruence | discriminate ..]. Qed.

End CodecRange.

(** X1: whatever text it is given, [b2a] returns 7-bit characters only. *)
Theorem b2a_is_ascii (token : jsstring) : is_ascii (b2a token).
Proof.
  unfold b2a, Buffer.to_ascii, is_ascii. apply Forall_map, Forall_true.
  intros c. apply land_127_range.
Qed.

(** X2: the encoding of any string is made of characters of the class the
    alias pattern captures, so an encoded identifier never breaks the
    pattern by its characters. *)
Theorem a2b_in_alias_class (x : jsstring) :
  code_units x -> Forall (fun c => in_alias_class c = true) (a2b x).
Proof.
  intros Hx. unfold a2b. by apply to_base64_in_alias_class, from_string_bytes_ok.
Qed.

Lemma a2b_in_alias_class_witness :
  Forall (fun c => in_alias_class c = true) (a2b [0x4E2D; 0x6587; 0xD83D; 0xDE00]).
Proof.
  apply a2b_in_alias_class. unfold code_units. repeat constructor; lia.
Defined.

(** X3: on ASCII identifiers the encoding is injective, and so is the local
    part from which the room alias and the ghost user name are made: two
    distinct third-party ids never get the same local part.  The room
    alias and the ghost user name are what the puppet's [makeRoomAlias] and
    [makeUserAlias] make of the local part: they are distinct for distinct
    ids when that function of the puppet is injective, which the code under
    src/ does not tell. *)
Theorem derived_names_injective (b : Base) (x y : jsstring) :
  is_ascii x -> is_ascii y ->
  (a2b x = a2b y -> x = y)
  /\ (getRoomAliasLocalPartFromThirdPartyRoomId b (a2b x)
      = getRoomAliasLocalPartFromThirdPartyRoomId b (a2b y) -> x = y)
  /\ ((forall u v, makeRoomAlias (puppet b) u = makeRoomAlias (puppet b) v -> u = v) ->
      getRoomAliasFromThirdPartyRoomId b (a2b x)
      = getRoomAliasFromThirdPartyRoomId b (a2b y) -> x = y)
  /\ ((forall u v, makeUserAlias (puppet b) u = makeUserAlias (puppet b) v -> u = v) ->
      getGhostUserFromThirdPartySenderId b (a2b x)
      = getGhostUserFromThirdPartySenderId b (a2b y) -> x = y).
Proof.
  intros Hx Hy.
  assert (Hinj : a2b x = a2b y -> x = y).
  { intros Heq. apply (f_equal b2a) in Heq. unfold b2a, a2b in Heq.
    by rewrite !decode_encode_ascii in Heq. }
  assert (Hlocal : getRoomAliasLocalPartFromThirdPartyRoomId b (a2b x)
                   = getRoomAliasLocalPartFromThirdPartyRoomId b (a2b y) -> x = y).
  { unfold getRoomAliasLocalPartFromThirdPartyRoomId. intros Heq.
    apply Hinj. by repeat apply app_inv_head in Heq. }
  split; [exact Hinj|]. split; [exact Hlocal|]. split.
  - intros Hmake Heq. by apply Hlocal, Hmake.
  - intros Hmake Heq. by apply Hlocal, Hmake.
Qed.

Lemma derived_names_injective_witness :
  (a2b (lit "room1") = a2b (lit "room2") -> lit "room1" = lit "room2")
  /\ (getRoomAliasFromThirdPartyRoomId Deployment.base (a2b (lit "room1"))
      = getRoomAliasFromThirdPartyRoomId Deployment.base (a2b (lit "room2"))
      -> lit "room1" = lit "room2").
Proof.
  destruct (derived_names_injective Deployment.base (lit "room1") (lit "room2"))
    as (Hcode & _ & Halias & _); [apply is_asciib_spec; reflexivity..|].
  split; [exact Hcode|]. apply Halias.
  intros u v Heq. apply (app_inv_head (lit "#")) in Heq.
  by apply app_inv_tail in Heq.
Defined.

(* ------------------------------------------------------------------ *)
(** ** From a room alias back to the third-party room id *)
(* ------------------------------------------------------------------ *)

Section AliasPattern.
Import RegExp.

Lemma parse_safe_char f c r :
  alias_safe c = true ->
  parse (S f) (c :: r) =
  (let '(q, rest) := quantifier r in parsed_map (cons (IChar q (CLit c))) (parse f rest)).
Proof.
  intros H. destruct c as [|p|p]; [reflexivity | | reflexivity].
  do 8 (try (destruct p as [p|p|]; try reflexivity; try discriminate H)).
Qed.

Lemma quantifier_safe c r : alias_safe c = true -> quantifier (c :: r) = (One, c :: r).
Proof.
  intros H. destruct c as [|p|p]; [reflexivity | | reflexivity].
  do 7 (try (destruct p as [p|p|]; try reflexivity; try discriminate H)).
Qed.

Lemma parse_literals l : forall f rest,
  Forall (fun c => alias_safe c = true) l ->
  quantifier rest = (One, rest) ->
  parse (length l + f) (l ++ rest) = parsed_map (app (List.map ILit l)) (parse f rest).
Proof.
  induction l as [|c l IH]; intros f rest Hl Hrest.
  - cbn. by destruct (parse f rest).
  - apply Forall_cons_1 in Hl as [Hc Hl].
    cbn [length Nat.add app]. rewrite parse_safe_char by assumption.
    assert (Hq : quantifier (l ++ rest) = (One, l ++ rest)).
    { destruct l as [|d l']; [exact Hrest|].
      apply Forall_cons_1 in Hl as [Hd _]. by apply quantifier_safe. }
    rewrite Hq, IH by assumption.
    by destruct (parse f rest).
Qed.

Lemma balanced_literals l r depth : balanced depth (List.map ILit l ++ r) = balanced depth r.
Proof. induction l as [|c l IH]; [reflexivity | exact IH]. Qed.

Lemma alias_prefix_safe b :
  Forall (fun c => alias_safe c = true) (network b) ->
  Forall (fun c => alias_safe c = true) (identityPair_id b) ->
  Forall (fun c => alias_safe c = true) (alias_prefix b).
Proof.
  intros Hn Hi. unfold alias_prefix.
  repeat (apply Forall_app; split); try assumption; by repeat constructor.
Qed.

(** The pattern compiles to [alias_regex]. *)
Lemma compile_alias_pattern b :
  Forall (fun c => alias_safe c = true) (network b) ->
  Forall (fun c => alias_safe c = true) (identityPair_id b) ->
  compile (lit "^#" ++ network b ++ lit "_puppet_" ++ identityPair_id b
             ++ lit "_([a-zA-Z0-9+\/=_]+)$") = Parsed (alias_regex b).
Proof.
  intros Hn Hi.
  set (tail := lit "([a-zA-Z0-9+\/=_]+)$").
  assert (Hpat : lit "^#" ++ network b ++ lit "_puppet_" ++ identityPair_id b
                   ++ lit "_([a-zA-Z0-9+\/=_]+)$" = 94 :: alias_prefix b ++ tail).
  { unfold alias_prefix. rewrite <- !app_assoc. reflexivity. }
  rewrite Hpat. unfold compile.
  replace (S (length (94 :: alias_prefix b ++ tail)))
    with (S (length (alias_prefix b) + 21))
    by (cbn [length]; rewrite length_app; change (length tail) with 20%nat; lia).
  change (parse (S ?f) (94 :: ?r)) with (parsed_map (cons IStart) (parse f r)).
  rewrite parse_literals; [| by apply alias_prefix_safe | reflexivity].
  change (parse 21 tail)
    with (Parsed [IOpen; IChar Plus alias_class; IClose; IEnd]).
  cbn [parsed_map balanced]. rewrite balanced_literals. reflexivity.
Qed.

Lemma consume_no_group c st : opens st = [] -> consume c st = st.
Proof. destruct st as [o cl n]. cbn. by intros ->. Qed.

Lemma match_here_literals l : forall r bol s st,
  opens st = [] ->
  match_here (List.map ILit l ++ r) bol (l ++ s) st
  = match_here r (match l with [] => bol | _ => false end) s st.
Proof.
  induction l as [|c l IH]; intros r bol s st Hst; [reflexivity|].
  cbn [List.map app match_here ILit mem]. rewrite Z.eqb_refl.
  rewrite consume_no_group by assumption. rewrite IH by assumption.
  by destruct l.
Qed.

Lemma consume_all t : forall i acc cl n,
  fold_left (fun st c => consume c st) t {| opens := [(i, acc)]; closed := cl; next_group := n |}
  = {| opens := [(i, rev t ++ acc)]; closed := cl; next_group := n |}.
Proof.
  induction t as [|c t IH]; intros i acc cl n; [reflexivity|].
  cbn [fold_left rev].
  change (consume c {| opens := [(i, acc)]; closed := cl; next_group := n |})
    with {| opens := [(i, c :: acc)]; closed := cl; next_group := n |}.
  rewrite IH. by rewrite <- app_assoc.
Qed.

Lemma star_alias_class t : forall bol st,
  Forall (fun c => in_alias_class c = true) t ->
  star (match_here [IClose; IEnd]) alias_class bol t st
  = Some (close_group (fold_left (fun st c => consume c st) t st)).
Proof.
  induction t as [|c t IH]; intros bol st Ht; [reflexivity|].
  apply Forall_cons_1 in Ht as [Hc Ht]. cbn [star fold_left].
  unfold in_alias_class in Hc. rewrite Hc. by rewrite IH.
Qed.

(** The pattern matches the local part derived from a token, and captures
    the token. *)
Lemma match_alias_regex b token :
  token <> [] -> Forall (fun c => in_alias_class c = true) token ->
  option_map (group 1)
    (str_match (lit "#" ++ getRoomAliasLocalPartFromThirdPartyRoomId b token) (alias_regex b))
  = Some (Some token).
Proof.
  intros Hne Htoken. unfold str_match, getRoomAliasLocalPartFromThirdPartyRoomId.
  assert (Hs : lit "#" ++ network b ++ lit "_puppet_" ++ identityPair_id b ++ lit "_" ++ token
               = alias_prefix b ++ token).
  { unfold alias_prefix. by rewrite <- !app_assoc. }
  rewrite Hs. fold (alias_prefix b). unfold alias_regex. fold (alias_prefix b).
  destruct token as [|c t]; [congruence|].
  apply Forall_cons_1 in Htoken as [Hc Ht].
  assert (Hm : match_here
                 (IStart :: List.map ILit (alias_prefix b)
                  ++ [IOpen; IChar Plus alias_class; IClose; IEnd])
                 true (alias_prefix b ++ c :: t) mstate0
               = Some {| opens := []; closed := [(1%nat, c :: t)]; next_group := 2 |}).
  { cbn [match_here]. rewrite match_here_literals by reflexivity.
    cbn [match_here]. unfold in_alias_class in Hc. rewrite Hc.
    rewrite star_alias_class by assumption.
    unfold open_group, mstate0. cbn [opens closed next_group].
    change (consume c {| opens := [(1%nat, [])]; closed := []; next_group := 2 |})
      with {| opens := [(1%nat, [c])]; closed := []; next_group := 2 |}.
    rewrite consume_all. unfold close_group. cbn [opens closed next_group].
    by rewrite rev_app_distr, rev_involutive. }
  destruct (alias_prefix b ++ c :: t) eqn:E; cbn [exec_from]; by rewrite Hm.
Qed.

Lemma before_colon_app l domain :
  Forall (fun c => c <> 58) l -> before_colon (l ++ 58 :: domain) = l.
Proof.
  induction 1 as [|c l Hc _ IH]; [reflexivity|].
  cbn [app before_colon]. destruct (Z.eqb_spec c 58); [congruence | by rewrite IH].
Qed.

Lemma alias_safe_not_colon c : alias_safe c = true -> c <> 58.
Proof. by intros H ->. Qed.

Lemma in_alias_class_not_colon c : in_alias_class c = true -> c <> 58.
Proof. by intros H ->. Qed.

End AliasPattern.

Lemma exec_from_not_at_start r s : RegExp.exec_from (RegExp.IStart :: r) false s = None.
Proof. induction s as [|c s IH]; [reflexivity | exact IH]. Qed.

(** The pattern does not match the local part derived from the empty
    token. *)
Lemma no_match_empty_token b :
  RegExp.str_match (lit "#" ++ getRoomAliasLocalPartFromThirdPartyRoomId b [])
                   (alias_regex b) = None.
Proof.
  unfold RegExp.str_match, getRoomAliasLocalPartFromThirdPartyRoomId.
  assert (Hs : lit "#" ++ network b ++ lit "_puppet_" ++ identityPair_id b ++ lit "_" ++ []
               = alias_prefix b ++ []).
  { unfold alias_prefix. by rewrite <- !app_assoc. }
  rewrite Hs. unfold alias_regex. fold (alias_prefix b).
  assert (Hm : RegExp.match_here
                 (RegExp.IStart :: List.map RegExp.ILit (alias_prefix b)
                  ++ [RegExp.IOpen; RegExp.IChar RegExp.Plus alias_class;
                      RegExp.IClose; RegExp.IEnd])
                 true (alias_prefix b ++ []) RegExp.mstate0 = None).
  { cbn [RegExp.match_here]. by rewrite match_here_literals. }
  destruct (alias_prefix b ++ []) eqn:E; cbn [RegExp.exec_from]; rewrite Hm;
    [reflexivity | apply exec_from_not_at_start].
Qed.

Lemma derived_alias_localpart b token domain :
  Forall (fun c => alias_safe c = true) (network b) ->
  Forall (fun c => alias_safe c = true) (identityPair_id b) ->
  Forall (fun c => in_alias_class c = true) token ->
  before_colon (lit "#" ++ getRoomAliasLocalPartFromThirdPartyRoomId b token
                  ++ lit ":" ++ domain)
  = lit "#" ++ getRoomAliasLocalPartFromThirdPartyRoomId b token.
Proof.
  intros Hn Hi Ht.
  change (lit ":" ++ domain) with (58 :: domain). rewrite app_assoc.
  apply before_colon_app. unfold getRoomAliasLocalPartFromThirdPartyRoomId.
  repeat (apply Forall_app; split);
    try (eapply Forall_impl; [eassumption|];
         first [exact alias_safe_not_colon | exact in_alias_class_not_colon]);
    by repeat constructor.
Qed.

(** X4: the alias a bridge derives for an encoded room id leads back to that
    id.  When the network name and the identity id are made of characters
    that stand for themselves in a pattern, a room whose last alias is the
    alias derived from a non-empty token of the pattern's class resolves to
    that token, whatever aliases come before it. *)
Theorem derived_alias_reverse_resolves (b : Base) (w : World) (s : St)
    (room token domain : jsstring) (others : list jsstring) :
  Forall (fun c => alias_safe c = true) (network b) ->
  Forall (fun c => alias_safe c = true) (identityPair_id b) ->
  token <> [] ->
  Forall (fun c => in_alias_class c = true) token ->
  w_roomAliases w (log s) room
  = Some (others ++ [lit "#" ++ getRoomAliasLocalPartFromThirdPartyRoomId b token
                       ++ lit ":" ++ domain]) ->
  getThirdPartyRoomIdFromMatrixRoomId b room w s = (Resolved (Some token), s).
Proof.
  intros Hn Hi Hne Ht Haliases. unfold getThirdPartyRoomIdFromMatrixRoomId, new_RegExp.
  rewrite compile_alias_pattern by assumption.
  unfold bind, ask, ret. rewrite Haliases.
  rewrite fold_left_app. cbn [fold_left].
  rewrite derived_alias_localpart by assumption.
  by rewrite (match_alias_regex b token Hne Ht).
Qed.

Lemma derived_alias_reverse_resolves_witness :
  getThirdPartyRoomIdFromMatrixRoomId Deployment.base (lit "!r1:hs")
    (Deployment.calm "!r1:hs") st0
  = (Resolved (Some (a2b (lit "room1"))), st0).
Proof.
  apply (derived_alias_reverse_resolves Deployment.base (Deployment.calm "!r1:hs") st0
           (lit "!r1:hs") (a2b (lit "room1")) (lit "hs") []).
  - by repeat constructor.
  - by repeat constructor.
  - discriminate.
  - by repeat constructor.
  - reflexivity.
Defined.

(** X5: what does not resolve.  A room the client does not know makes the
    lookup throw; a room without aliases, and a room whose only alias is the
    one derived from the empty room id, resolve to [null]; none changes the
    state. *)
Theorem rooms_that_do_not_resolve (b : Base) (w : World) (s : St)
    (room domain : jsstring) :
  Forall (fun c => alias_safe c = true) (network b) ->
  Forall (fun c => alias_safe c = true) (identityPair_id b) ->
  (w_roomAliases w (log s) room = None ->
   exists e, getThirdPartyRoomIdFromMatrixRoomId b room w s = (Rejected e, s))
  /\ (w_roomAliases w (log s) room = Some [] ->
      getThirdPartyRoomIdFromMatrixRoomId b room w s = (Resolved None, s))
  /\ (w_roomAliases w (log s) room
      = Some [lit "#" ++ getRoomAliasLocalPartFromThirdPartyRoomId b []
                ++ lit ":" ++ domain] ->
      getThirdPartyRoomIdFromMatrixRoomId b room w s = (Resolved None, s)).
Proof.
  intros Hn Hi. unfold getThirdPartyRoomIdFromMatrixRoomId, new_RegExp.
  rewrite compile_alias_pattern by assumption. unfold bind, ask, ret.
  repeat split; intros ->; [by eexists | reflexivity |].
  cbn [fold_left].
  rewrite derived_alias_localpart by (assumption || constructor).
  by rewrite no_match_empty_token.
Qed.

Lemma rooms_that_do_not_resolve_witness :
  getThirdPartyRoomIdFromMatrixRoomId Deployment.base (lit "!r1:hs")
    (Scenes.with_roomAliases (fun _ _ => Some []) (Deployment.calm "!r1:hs")) st0
  = (Resolved None, st0).
Proof.
  refine (proj1 (proj2 (rooms_that_do_not_resolve Deployment.base
                          (Scenes.with_roomAliases (fun _ _ => Some [])
                             (Deployment.calm "!r1:hs"))
                          st0 (lit "!r1:hs") (lit "hs") _ _)) eq_refl);
    by repeat constructor.
Defined.

(* ------------------------------------------------------------------ *)
(** ** Outbound relay: from the home network to the adapter *)
(* ------------------------------------------------------------------ *)

(** Reporting a failure: the handler resolves, and whatever else happens is
    the resolution of the status room. *)
Lemma report_rejected fuel b w s (args : list JsValue) :
  let report := detached (sendStatusMsg fuel b {| fixedWidthOutput := None;
                                                 roomAliasLocalPart := None |} args) in
  fst (report w s) = Resolved tt
  /\ exists rest, log (snd (report w s)) = log s ++ rest
                  /\ Forall (fun c => infrastructure c = true) rest.
Proof.
  intros report. split; [reflexivity|].
  apply (emits_sendStatusMsg (fun c => infrastructure c = true) w (fun c H => H)).
Qed.

(** Past the sender and tag tests, an event is handled according to the
    third-party room id its room resolves to. *)
Ltac open_event Hsender Htagged Hroom :=
  unfold handleMatrixMessageEvent;
  rewrite (str_eqb_true _ _ Hsender), Htagged; cbn [negb orb];
  rewrite (bind_resolved _ _ _ _ _ _ Hroom).

(** X6: a text message of the operator in a bridged room, which is no
    command, is handed to [adapter.sendMessage] once, for the decoded room
    id and with the tag appended to the body; nothing else is called.  If
    the adapter rejects it the handler still resolves, and what follows is
    only the resolution of the status room. *)
Theorem text_event_is_relayed (fuel : nat) (b : Base) (w : World) (s : St)
    (data : EventData) (id : jsstring) :
  p_userId (puppet b) = sender data ->
  isTaggedMatrixMessage b (ev_body data) = false ->
  getThirdPartyRoomIdFromMatrixRoomId b (room_id data) w s = (Resolved (Some id), s) ->
  truthy id = true -> id <> lit "status_room" ->
  ev_msgtype data = lit "m.text" ->
  has_handleMatrixUserBangCommand (adapter b) = false
  \/ w_parseBangCommand w (ev_body data) = None ->
  let relay := AdapterSendMessage (b2a id) (tagMatrixMessage b (ev_body data)) in
  (w_adapterSendMessage w (log s) (b2a id) (tagMatrixMessage b (ev_body data))
   = Resolved tt ->
   handleMatrixMessageEvent fuel b data w s
   = (Resolved tt, {| log := log s ++ [relay]; thirdPartyRooms := thirdPartyRooms s |}))
  /\ (forall e,
        w_adapterSendMessage w (log s) (b2a id) (tagMatrixMessage b (ev_body data))
        = Rejected e ->
        fst (handleMatrixMessageEvent fuel b data w s) = Resolved tt
        /\ exists rest,
             calls_of (handleMatrixMessageEvent fuel b data) w s = relay :: rest
             /\ Forall (fun c => infrastructure c = true) rest).
Proof.
  intros Hsender Htagged Hroom Hid Hstatus Hkind Hbang relay. subst relay.
  assert (Hrun : handleMatrixMessageEvent fuel b data w s
                 = catch (adapter_sendMessage (b2a id) (tagMatrixMessage b (ev_body data)))
                     (fun err =>
                        detached (sendStatusMsg fuel b
                                    {| fixedWidthOutput := None;
                                       roomAliasLocalPart := None |}
                                    [VError err; VEvent data])) w s).
  { open_event Hsender Htagged Hroom.
    cbn [truthy_opt]. rewrite Hid. cbn [negb].
    rewrite bool_decide_eq_false_2 by congruence.
    rewrite (str_eqb_true _ _ Hkind). cbn [default].
    unfold bind at 1, ask.
    by destruct Hbang as [-> | ->]; [|destruct (has_handleMatrixUserBangCommand _)]. }
  split.
  - intros Hreply. rewrite Hrun. unfold catch, then2, adapter_sendMessage, call.
    by rewrite Hreply.
  - intros e Hreply.
    pose proof (report_rejected fuel b w
                  {| log := log s ++ [AdapterSendMessage (b2a id)
                                        (tagMatrixMessage b (ev_body data))];
                     thirdPartyRooms := thirdPartyRooms s |}
                  [VError e; VEvent data]) as [Hres (rest & Hlog & Hrest)].
    cbv zeta in Hres, Hlog.
    rewrite Hrun. unfold catch, then2, adapter_sendMessage, call. rewrite Hreply.
    split; [exact Hres|]. exists rest. split; [|exact Hrest].
    apply calls_of_app. rewrite Hrun.
    unfold catch, then2, adapter_sendMessage, call. rewrite Hreply, Hlog.
    cbn [log]. by rewrite <- app_assoc.
Qed.

Lemma text_event_is_relayed_witness :
  handleMatrixMessageEvent 3 Deployment.base Scenes.text_event (Deployment.calm "!r1:hs") st0
  = (Resolved tt,
     {| log := [AdapterSendMessage (lit "room1")
                  (lit "see you" ++ defaultDeduplicationTag)];
        thirdPartyRooms := ∅ |}).
Proof.
  refine (proj1 (text_event_is_relayed 3 Deployment.base (Deployment.calm "!r1:hs") st0
                   Scenes.text_event (a2b (lit "room1"))
                   eq_refl eq_refl eq_refl eq_refl _ eq_refl (or_intror eq_refl))
                eq_refl).
  discriminate.
Defined.

(** X7: in a bridged room other than the status room, when the adapter
    has a command hook and the body of the operator's untagged text message
    parses as a command, the hook is the only call: the text is not handed
    to [adapter.sendMessage], and the hook's outcome, a rejection included,
    is the handler's. *)
Theorem command_bypasses_relay (fuel : nat) (b : Base) (w : World) (s : St)
    (data : EventData) (id : jsstring) (bc : BangCommand) :
  p_userId (puppet b) = sender data ->
  isTaggedMatrixMessage b (ev_body data) = false ->
  getThirdPartyRoomIdFromMatrixRoomId b (room_id data) w s = (Resolved (Some id), s) ->
  truthy id = true -> id <> lit "status_room" ->
  ev_msgtype data = lit "m.text" ->
  has_handleMatrixUserBangCommand (adapter b) = true ->
  w_parseBangCommand w (ev_body data) = Some bc ->
  handleMatrixMessageEvent fuel b data w s
  = (w_bangCommand w (log s) bc data,
     {| log := log s ++ [AdapterBangCommand bc data];
        thirdPartyRooms := thirdPartyRooms s |}).
Proof.
  intros Hsender Htagged Hroom Hid Hstatus Hkind Hhook Hparse.
  open_event Hsender Htagged Hroom.
  cbn [truthy_opt]. rewrite Hid. cbn [negb].
  rewrite bool_decide_eq_false_2 by congruence.
  rewrite (str_eqb_true _ _ Hkind).
  unfold bind at 1, ask. by rewrite Hhook, Hparse.
Qed.

Lemma command_bypasses_relay_witness :
  handleMatrixMessageEvent 3 Deployment.base Scenes.text_event Scenes.commands st0
  = (Resolved tt,
     {| log := [AdapterBangCommand Scenes.help Scenes.text_event];
        thirdPartyRooms := ∅ |}).
Proof.
  refine (command_bypasses_relay 3 Deployment.base Scenes.commands st0
            Scenes.text_event (a2b (lit "room1")) Scenes.help
            eq_refl eq_refl eq_refl eq_refl _ eq_refl eq_refl eq_refl).
  discriminate.
Defined.

(** X8: a picture of the operator in a bridged room other than the status
    room is handed to [adapter.sendImageMessage], with the fetchable URL of
    its media reference, the tagged body as text, and the mimetype, width,
    height and size of the event; when the adapter accepts it, that is the
    only call and the handler resolves.  An image event without [info]
    throws before any call. *)
Theorem image_event_is_relayed (fuel : nat) (b : Base) (w : World) (s : St)
    (data : EventData) (id : jsstring) :
  p_userId (puppet b) = sender data ->
  isTaggedMatrixMessage b (ev_body data) = false ->
  getThirdPartyRoomIdFromMatrixRoomId b (room_id data) w s = (Resolved (Some id), s) ->
  truthy id = true -> id <> lit "status_room" ->
  ev_msgtype data = lit "m.image" ->
  (forall info,
     ev_info data = Some info ->
     let image := {| im_url := w_mxcUrlToHttp w (ev_url data);
                     im_text := tagMatrixMessage b (ev_body data);
                     im_mimetype := ei_mimetype info; im_width := ei_w info;
                     im_height := ei_h info; im_size := ei_size info |} in
     w_adapterSendImageMessage w (log s) (b2a id) image = Resolved tt ->
     handleMatrixMessageEvent fuel b data w s
     = (Resolved tt,
        {| log := log s ++ [AdapterSendImageMessage (b2a id) image];
           thirdPartyRooms := thirdPartyRooms s |}))
  /\ (ev_info data = None ->
      exists e, handleMatrixMessageEvent fuel b data w s = (Rejected e, s)).
Proof.
  intros Hsender Htagged Hroom Hid Hstatus Hkind.
  assert (Hnot_text : str_eqb (ev_msgtype data) (lit "m.text") = false)
    by (rewrite Hkind; reflexivity).
  split.
  - intros info Hinfo image Hreply. subst image. open_event Hsender Htagged Hroom.
    cbn [truthy_opt]. rewrite Hid. cbn [negb].
    rewrite bool_decide_eq_false_2 by congruence.
    rewrite Hnot_text, (str_eqb_true _ _ Hkind), Hinfo.
    unfold bind, ask, catch, then2, adapter_sendImageMessage, call.
    cbn [default from_option Datatypes.id]. by rewrite Hreply.
  - intros Hinfo. open_event Hsender Htagged Hroom.
    cbn [truthy_opt]. rewrite Hid. cbn [negb].
    rewrite bool_decide_eq_false_2 by congruence.
    rewrite Hnot_text, (str_eqb_true _ _ Hkind), Hinfo.
    by eexists.
Qed.

Lemma image_event_is_relayed_witness :
  handleMatrixMessageEvent 3 Deployment.base Scenes.image_event (Deployment.calm "!r1:hs") st0
  = (Resolved tt,
     {| log := [AdapterSendImageMessage (lit "room1")
                  {| im_url := lit "mxc://hs/cat";
                     im_text := lit "cat.png" ++ defaultDeduplicationTag;
                     im_mimetype := Some (lit "image/png"); im_width := Some 20;
                     im_height := Some 10; im_size := Some 4 |}];
        thirdPartyRooms := ∅ |}).
Proof.
  refine (proj1 (image_event_is_relayed 3 Deployment.base (Deployment.calm "!r1:hs") st0
                   Scenes.image_event (a2b (lit "room1"))
                   eq_refl eq_refl eq_refl eq_refl _ eq_refl)
                _ eq_refl eq_refl).
  discriminate.
Defined.

(** X9: an event whose room resolves to no third-party room, and an event of
    a kind other than text and image in a bridged room, reach no operation
    of the adapter and send nothing to the home network; the handler
    resolves all the same. *)
Theorem unmapped_or_unknown_event_goes_nowhere (fuel : nat) (b : Base) (w : World)
    (s : St) (data : EventData) (resolved : option jsstring) :
  p_userId (puppet b) = sender data ->
  isTaggedMatrixMessage b (ev_body data) = false ->
  getThirdPartyRoomIdFromMatrixRoomId b (room_id data) w s = (Resolved resolved, s) ->
  truthy_opt resolved = false
  \/ (resolved <> Some (lit "status_room")
      /\ ev_msgtype data <> lit "m.text" /\ ev_msgtype data <> lit "m.image") ->
  fst (handleMatrixMessageEvent fuel b data w s) = Resolved tt
  /\ Forall (fun c => infrastructure c = true)
            (calls_of (handleMatrixMessageEvent fuel b data) w s).
Proof.
  intros Hsender Htagged Hroom Hcase.
  assert (Hrun : exists e,
    handleMatrixMessageEvent fuel b data w s
    = detached (sendStatusMsg fuel b {| fixedWidthOutput := None;
                                        roomAliasLocalPart := None |}
                  [VError e; VEvent data]) w s).
  { open_event Hsender Htagged Hroom.
    destruct Hcase as [Hnone | (Hstatus & Htext & Himage)].
    - rewrite Hnone. cbn [negb]. by eexists.
    - destruct (truthy_opt resolved); cbn [negb]; [|by eexists].
      rewrite bool_decide_eq_false_2 by assumption.
      rewrite (str_eqb_false _ _ Htext), (str_eqb_false _ _ Himage). by eexists. }
  destruct Hrun as [e Hrun].
  destruct (report_rejected fuel b w s [VError e; VEvent data]) as [Hres (rest & Hlog & Hrest)].
  cbv zeta in Hres, Hlog. rewrite Hrun. split; [exact Hres|].
  erewrite calls_of_app; [exact Hrest|]. by rewrite Hrun.
Qed.

Lemma unmapped_or_unknown_event_goes_nowhere_witness :
  fst (handleMatrixMessageEvent 3 Deployment.base Scenes.location_event
         (Deployment.calm "!r1:hs") st0) = Resolved tt
  /\ Forall (fun c => infrastructure c = true)
            (calls_of (handleMatrixMessageEvent 3 Deployment.base Scenes.location_event)
                      (Deployment.calm "!r1:hs") st0).
Proof.
  refine (unmapped_or_unknown_event_goes_nowhere 3 Deployment.base
            (Deployment.calm "!r1:hs") st0 Scenes.location_event
            (Some (a2b (lit "room1"))) eq_refl eq_refl eq_refl (or_intror _)).
  repeat split; discriminate.
Defined.

(** X10: only room messages of the operator's own account are considered.
    An event of another type, and a room message of another sender, make no
    call and change nothing. *)
Theorem other_events_are_ignored (fuel : nat) (b : Base) (w : World) (s : St)
    (data : EventData) :
  ev_type data <> lit "m.room.message" \/ sender data <> p_userId (puppet b) ->
  handleMatrixEvent fuel b data w s = (Resolved tt, s).
Proof.
  intros [Htype | Hsender]; unfold handleMatrixEvent.
  - by rewrite (str_eqb_false _ _ Htype).
  - destruct (str_eqb (ev_type data) _); [|reflexivity].
    unfold handleMatrixMessageEvent. by rewrite str_eqb_false by congruence.
Qed.

Lemma other_events_are_ignored_witness :
  handleMatrixEvent 3 Deployment.base Scenes.foreign_event (Deployment.calm "!r1:hs") st0
  = (Resolved tt, st0).
Proof.
  apply other_events_are_ignored. right. discriminate.
Defined.

(* ------------------------------------------------------------------ *)
(** ** Room resolution, round by round *)
(* ------------------------------------------------------------------ *)

Section Resolution.
Context (b : Base) (w : World).

(** A resolution that resolves ends by recording its room. *)
Lemma resolved_room_recorded fuel id s room s' :
  getOrCreateMatrixRoomFromThirdPartyRoomId fuel b id w s = (Resolved room, s') ->
  exists prior, thirdPartyRooms s' = js_set room id prior.
Proof.
  destruct fuel as [|fuel]; [discriminate|].
  cbn [getOrCreateMatrixRoomFromThirdPartyRoomId]. unfold bind at 1.
  destruct (lookup_or_create_room b id w s) as [[first|?|] s1]; [|discriminate..].
  unfold bind at 1.
  destruct (then2 _ _ _ w s1) as [[joined|?|] s2]; [|discriminate..].
  intros Hrun. apply record_and_leave_resolved in Hrun as (-> & _ & ->). by eexists.
Qed.

End Resolution.

Lemma js_get_set (room id : jsstring) (prior : gmap jsstring jsstring) :
  room <> lit "__proto__" -> js_get room (js_set room id prior) = Some id.
Proof.
  intros Hroom. unfold js_get, js_set. rewrite str_eqb_false by assumption.
  apply lookup_insert_eq.
Qed.

(* ------------------------------------------------------------------ *)
(** ** Read receipts of the operator *)
(* ------------------------------------------------------------------ *)

Lemma unsaved_session_keeps_mapping (calls : list Puppet.Method) (p : Puppet.t) :
  forallb (fun m => negb (Puppet.is_save m)) calls = true ->
  Puppet.thirdPartyRooms (fold_left Puppet.invoke calls p) = Puppet.thirdPartyRooms p.
Proof.
  revert p. induction calls as [|m calls IH]; intros p Hcalls; [reflexivity|].
  cbn [forallb] in Hcalls. apply andb_true_iff in Hcalls as [Hm Hcalls].
  cbn [fold_left]. rewrite (IH _ Hcalls). by destruct m.
Qed.

Lemma receipt_needs_adapter (p : Puppet.t) roomId content :
  Puppet.on_Room_receipt p roomId content <> [] ->
  exists a, Puppet.adapter p = Some a /\ Puppet.has_sendReadReceipt a = true
            /\ js_in object_prototype_names roomId (Puppet.thirdPartyRooms p) = true.
Proof.
  unfold Puppet.on_Room_receipt. destruct (Puppet.adapter p) as [a|]; [|done].
  destruct (Puppet.has_sendReadReceipt a) eqn:Hcap; [|done].
  destruct (js_in _ _ _) eqn:Hin; [|done]. intros _. by exists a.
Qed.

(** C9, as the code has it.  The listener of the puppet session reads the
    session's own [thirdPartyRooms], an object that is empty after the
    constructor and that only [saveThirdPartyRoomId] writes; it is not the
    [thirdPartyRooms] of [Base], which room resolution fills.  A receipt
    that carries a read marker of the operator's own account is forwarded,
    once, with the stored third-party room id, when an adapter that has a
    [sendReadReceipt] member is attached and the room is a key of the
    session's mapping.  Nothing is forwarded when the room is not a key of
    it (nor the name of a member every object inherits), when no adapter is
    attached, or when the adapter has no such member, whatever the mapping
    holds.  A session on which [saveThirdPartyRoomId] was never called has
    an empty mapping, and forwards nothing for a room that resolution has
    just recorded in [Base].  [Base.sendReadReceipt] forwards the decoded
    id of a room stored in the mapping of [Base], and nothing for an
    unknown one. *)
Theorem read_receipt_forwarded_for_known_rooms (p : Puppet.t) (roomId : jsstring)
    (content : Puppet.ReceiptContent) :
  Puppet.read_by p content = true ->
  (forall a id,
     Puppet.adapter p = Some a -> Puppet.has_sendReadReceipt a = true ->
     Puppet.thirdPartyRooms p !! roomId = Some id ->
     Puppet.on_Room_receipt p roomId content = [AdapterSendReadReceipt (Some id)])
  /\ (Puppet.thirdPartyRooms p !! roomId = None ->
      roomId ∉ object_prototype_names ->
      Puppet.on_Room_receipt p roomId content = [])
  /\ (Puppet.adapter p = None -> Puppet.on_Room_receipt p roomId content = [])
  /\ (forall a,
        Puppet.adapter p = Some a -> Puppet.has_sendReadReceipt a = false ->
        Puppet.on_Room_receipt p roomId content = [])
  /\ (Puppet.on_Room_receipt p roomId content <> [] ->
      exists a, Puppet.adapter p = Some a /\ Puppet.has_sendReadReceipt a = true
                /\ js_in object_prototype_names roomId (Puppet.thirdPartyRooms p) = true)
  /\ (forall calls,
        forallb (fun m => negb (Puppet.is_save m)) calls = true ->
        Puppet.thirdPartyRooms (Puppet.after calls) = ∅)
  /\ (forall calls fuel b w s id s',
        p = Puppet.after calls ->
        forallb (fun m => negb (Puppet.is_save m)) calls = true ->
        roomId ∉ object_prototype_names ->
        getOrCreateMatrixRoomFromThirdPartyRoomId fuel b id w s = (Resolved roomId, s') ->
        thirdPartyRooms s' !! roomId = Some id
        /\ Puppet.on_Room_receipt p roomId content = [])
  /\ (forall w s id,
        thirdPartyRooms s !! roomId = Some id ->
        calls_of (sendReadReceipt roomId) w s = [AdapterSendReadReceipt (Some (b2a id))])
  /\ (forall w s,
        thirdPartyRooms s !! roomId = None ->
        roomId ∉ map_prototype_names ->
        sendReadReceipt roomId w s = (Resolved tt, s)).
Proof.
  intros Hread.
  assert (Hunsaved : forall calls,
             forallb (fun m => negb (Puppet.is_save m)) calls = true ->
             Puppet.thirdPartyRooms (Puppet.after calls) = ∅).
  { intros calls Hcalls. unfold Puppet.after.
    by rewrite (unsaved_session_keeps_mapping calls Puppet.new Hcalls). }
  assert (Habsent : Puppet.thirdPartyRooms p !! roomId = None ->
                    roomId ∉ object_prototype_names ->
                    Puppet.on_Room_receipt p roomId content = []).
  { intros Hnone Hni. unfold Puppet.on_Room_receipt.
    rewrite (js_in_absent _ _ _ Hnone Hni). by repeat case_match. }
  split.
  { intros a id Ha Hcap Hid. unfold Puppet.on_Room_receipt.
    by rewrite Ha, Hcap, Hread, (js_in_stored _ _ _ _ Hid), <- Hid. }
  split; [exact Habsent|]. split.
  { intros Ha. unfold Puppet.on_Room_receipt. by rewrite Ha. }
  split.
  { intros a Ha Hcap. unfold Puppet.on_Room_receipt. by rewrite Ha, Hcap. }
  split; [apply receipt_needs_adapter|]. split; [exact Hunsaved|]. split.
  { intros calls fuel b w s id s' -> Hcalls Hni Hrun. split.
    - destruct (resolved_room_recorded b w fuel id s roomId s' Hrun) as [prior ->].
      apply (js_get_set roomId id prior). intros ->. apply Hni. compute_done.
    - apply Habsent; [|exact Hni]. by rewrite (Hunsaved calls Hcalls). }
  split.
  - intros w s id Hid. unfold calls_of, sendReadReceipt, bind, get_rooms, js_get.
    rewrite (js_in_stored _ _ _ _ Hid), Hid. cbn. by rewrite drop_app_length.
  - intros w s Hnone Hni. unfold sendReadReceipt, bind, get_rooms.
    by rewrite js_in_absent.
Qed.

Lemma read_receipt_forwarded_for_known_rooms_witness :
  Puppet.on_Room_receipt Deployment.attached (lit "!r1:hs") Deployment.own_receipt
  = [AdapterSendReadReceipt (Some (lit "room1"))]
  /\ Puppet.on_Room_receipt Deployment.attached (lit "!other:hs") Deployment.own_receipt = [].
Proof.
  destruct (read_receipt_forwarded_for_known_rooms Deployment.attached
              (lit "!r1:hs") Deployment.own_receipt eq_refl) as (Hknown & _).
  destruct (read_receipt_forwarded_for_known_rooms Deployment.attached
              (lit "!other:hs") Deployment.own_receipt eq_refl) as (_ & Hunknown & _).
  split.
  - apply (Hknown {| Puppet.has_sendReadReceipt := true |}); by vm_compute.
  - apply Hunknown; [by vm_compute | compute_done].
Defined.

(** C9 fails as stated, in two ways.  As long as no adapter is attached,
    and when the attached adapter has no [sendReadReceipt] member, the
    operator's own read receipt in a room of the session's mapping is not
    forwarded.  And with an adapter attached, the operator's own read
    receipt in a room that resolution has just recorded is not forwarded
    either, as long as [saveThirdPartyRoomId] was not called for it: the
    record that resolution fills is the one [Base.sendReadReceipt] reads,
    not the one the listener reads. *)
Lemma own_read_receipt_not_forwarded :
  (Puppet.thirdPartyRooms Deployment.detached !! lit "!r1:hs" = Some (lit "room1")
   /\ Puppet.read_by Deployment.detached Deployment.own_receipt = true
   /\ Puppet.on_Room_receipt Deployment.detached (lit "!r1:hs") Deployment.own_receipt = []
   /\ Puppet.on_Room_receipt
        (Puppet.setAdapter {| Puppet.has_sendReadReceipt := false |} Deployment.detached)
        (lit "!r1:hs") Deployment.own_receipt = [])
  /\ (let resolution :=
        getOrCreateMatrixRoomFromThirdPartyRoomId 1 Deployment.base (a2b (lit "room1"))
          (Deployment.calm "!r1:hs") st0 in
      fst resolution = Resolved (lit "!r1:hs")
      /\ thirdPartyRooms (snd resolution) !! lit "!r1:hs" = Some (a2b (lit "room1"))
      /\ Puppet.adapter Deployment.unsaved = Some {| Puppet.has_sendReadReceipt := true |}
      /\ Puppet.read_by Deployment.unsaved Deployment.own_receipt = true
      /\ Puppet.on_Room_receipt Deployment.unsaved (lit "!r1:hs") Deployment.own_receipt = []
      /\ calls_of (sendReadReceipt (lit "!r1:hs")) (Deployment.calm "!r1:hs") (snd resolution)
         = [AdapterSendReadReceipt (Some (lit "room1"))]).
Proof. repeat split; by vm_compute. Qed.

(** X11: the first message for a third-party room the homeserver does not
    know.  When the alias lookup is rejected and the adapter's room data has
    no avatar, the resolution makes one room creation (as client, with the
    adapter's name and topic and the derived alias), one join, one power
    grant and one bot leave, in that order, and records the room; it resolves
    to the created room whether the power grant is accepted or rejected.
    The created room is taken not to be called [size], the one name the
    mapping cannot take. *)
Theorem first_contact_creates_room (fuel : nat) (b : Base) (w : World) (s : St)
    (id room : jsstring) (data : RoomData) (e : JsError) :
  let alias := getRoomAliasFromThirdPartyRoomId b id in
  let user := p_credentials_userId (puppet b) in
  w_getRoomIdForAlias w (log s) alias = Rejected e ->
  (forall l, w_getRoomData w l (b2a id) = Resolved data) ->
  truthy_opt (rd_avatarUrl data) = false ->
  (forall l, w_createRoom w l (room_creation b id data) = Resolved room) ->
  (forall l, w_joinRoom w l room = Resolved tt) ->
  (forall l, settles (w_setPowerLevel w l room user 100)) ->
  room <> lit "size" ->
  getOrCreateMatrixRoomFromThirdPartyRoomId (S fuel) b id w s
  = (Resolved room,
     {| log := log s ++ [GetRoomIdForAlias alias; AdapterGetRoomData (b2a id);
                         CreateRoom (room_creation b id data); JoinRoom room;
                         SetPowerLevel room user 100; IntentLeave room];
        thirdPartyRooms := js_set room id (thirdPartyRooms s) |}).
Proof.
  intros alias user Hlookup Hdata Havatar Hcreate Hjoin Hgrant Hroom.
  by apply (first_contact_run b w fuel id room data e s).
Qed.

Lemma first_contact_creates_room_witness :
  fst (getOrCreateMatrixRoomFromThirdPartyRoomId 1 Deployment.base (a2b (lit "room1"))
         (Deployment.world Deployment.not_found Deployment.joins
            (Resolved Deployment.room1) (Resolved None)) st0)
  = Resolved (lit "!new:hs").
Proof.
  exact (f_equal fst
           (first_contact_creates_room 0 Deployment.base
              (Deployment.world Deployment.not_found Deployment.joins
                 (Resolved Deployment.room1) (Resolved None)) st0
              (a2b (lit "room1")) (lit "!new:hs") Deployment.room1
              (MkError (lit "Room alias not found"))
              eq_refl (fun _ => eq_refl) eq_refl (fun _ => eq_refl) (fun _ => eq_refl)
              (fun _ H => ltac:(discriminate H)) ltac:(discriminate))).
Defined.

(** X12: a known alias is never created again.  When the alias lookup
    resolves to a room the puppet can join, the resolution is the lookup,
    the join, the power grant and the bot leave: the adapter's room data is
    not asked for and no room is created.  A room called [size] is the
    exception the mapping makes: recording it throws, so the resolution is
    rejected after the power grant, nothing is recorded and the bot is not
    made to leave. *)
Theorem known_alias_creates_nothing (fuel : nat) (b : Base) (w : World) (s : St)
    (id room : jsstring) :
  let alias := getRoomAliasFromThirdPartyRoomId b id in
  let user := p_credentials_userId (puppet b) in
  w_getRoomIdForAlias w (log s) alias = Resolved room ->
  w_joinRoom w (log s ++ [GetRoomIdForAlias alias]) room = Resolved tt ->
  (forall l, settles (w_setPowerLevel w l room user 100)) ->
  (room <> lit "size" ->
   getOrCreateMatrixRoomFromThirdPartyRoomId (S fuel) b id w s
   = (Resolved room,
      {| log := log s ++ [GetRoomIdForAlias alias; JoinRoom room;
                          SetPowerLevel room user 100; IntentLeave room];
         thirdPartyRooms := js_set room id (thirdPartyRooms s) |}))
  /\ (room = lit "size" ->
      exists e,
        getOrCreateMatrixRoomFromThirdPartyRoomId (S fuel) b id w s
        = (Rejected e,
           {| log := log s ++ [GetRoomIdForAlias alias; JoinRoom room;
                               SetPowerLevel room user 100];
              thirdPartyRooms := thirdPartyRooms s |})).
Proof.
  intros alias user Hlookup Hjoin Hgrant.
  assert (Hfirst : lookup_or_create_room b id w s
                   = (Resolved room,
                      {| log := log s ++ [GetRoomIdForAlias alias];
                         thirdPartyRooms := thirdPartyRooms s |})).
  { unfold lookup_or_create_room, then2, getRoomIdForAlias, call. fold alias.
    by rewrite Hlookup. }
  assert (Hrun : getOrCreateMatrixRoomFromThirdPartyRoomId (S fuel) b id w s
                 = record_and_leave id room w
                     {| log := log s ++ [GetRoomIdForAlias alias; JoinRoom room;
                                         SetPowerLevel room user 100];
                        thirdPartyRooms := thirdPartyRooms s |}).
  { cbn [getOrCreateMatrixRoomFromThirdPartyRoomId].
    rewrite (bind_resolved _ _ _ _ _ _ Hfirst).
    unfold bind at 1. rewrite then2_joinRoom. cbv zeta. cbn [log]. rewrite Hjoin.
    rewrite grant_settled by apply Hgrant. cbn [log thirdPartyRooms].
    by rewrite <- !app_assoc. }
  rewrite Hrun. split.
  - intros Hroom. rewrite record_and_leave_run by assumption.
    cbn [log thirdPartyRooms]. by rewrite <- !app_assoc.
  - intros ->. apply record_and_leave_size.
Qed.

Lemma known_alias_creates_nothing_witness :
  log (snd (getOrCreateMatrixRoomFromThirdPartyRoomId 1 Deployment.base
              (a2b (lit "room1")) (Deployment.calm "!r1:hs") st0))
  = [GetRoomIdForAlias (lit "#net_puppet_me_cm9vbTE=:hs"); JoinRoom (lit "!r1:hs");
     SetPowerLevel (lit "!r1:hs") (lit "@me:hs") 100; IntentLeave (lit "!r1:hs")].
Proof.
  exact (f_equal (fun r => log (snd r))
           (proj1 (known_alias_creates_nothing 0 Deployment.base
                     (Deployment.calm "!r1:hs") st0
                     (a2b (lit "room1")) (lit "!r1:hs") eq_refl eq_refl
                     (fun _ H => ltac:(discriminate H)))
              ltac:(discriminate))).
Defined.

(** X13: when the alias is unknown and the adapter's room data, or the room
    creation, is rejected, the resolution is rejected with that reason;
    the puppet joins nothing and nothing is recorded. *)
Theorem failed_creation_fails_resolution (fuel : nat) (b : Base) (w : World) (s : St)
    (id : jsstring) (e0 e : JsError) :
  let alias := getRoomAliasFromThirdPartyRoomId b id in
  w_getRoomIdForAlias w (log s) alias = Rejected e0 ->
  (w_getRoomData w (log s ++ [GetRoomIdForAlias alias]) (b2a id) = Rejected e ->
   getOrCreateMatrixRoomFromThirdPartyRoomId (S fuel) b id w s
   = (Rejected e,
      {| log := log s ++ [GetRoomIdForAlias alias; AdapterGetRoomData (b2a id)];
         thirdPartyRooms := thirdPartyRooms s |}))
  /\ (forall data,
        w_getRoomData w (log s ++ [GetRoomIdForAlias alias]) (b2a id) = Resolved data ->
        w_createRoom w (log s ++ [GetRoomIdForAlias alias; AdapterGetRoomData (b2a id)])
          (room_creation b id data) = Rejected e ->
        getOrCreateMatrixRoomFromThirdPartyRoomId (S fuel) b id w s
        = (Rejected e,
           {| log := log s ++ [GetRoomIdForAlias alias; AdapterGetRoomData (b2a id);
                               CreateRoom (room_creation b id data)];
              thirdPartyRooms := thirdPartyRooms s |})).
Proof.
  intros alias Hlookup.
  split; [intros Hdata | intros data Hdata Hcreate];
    cbn [getOrCreateMatrixRoomFromThirdPartyRoomId];
    unfold bind at 1; unfold lookup_or_create_room, then2, getRoomIdForAlias, call;
    fold alias; rewrite Hlookup;
    unfold bind, adapter_getRoomData, createRoom, call; cbn [log thirdPartyRooms];
    rewrite Hdata; cbn [log thirdPartyRooms]; rewrite <- ?app_assoc; cbn [app].
  - reflexivity.
  - fold (room_creation b id data). by rewrite Hcreate.
Qed.

Lemma failed_creation_fails_resolution_witness :
  getOrCreateMatrixRoomFromThirdPartyRoomId 1 Deployment.base (a2b (lit "room1"))
    Deployment.adapter_down st0
  = (Rejected (MkError (lit "adapter down")),
     {| log := [GetRoomIdForAlias (lit "#net_puppet_me_cm9vbTE=:hs");
                AdapterGetRoomData (lit "room1")];
        thirdPartyRooms := ∅ |}).
Proof.
  exact (proj1 (failed_creation_fails_resolution 0 Deployment.base Deployment.adapter_down
                  st0 (a2b (lit "room1")) (MkError (lit "Room alias not found"))
                  (MkError (lit "adapter down")) eq_refl) eq_refl).
Defined.

(** X14: every resolution that resolves has recorded its room: the room is
    a key of [thirdPartyRooms] and its value is the encoded third-party room
    id the resolution was asked for. *)
Theorem resolved_room_is_recorded (fuel : nat) (b : Base) (w : World) (s s' : St)
    (id room : jsstring) :
  getOrCreateMatrixRoomFromThirdPartyRoomId fuel b id w s = (Resolved room, s') ->
  room <> lit "__proto__" ->
  thirdPartyRooms s' !! room = Some id
  /\ js_in map_prototype_names room (thirdPartyRooms s') = true.
Proof.
  intros Hrun Hroom.
  destruct (resolved_room_recorded b w fuel id s room s' Hrun) as [prior ->].
  assert (Hget : js_set room id prior !! room = Some id)
    by exact (js_get_set room id prior Hroom).
  split; [exact Hget|]. by eapply js_in_stored.
Qed.

Lemma resolved_room_is_recorded_witness :
  thirdPartyRooms
    (snd (getOrCreateMatrixRoomFromThirdPartyRoomId 1 Deployment.base (a2b (lit "room1"))
            (Deployment.calm "!r1:hs") st0)) !! lit "!r1:hs"
  = Some (a2b (lit "room1")).
Proof.
  refine (proj1 (resolved_room_is_recorded 1 Deployment.base (Deployment.calm "!r1:hs")
                   st0 _ (a2b (lit "room1")) (lit "!r1:hs") _ _)).
  - vm_compute. reflexivity.
  - discriminate.
Defined.

(** X15: after a room was resolved for an ASCII third-party room id,
    [sendReadReceipt] for that room calls the adapter's read-receipt
    operation once, with the third-party room id as the adapter gave it. *)
Theorem read_receipt_after_resolution (fuel : nat) (b : Base) (w w' : World) (s s' : St)
    (x room : jsstring) :
  is_ascii x ->
  getOrCreateMatrixRoomFromThirdPartyRoomId fuel b (a2b x) w s = (Resolved room, s') ->
  room <> lit "__proto__" ->
  calls_of (sendReadReceipt room) w' s' = [AdapterSendReadReceipt (Some x)].
Proof.
  intros Hx Hrun Hroom.
  destruct (resolved_room_recorded b w fuel (a2b x) s room s' Hrun) as [prior Hrec].
  assert (Hget : thirdPartyRooms s' !! room = Some (a2b x))
    by (rewrite Hrec; exact (js_get_set room (a2b x) prior Hroom)).
  unfold calls_of, sendReadReceipt, bind, get_rooms, js_get.
  rewrite (js_in_stored _ _ _ _ Hget), Hget. cbn [call snd log].
  rewrite drop_app_length. unfold b2a, a2b. by rewrite decode_encode_ascii.
Qed.

Lemma read_receipt_after_resolution_witness :
  calls_of (sendReadReceipt (lit "!r1:hs")) (Deployment.calm "!r1:hs")
    (snd (getOrCreateMatrixRoomFromThirdPartyRoomId 1 Deployment.base (a2b (lit "room1"))
            (Deployment.calm "!r1:hs") st0))
  = [AdapterSendReadReceipt (Some (lit "room1"))].
Proof.
  refine (read_receipt_after_resolution 1 Deployment.base (Deployment.calm "!r1:hs")
            (Deployment.calm "!r1:hs") st0 _ (lit "room1") (lit "!r1:hs") _ _ _).
  - apply is_asciib_spec. reflexivity.
  - vm_compute. reflexivity.
  - discriminate.
Defined.

(* ------------------------------------------------------------------ *)
(** ** What leaves the room record alone *)
(* ------------------------------------------------------------------ *)

Section KeepsRooms.
Context (w : World).

Lemma keeps_ret {A} (a : A) : keeps_rooms w (ret a).
Proof. by intros s. Qed.

Lemma keeps_reject {A} e : keeps_rooms w (@reject A e).
Proof. by intros s. Qed.

Lemma keeps_never {A} : keeps_rooms w (@never A).
Proof. by intros s. Qed.

Lemma keeps_ask {A} (q : World -> list Call -> A) : keeps_rooms w (ask q).
Proof. by intros s. Qed.

Lemma keeps_call {A} c (reply : World -> list Call -> Outcome A) :
  keeps_rooms w (call c reply).
Proof. by intros s. Qed.

Lemma keeps_then2 {A B} (m : M A) (k : A -> M B) (h : JsError -> M B) :
  keeps_rooms w m -> (forall a, keeps_rooms w (k a)) -> (forall e, keeps_rooms w (h e)) ->
  keeps_rooms w (then2 m k h).
Proof.
  intros Hm Hk Hh s. unfold then2. specialize (Hm s).
  destruct (m w s) as [[a|e|] s1]; cbn [snd] in *;
    [by rewrite Hk | by rewrite Hh | assumption].
Qed.

Lemma keeps_bind {A B} (m : M A) (k : A -> M B) :
  keeps_rooms w m -> (forall a, keeps_rooms w (k a)) -> keeps_rooms w (bind m k).
Proof.
  intros Hm Hk s. unfold bind. specialize (Hm s).
  destruct (m w s) as [[a|e|] s1]; cbn [snd] in *; [by rewrite Hk | assumption..].
Qed.

Lemma keeps_catch {A} (m : M A) (h : JsError -> M A) :
  keeps_rooms w m -> (forall e, keeps_rooms w (h e)) -> keeps_rooms w (catch m h).
Proof. intros Hm Hh. apply keeps_then2; [assumption | intros; apply keeps_ret | assumption]. Qed.

Lemma keeps_detached {A} (m : M A) : keeps_rooms w m -> keeps_rooms w (detached m).
Proof. intros Hm s. exact (Hm s). Qed.

End KeepsRooms.

Ltac keeps_step :=
  first
    [ solve [auto 2 with nocore]
    | lazymatch goal with
      | |- keeps_rooms _ (bind _ _) => apply keeps_bind; [|intros ?]
      | |- keeps_rooms _ (then2 _ _ _) => apply keeps_then2; [|intros ?|intros ?]
      | |- keeps_rooms _ (catch _ _) => apply keeps_catch; [|intros ?]
      | |- keeps_rooms _ (detached _) => apply keeps_detached
      | |- keeps_rooms _ (ret _) => apply keeps_ret
      | |- keeps_rooms _ (reject _) => apply keeps_reject
      | |- keeps_rooms _ never => apply keeps_never
      | |- keeps_rooms _ (ask _) => apply keeps_ask
      | |- keeps_rooms _ (call _ _) => apply keeps_call
      | |- keeps_rooms _ (if ?c then _ else _) => destruct c
      | |- keeps_rooms _ (match ?x with _ => _ end) => destruct x
      end ].

Ltac keeps_call :=
  lazymatch goal with
  | |- keeps_rooms _ ?m => let h := head_of m in unfold h; apply keeps_call
  end.

Ltac keeps := repeat keeps_step; try keeps_call.

Section KeepsRoomsBase.
Context (b : Base) (w : World).

Lemma keeps_lookup_or_create_status_room localpart :
  keeps_rooms w (lookup_or_create_status_room b localpart).
Proof.
  unfold lookup_or_create_status_room, grantPuppetMaxPowerLevel, setRoomAvatarFromDisk.
  keeps.
Qed.

Lemma keeps_getStatusRoomId fuel o : keeps_rooms w (getStatusRoomId fuel b o).
Proof.
  induction fuel as [|fuel IH]; cbn [getStatusRoomId]; [apply keeps_never|].
  pose proof keeps_lookup_or_create_status_room.
  unfold grantPuppetMaxPowerLevel. keeps.
Qed.

Lemma keeps_sendStatusMsg fuel o args : keeps_rooms w (sendStatusMsg fuel b o args).
Proof. unfold sendStatusMsg. pose proof keeps_getStatusRoomId. keeps. Qed.

Lemma keeps_handleMatrixMessageEvent fuel data :
  keeps_rooms w (handleMatrixMessageEvent fuel b data).
Proof.
  unfold handleMatrixMessageEvent, getThirdPartyRoomIdFromMatrixRoomId, new_RegExp.
  pose proof keeps_sendStatusMsg. keeps.
Qed.

End KeepsRoomsBase.

(** X16: the status room is not a recorded room.  Resolving the status room,
    sending a status message and handling a home-network event never change
    [thirdPartyRooms]: only the resolution of a third-party room, on the
    inbound side, records anything. *)
Theorem only_inbound_resolution_records (fuel : nat) (b : Base) (w : World) :
  (forall o, keeps_rooms w (getStatusRoomId fuel b o))
  /\ (forall o args, keeps_rooms w (sendStatusMsg fuel b o args))
  /\ (forall data, keeps_rooms w (handleMatrixEvent fuel b data)).
Proof.
  repeat split.
  - intros. apply keeps_getStatusRoomId.
  - intros. apply keeps_sendStatusMsg.
  - intros data. unfold handleMatrixEvent.
    pose proof (keeps_handleMatrixMessageEvent b w). keeps.
Qed.

(** X17: the first resolution of the status room.  When its alias is unknown
    the room is created by the bot, not as client, named after the service;
    the service icon, if the adapter declares one, is read from disk,
    uploaded and set as the room avatar before the puppet joins; then comes
    the join and the power grant.  If the icon cannot be read the resolution
    is rejected, with the room created and not joined. *)
Theorem status_room_first_resolution (fuel : nat) (b : Base) (w : World) (s : St)
    (room path : jsstring) (e : JsError) :
  let localpart := getRoomAliasLocalPartFromThirdPartyRoomId b (lit "status_room") in
  let alias := makeRoomAlias (puppet b) localpart in
  let user := p_credentials_userId (puppet b) in
  w_getRoomIdForAlias w (log s) alias = Rejected e ->
  (forall l, w_createRoom w l (status_room_creation b) = Resolved room) ->
  serviceIconPath (adapter b) = Some path -> truthy path = true ->
  (forall l, w_joinRoom w l room = Resolved tt) ->
  (forall l, settles (w_setPowerLevel w l room user 100)) ->
  (forall icon uploaded,
     (forall l, w_localdisk w l path = Resolved icon) ->
     (forall l o, w_uploadContent w l Bot (bt_buffer icon) o = Resolved uploaded) ->
     (forall l, w_setRoomAvatar w l room (content_uri uploaded) = Resolved tt) ->
     getStatusRoomId (S fuel) b None w s
     = (Resolved room,
        {| log := log s ++ [GetRoomIdForAlias alias; CreateRoom (status_room_creation b);
                            LocalDisk path;
                            UploadContent Bot (bt_buffer icon)
                              {| uo_name := w_basename w path; uo_type := bt_type icon |};
                            SetRoomAvatar room (content_uri uploaded);
                            JoinRoom room; SetPowerLevel room user 100];
           thirdPartyRooms := thirdPartyRooms s |}))
  /\ (forall e',
        (forall l, w_localdisk w l path = Rejected e') ->
        getStatusRoomId (S fuel) b None w s
        = (Rejected e',
           {| log := log s ++ [GetRoomIdForAlias alias; CreateRoom (status_room_creation b);
                               LocalDisk path];
              thirdPartyRooms := thirdPartyRooms s |})).
Proof.
  intros localpart alias user Hlookup Hcreate Hicon Hpath Hjoin Hgrant.
  assert (Hfirst :
    lookup_or_create_status_room b localpart w s
    = bind (setRoomAvatarFromDisk room path) (fun _ => ret room) w
        {| log := log s ++ [GetRoomIdForAlias alias; CreateRoom (status_room_creation b)];
           thirdPartyRooms := thirdPartyRooms s |}).
  { unfold lookup_or_create_status_room, then2, getRoomIdForAlias, call. fold alias.
    rewrite Hlookup. unfold bind at 1, createRoom, call.
    fold localpart. fold (status_room_creation b). rewrite Hcreate, Hicon.
    cbn [truthy_opt default from_option Datatypes.id log thirdPartyRooms].
    rewrite Hpath. by rewrite <- app_assoc. }
  split.
  - intros icon uploaded Hdisk Hupload Havatar.
    cbn [getStatusRoomId]. cbv zeta.
    change (status_alias_localpart b None) with localpart. fold alias.
    unfold bind at 1. rewrite Hfirst.
    unfold setRoomAvatarFromDisk, bind at 1 2 3 4, localdisk_getBufferAndType,
      uploadContent, intentSetRoomAvatar, ask, call, ret.
    cbn [log thirdPartyRooms]. rewrite Hdisk. cbn [log thirdPartyRooms].
    rewrite Hupload. cbn [log thirdPartyRooms]. rewrite Havatar.
    rewrite then2_joinRoom. cbv zeta. rewrite Hjoin.
    rewrite grant_settled by apply Hgrant. cbn [log thirdPartyRooms].
    by rewrite <- !app_assoc.
  - intros e' Hdisk.
    cbn [getStatusRoomId]. cbv zeta.
    change (status_alias_localpart b None) with localpart. fold alias.
    unfold bind at 1. rewrite Hfirst.
    unfold setRoomAvatarFromDisk, bind, localdisk_getBufferAndType, call.
    cbn [log thirdPartyRooms]. rewrite Hdisk. cbn [log thirdPartyRooms].
    by rewrite <- !app_assoc.
Qed.

Lemma status_room_first_resolution_witness :
  getStatusRoomId 1 Scenes.branded None Scenes.fresh st0
  = (Resolved (lit "!new:hs"),
     {| log := [GetRoomIdForAlias (lit "#net_puppet_me_status_room:hs");
                CreateRoom (status_room_creation Scenes.branded);
                LocalDisk (lit "/srv/net.png");
                UploadContent Bot (bt_buffer Deployment.png)
                  {| uo_name := lit "/srv/net.png"; uo_type := lit "image/png" |};
                SetRoomAvatar (lit "!new:hs") (lit "mxc://hs/avatar");
                JoinRoom (lit "!new:hs");
                SetPowerLevel (lit "!new:hs") (lit "@me:hs") 100];
        thirdPartyRooms := ∅ |}).
Proof.
  exact (proj1 (status_room_first_resolution 0 Scenes.branded Scenes.fresh st0
                  (lit "!new:hs") (lit "/srv/net.png")
                  (MkError (lit "Room alias not found"))
                  eq_refl (fun _ => eq_refl) eq_refl eq_refl (fun _ => eq_refl)
                  (fun _ H => ltac:(discriminate H)))
               Deployment.png
               {| content_uri := lit "mxc://hs/avatar"; up_size := 4 |}
               (fun _ => eq_refl) (fun _ _ => eq_refl) (fun _ => eq_refl)).
Defined.

(* ------------------------------------------------------------------ *)
(** ** Inbound relay: from the adapter to the home network *)
(* ------------------------------------------------------------------ *)

Lemma getIntent_result b id name avatar w s ghost s' :
  getIntentFromThirdPartySenderId b id name avatar w s = (Resolved ghost, s') ->
  ghost = getGhostUserFromThirdPartySenderId b id.
Proof.
  unfold getIntentFromThirdPartySenderId, bind, ret. intros H.
  by repeat case_match; simplify_eq.
Qed.

(** A handler prepared for a sender has just joined the sender's ghost to
    the status room and to the target room, in that order. *)
Lemma prepare_ghost fuel b params w s h s1 sid :
  pm_senderId params = Some sid ->
  prepareMessageHandler fuel b params w s = (Resolved h, s1) ->
  let ghost := Ghost (getGhostUserFromThirdPartySenderId b sid) in
  client h = ghost /\ ignore h = false
  /\ exists before status,
       log s1 = before ++ [IntentJoin ghost status; IntentJoin ghost (matrixRoomId h)].
Proof.
  intros Hsid. unfold prepareMessageHandler. rewrite Hsid.
  unfold bind, ask, ret, intentJoin, call. intros H.
  repeat case_match; simplify_eq.
  match goal with
  | Hi : getIntentFromThirdPartySenderId _ _ _ _ _ _ = (Resolved ?g, _) |- _ =>
    apply getIntent_result in Hi; subst g
  end.
  cbn [client ignore matrixRoomId log]. repeat split.
  eexists _, _. by rewrite <- app_assoc.
Qed.

Lemma text_payload_sender payload sid :
  tm_senderId payload = Some sid -> truthy sid = true ->
  pm_senderId (text_prep (text_payload_encoded payload)) = Some (a2b sid).
Proof.
  intros Hs Ht. cbn [text_prep text_payload_encoded pm_senderId tm_senderId]. rewrite Hs.
  cbn [truthy_opt option_map]. by rewrite Ht.
Qed.

Lemma image_payload_sender payload sid :
  ti_senderId payload = Some sid -> truthy sid = true ->
  pm_senderId (image_prep (image_payload_encoded payload)) = Some (a2b sid).
Proof.
  intros Hs Ht. cbn [image_prep image_payload_encoded pm_senderId ti_senderId]. rewrite Hs.
  cbn [truthy_opt option_map]. by rewrite Ht.
Qed.

(** X18: a third-party text of another sender.  Once the handler is
    prepared, the last things done are: the sender's ghost joins the status
    room, joins the target room, and then sends the text there, as a plain
    [m.text] body made by the sender's tagger, or with the HTML variant as
    formatted body when the payload has one.  If the send is rejected the
    handler still resolves. *)
Theorem ghost_joins_then_sends (fuel : nat) (b : Base) (w : World) (s s1 : St)
    (payload : ThirdPartyMessagePayload) (sid : jsstring) (h : MessageHandler) :
  tm_senderId payload = Some sid -> truthy sid = true ->
  prepareMessageHandler fuel b (text_prep (text_payload_encoded payload)) w s
  = (Resolved h, s1) ->
  let ghost := Ghost (getGhostUserFromThirdPartySenderId b (a2b sid)) in
  let room := matrixRoomId h in
  let content :=
    relayed_text (w_autoTagger w (Some (a2b sid)) b (tm_text payload)) (tm_html payload) in
  fst (handleThirdPartyRoomMessage fuel b payload w s) <> Never
  -> fst (handleThirdPartyRoomMessage fuel b payload w s) = Resolved tt
     /\ exists before status rest,
          log (snd (handleThirdPartyRoomMessage fuel b payload w s))
          = before ++ [IntentJoin ghost status; IntentJoin ghost room;
                       SendMessage ghost room content] ++ rest
          /\ (w_sendMessage w (log s1) ghost room content = Resolved tt -> rest = [])
          /\ Forall (fun c => infrastructure c = true) rest.
Proof.
  intros Hsid Htruthy Hprep ghost room content.
  pose proof (text_payload_sender payload sid Hsid Htruthy) as Hsender.
  destruct (prepare_ghost fuel b _ w s h s1 (a2b sid) Hsender Hprep)
    as (Hclient & Hignore & before & status & Hlog).
  pose proof (prepareMessageHandler_tag fuel b _ w s h s1 Hprep) as Htag.
  rewrite Hsender in Htag.
  assert (Hrun : handleThirdPartyRoomMessage fuel b payload w s
                 = catch (sendMessage ghost room content)
                     (fun err =>
                        detached (sendStatusMsg fuel b
                                    {| fixedWidthOutput := None;
                                       roomAliasLocalPart := None |}
                                    [VError err;
                                     VTextPayload (text_payload_encoded payload)])) w s1).
  { unfold handleThirdPartyRoomMessage, catch, then2 at 1.
    rewrite (bind_resolved _ _ _ _ _ _ Hprep), Hignore, Hclient, Htag.
    unfold then2, content, relayed_text, room.
    cbn [text_payload_encoded tm_html tm_text].
    by destruct (truthy_opt (tm_html payload)). }
  rewrite Hrun. unfold catch, then2, sendMessage, call.
  destruct (w_sendMessage w (log s1) ghost room content) as [[]|e|] eqn:Hsend;
    intros Hsettles.
  - split; [reflexivity|]. exists before, status, [].
    cbn [ret snd log]. rewrite Hlog, <- app_assoc. repeat split. constructor.
  - destruct (report_rejected fuel b w
                {| log := log s1 ++ [SendMessage ghost room content];
                   thirdPartyRooms := thirdPartyRooms s1 |}
                [VError e; VTextPayload (text_payload_encoded payload)])
      as [Hres (rest & Hrest_log & Hrest)].
    cbv zeta in Hres, Hrest_log. split; [exact Hres|].
    exists before, status, rest. rewrite Hrest_log. cbn [log].
    rewrite Hlog, <- !app_assoc. repeat split; [discriminate | exact Hrest].
  - by cbn [fst] in Hsettles.
Qed.

Lemma ghost_joins_then_sends_witness :
  fst (handleThirdPartyRoomMessage 1 Deployment.base Deployment.text_payload
         (Deployment.calm "!r1:hs") st0) = Resolved tt.
Proof.
  pose (prepared := prepareMessageHandler 1 Deployment.base
                      (text_prep (text_payload_encoded Deployment.text_payload))
                      (Deployment.calm "!r1:hs") st0).
  refine (proj1 (ghost_joins_then_sends 1 Deployment.base (Deployment.calm "!r1:hs") st0
                   (snd prepared) Deployment.text_payload (lit "ann")
                   {| mh_tag := Deployment.autoTagger (Some (a2b (lit "ann"))) Deployment.base;
                      matrixRoomId := lit "!r1:hs";
                      client := Ghost (getGhostUserFromThirdPartySenderId Deployment.base
                                         (a2b (lit "ann")));
                      ignore := false |}
                   eq_refl eq_refl _ _)).
  - by vm_compute.
  - by vm_compute.
Defined.

(* ------------------------------------------------------------------ *)
(** ** Inbound pictures *)
(* ------------------------------------------------------------------ *)

Section Pictures.
Variables (fuel : nat) (b : Base) (w : World) (s s1 : St).
Variables (payload : ThirdPartyImageMessagePayload) (h : MessageHandler).
Hypothesis Hprep :
  prepareMessageHandler fuel b (image_prep (image_payload_encoded payload)) w s
  = (Resolved h, s1).
Hypothesis Hignore : ignore h = false.

Lemma image_handler_prepared :
  handleThirdPartyRoomImageMessage fuel b payload w s
  = (let p := image_payload_encoded payload in
     let uploaded (r : Uploaded) :=
       sendImageMessage (client h) (matrixRoomId h) (content_uri r)
         {| io_mimetype := ti_mimetype p; io_h := ti_h p; io_w := ti_w p;
            io_size := up_size r |}
         (mh_tag h (ti_text p)) in
     let failed (_ : JsError) :=
       sendMessage (client h) (matrixRoomId h)
         (fallback_text
            (mh_tag h (url_or_path_or_text (ti_url p) (ti_path p) (ti_text p)))) in
     if truthy_opt (ti_url p) then
       detached
         (then2 (bt <- download_getBufferAndType (default [] (ti_url p));;
                 upload (client h) (ti_text p) (ti_mimetype p) (Some (bt_buffer bt))
                   (Some (or_else (ti_mimetype p) (Some (bt_type bt)))))
                uploaded failed)
     else if truthy_opt (ti_path p) then
       detached (fs_readFile (default [] (ti_path p));;
                 upload (client h) (ti_text p) (ti_mimetype p) (ti_buffer p) None);;
       reject not_a_function
     else
       match ti_buffer p with
       | Some _ =>
         detached (then2 (upload (client h) (ti_text p) (ti_mimetype p) (ti_buffer p) None)
                         uploaded failed)
       | None => reject not_a_function
       end) w s1.
Proof using Hprep Hignore.
  unfold handleThirdPartyRoomImageMessage. cbv zeta.
  by rewrite (bind_resolved _ _ _ _ _ _ Hprep), Hignore.
Qed.

End Pictures.

(** X19: a picture given by URL.  Once the handler is prepared, the picture
    is downloaded, the downloaded bytes are uploaded with the payload's MIME
    type, or the downloaded one when the payload has none, and one image
    message is sent to the room by the prepared sender: it points to the
    uploaded content, carries the payload's dimensions and the size the
    upload reported, and its caption is the tagged text. *)
Theorem picture_by_url_is_fetched_and_sent (fuel : nat) (b : Base) (w : World)
    (s s1 : St) (payload : ThirdPartyImageMessagePayload) (h : MessageHandler)
    (url : jsstring) (bt : BufferAndType) (r : Uploaded) :
  prepareMessageHandler fuel b (image_prep (image_payload_encoded payload)) w s
  = (Resolved h, s1) ->
  ignore h = false ->
  ti_url payload = Some url -> truthy url = true ->
  let fetch := Download url in
  let store :=
    UploaderUpload (client h) (ti_text payload) (ti_mimetype payload)
      (Some (bt_buffer bt)) (Some (or_else (ti_mimetype payload) (Some (bt_type bt)))) in
  let send :=
    SendImageMessage (client h) (matrixRoomId h) (content_uri r)
      {| io_mimetype := ti_mimetype payload; io_h := ti_h payload; io_w := ti_w payload;
         io_size := up_size r |}
      (mh_tag h (ti_text payload)) in
  w_download w (log s1) url = Resolved bt ->
  w_upload w (log s1 ++ [fetch]) (client h) (ti_text payload) (ti_mimetype payload)
    (Some (bt_buffer bt)) (Some (or_else (ti_mimetype payload) (Some (bt_type bt))))
  = Resolved r ->
  handleThirdPartyRoomImageMessage fuel b payload w s
  = (Resolved tt,
     {| log := log s1 ++ [fetch; store; send]; thirdPartyRooms := thirdPartyRooms s1 |}).
Proof.
  intros Hprep Hignore Hurl Htruthy fetch store send Hfetch Hstore.
  rewrite (image_handler_prepared fuel b w s s1 payload h Hprep Hignore). cbv zeta.
  cbn [image_payload_encoded ti_url ti_text ti_mimetype ti_h ti_w ti_path ti_buffer].
  rewrite Hurl. cbn [truthy_opt default from_option Datatypes.id]. rewrite Htruthy.
  unfold detached, then2, bind, download_getBufferAndType, upload, sendImageMessage, call.
  rewrite Hfetch. cbn [log thirdPartyRooms]. fold fetch. rewrite Hstore.
  cbn [snd log thirdPartyRooms]. by rewrite <- !app_assoc.
Qed.

Lemma picture_by_url_is_fetched_and_sent_witness :
  fst (handleThirdPartyRoomImageMessage 1 Deployment.base Scenes.cat_by_url
         (Deployment.calm "!r1:hs") st0)
  = Resolved tt.
Proof.
  pose (prepared :=
          prepareMessageHandler 1 Deployment.base
            (image_prep (image_payload_encoded Scenes.cat_by_url))
            (Deployment.calm "!r1:hs") st0).
  refine (f_equal fst
            (picture_by_url_is_fetched_and_sent 1 Deployment.base (Deployment.calm "!r1:hs")
               st0 (snd prepared) Scenes.cat_by_url Scenes.own_handler
               (lit "http://cdn/cat.png") Deployment.png
               {| content_uri := lit "mxc://hs/image"; up_size := 4 |}
               _ eq_refl eq_refl eq_refl eq_refl eq_refl)).
  by vm_compute.
Defined.

(** X20: a picture by URL that cannot be fetched or stored.  When the
    download is rejected, or the upload of the downloaded bytes is, the
    prepared sender sends one plain text message whose body is the tagged
    URL; no image message is sent, a rejected download is followed by no
    upload, and the handler resolves. *)
Theorem unfetched_picture_becomes_link (fuel : nat) (b : Base) (w : World)
    (s s1 : St) (payload : ThirdPartyImageMessagePayload) (h : MessageHandler)
    (url : jsstring) (e : JsError) :
  prepareMessageHandler fuel b (image_prep (image_payload_encoded payload)) w s
  = (Resolved h, s1) ->
  ignore h = false ->
  ti_url payload = Some url -> truthy url = true ->
  let fetch := Download url in
  let store (bt : BufferAndType) :=
    UploaderUpload (client h) (ti_text payload) (ti_mimetype payload)
      (Some (bt_buffer bt)) (Some (or_else (ti_mimetype payload) (Some (bt_type bt)))) in
  let link := SendMessage (client h) (matrixRoomId h) (fallback_text (mh_tag h url)) in
  (w_download w (log s1) url = Rejected e
   -> handleThirdPartyRoomImageMessage fuel b payload w s
      = (Resolved tt,
         {| log := log s1 ++ [fetch; link]; thirdPartyRooms := thirdPartyRooms s1 |}))
  /\ (forall bt,
        w_download w (log s1) url = Resolved bt ->
        w_upload w (log s1 ++ [fetch]) (client h) (ti_text payload) (ti_mimetype payload)
          (Some (bt_buffer bt)) (Some (or_else (ti_mimetype payload) (Some (bt_type bt))))
        = Rejected e ->
        handleThirdPartyRoomImageMessage fuel b payload w s
        = (Resolved tt,
           {| log := log s1 ++ [fetch; store bt; link];
              thirdPartyRooms := thirdPartyRooms s1 |})).
Proof.
  intros Hprep Hignore Hurl Htruthy fetch store link.
  rewrite (image_handler_prepared fuel b w s s1 payload h Hprep Hignore). cbv zeta.
  cbn [image_payload_encoded ti_url ti_text ti_mimetype ti_h ti_w ti_path ti_buffer].
  rewrite Hurl. cbn [truthy_opt default from_option Datatypes.id]. rewrite Htruthy.
  unfold url_or_path_or_text. cbn [truthy_opt default from_option Datatypes.id].
  rewrite Htruthy.
  unfold detached, then2, bind, download_getBufferAndType, upload, sendMessage, call.
  split.
  - intros Hfetch. rewrite Hfetch. cbn [snd log thirdPartyRooms].
    by rewrite <- !app_assoc.
  - intros bt Hfetch Hstore. rewrite Hfetch. cbn [log thirdPartyRooms]. fold fetch.
    rewrite Hstore. cbn [snd log thirdPartyRooms]. by rewrite <- !app_assoc.
Qed.

Lemma unfetched_picture_becomes_link_witness :
  fst (handleThirdPartyRoomImageMessage 1 Deployment.base Scenes.cat_by_url
         (Scenes.with_download
            (fun _ _ => Rejected (MkError (lit "404")))
            (Deployment.calm "!r1:hs")) st0)
  = Resolved tt.
Proof.
  pose (w := Scenes.with_download
               (fun _ _ => Rejected (MkError (lit "404")))
               (Deployment.calm "!r1:hs")).
  pose (prepared :=
          prepareMessageHandler 1 Deployment.base
            (image_prep (image_payload_encoded Scenes.cat_by_url)) w st0).
  refine (f_equal fst
            (proj1 (unfetched_picture_becomes_link 1 Deployment.base w
                      st0 (snd prepared) Scenes.cat_by_url Scenes.own_handler
                      (lit "http://cdn/cat.png") (MkError (lit "404"))
                      _ eq_refl eq_refl eq_refl)
               eq_refl)).
  by vm_compute.
Defined.

(** X21: a picture given by its bytes only (no URL, no path).  The bytes
    are uploaded as they are, with no options; when the upload resolves one
    image message is sent with the uploaded content, the payload's
    dimensions, the reported size and the tagged text as caption; when the
    upload is rejected one plain text message with the tagged text is sent
    instead. *)
Theorem picture_by_bytes_is_stored_and_sent (fuel : nat) (b : Base) (w : World)
    (s s1 : St) (payload : ThirdPartyImageMessagePayload) (h : MessageHandler)
    (bytes : list Z) :
  prepareMessageHandler fuel b (image_prep (image_payload_encoded payload)) w s
  = (Resolved h, s1) ->
  ignore h = false ->
  truthy_opt (ti_url payload) = false -> truthy_opt (ti_path payload) = false ->
  ti_buffer payload = Some bytes ->
  let store :=
    UploaderUpload (client h) (ti_text payload) (ti_mimetype payload) (Some bytes) None in
  let reply :=
    w_upload w (log s1) (client h) (ti_text payload) (ti_mimetype payload)
      (Some bytes) None in
  let send (r : Uploaded) :=
    SendImageMessage (client h) (matrixRoomId h) (content_uri r)
      {| io_mimetype := ti_mimetype payload; io_h := ti_h payload; io_w := ti_w payload;
         io_size := up_size r |}
      (mh_tag h (ti_text payload)) in
  let text :=
    SendMessage (client h) (matrixRoomId h) (fallback_text (mh_tag h (ti_text payload))) in
  (forall r, reply = Resolved r ->
     handleThirdPartyRoomImageMessage fuel b payload w s
     = (Resolved tt,
        {| log := log s1 ++ [store; send r]; thirdPartyRooms := thirdPartyRooms s1 |}))
  /\ (forall e, reply = Rejected e ->
        handleThirdPartyRoomImageMessage fuel b payload w s
        = (Resolved tt,
           {| log := log s1 ++ [store; text]; thirdPartyRooms := thirdPartyRooms s1 |})).
Proof.
  intros Hprep Hignore Hurl Hpath Hbytes store reply send text.
  rewrite (image_handler_prepared fuel b w s s1 payload h Hprep Hignore). cbv zeta.
  unfold url_or_path_or_text.
  cbn [image_payload_encoded ti_url ti_text ti_mimetype ti_h ti_w ti_path ti_buffer].
  rewrite Hurl, Hpath, Hbytes.
  unfold detached, then2, upload, sendMessage, sendImageMessage, call. fold reply.
  split.
  - intros r Hr. rewrite Hr. cbn [snd log thirdPartyRooms]. by rewrite <- !app_assoc.
  - intros e He. rewrite He. cbn [snd log thirdPartyRooms]. by rewrite <- !app_assoc.
Qed.

Lemma picture_by_bytes_is_stored_and_sent_witness :
  fst (handleThirdPartyRoomImageMessage 1 Deployment.base Scenes.cat_by_bytes
         (Deployment.calm "!r1:hs") st0)
  = Resolved tt.
Proof.
  pose (prepared :=
          prepareMessageHandler 1 Deployment.base
            (image_prep (image_payload_encoded Scenes.cat_by_bytes))
            (Deployment.calm "!r1:hs") st0).
  refine (f_equal fst
            (proj1 (picture_by_bytes_is_stored_and_sent 1 Deployment.base
                      (Deployment.calm "!r1:hs") st0 (snd prepared) Scenes.cat_by_bytes
                      Scenes.own_handler [137; 80; 78; 71]
                      _ eq_refl eq_refl eq_refl eq_refl)
               {| content_uri := lit "mxc://hs/image"; up_size := 4 |} eq_refl)).
  by vm_compute.
Defined.

(** X22: the picture handler does not wait for the picture.  Once the
    handler is prepared for a picture that has a URL, or bytes and no path,
    its promise resolves, and the room mapping is as the preparation left
    it, whatever the download, the upload and the send do: a rejected or
    never answered send is not seen by the caller. *)
Theorem picture_relay_is_not_awaited (fuel : nat) (b : Base) (w : World)
    (s s1 : St) (payload : ThirdPartyImageMessagePayload) (h : MessageHandler) :
  prepareMessageHandler fuel b (image_prep (image_payload_encoded payload)) w s
  = (Resolved h, s1) ->
  ignore h = false ->
  truthy_opt (ti_url payload) = true
  \/ (truthy_opt (ti_path payload) = false /\ ti_buffer payload <> None) ->
  fst (handleThirdPartyRoomImageMessage fuel b payload w s) = Resolved tt
  /\ thirdPartyRooms (snd (handleThirdPartyRoomImageMessage fuel b payload w s))
     = thirdPartyRooms s1.
Proof.
  intros Hprep Hignore Hshape.
  rewrite (image_handler_prepared fuel b w s s1 payload h Hprep Hignore). cbv zeta.
  cbn [image_payload_encoded ti_url ti_text ti_mimetype ti_h ti_w ti_path ti_buffer].
  destruct (truthy_opt (ti_url payload)) eqn:Hurl.
  - split; [reflexivity|].
    unfold detached, then2, bind, download_getBufferAndType, upload, sendMessage,
      sendImageMessage, call.
    by repeat case_match; simplify_eq.
  - destruct Hshape as [|[Hpath Hbytes]]; [discriminate|]. rewrite Hpath.
    destruct (ti_buffer payload) as [bytes|]; [|done].
    split; [reflexivity|].
    unfold detached, then2, upload, sendMessage, sendImageMessage, call.
    by repeat case_match; simplify_eq.
Qed.

Lemma picture_relay_is_not_awaited_witness :
  fst (handleThirdPartyRoomImageMessage 1 Deployment.base Scenes.cat_by_url
         (Scenes.with_download (fun _ _ => Never) (Deployment.calm "!r1:hs")) st0)
  = Resolved tt.
Proof.
  pose (w := Scenes.with_download (fun _ _ => Never) (Deployment.calm "!r1:hs")).
  pose (prepared :=
          prepareMessageHandler 1 Deployment.base
            (image_prep (image_payload_encoded Scenes.cat_by_url)) w st0).
  refine (proj1 (picture_relay_is_not_awaited 1 Deployment.base w st0 (snd prepared)
                   Scenes.cat_by_url Scenes.own_handler _ eq_refl (or_introl eq_refl))).
  by vm_compute.
Defined.

(* ------------------------------------------------------------------ *)
(** ** Ghost profiles *)
(* ------------------------------------------------------------------ *)

Lemma all2_second_rejected {A B} (p1 : Chain A) (p2 : Chain B) w s e :
  (forall l s1, fst (resume p2 (first_reply p2 w l) w s1) = Rejected e) ->
  exists e', fst (all2 p1 p2 w s) = Rejected e'.
Proof.
  intros H2. unfold all2. cbv zeta. destruct (resume p1 _ w _) as [r1 s1].
  specialize (H2 (log s ++ [first_call p1]) s1).
  destruct (resume p2 _ w s1) as [r2 s2]. cbn [fst] in *. subst r2.
  destruct r1; by eexists.
Qed.

Lemma setGhostAvatar_download_rejected w ghost url e s :
  (forall l, w_getProfileInfo w l (Ghost ghost) ghost = Resolved None) ->
  (forall l, w_download w l url = Rejected e) ->
  fst (setGhostAvatar ghost url w s) = Rejected e.
Proof.
  intros Hprofile Hdownload.
  unfold setGhostAvatar, await, bind, download_getBufferAndType, call.
  cbn [setGhostAvatar_started first_call first_reply and_then].
  rewrite Hprofile. cbn [truthy_opt]. unfold bind, download_getBufferAndType, call.
  by rewrite Hdownload.
Qed.

Lemma getIntent_avatar_rejected b w id name url e s :
  truthy url = true ->
  (forall l, w_getProfileInfo w l (Ghost (getGhostUserFromThirdPartySenderId b id))
               (getGhostUserFromThirdPartySenderId b id) = Resolved None) ->
  (forall l, w_download w l url = Rejected e) ->
  exists e', fst (getIntentFromThirdPartySenderId b id name (Some url) w s) = Rejected e'.
Proof.
  intros Hurl Hprofile Hdownload. unfold getIntentFromThirdPartySenderId.
  cbn [truthy_opt default from_option Datatypes.id]. rewrite Hurl. unfold bind at 1.
  match goal with
  | |- context [all2 ?p1 ?p2 w s] =>
    destruct (all2_second_rejected p1 p2 w s e) as [e' He']
  end.
  { intros l s1. cbn [setGhostAvatar_started first_reply]. rewrite Hprofile.
    cbn [resume setGhostAvatar_started and_then truthy_opt].
    unfold bind, download_getBufferAndType, call. by rewrite Hdownload. }
  destruct (all2 _ _ w s) as [o s2]. cbn [fst] in He'. subst o. by exists e'.
Qed.

Lemma prepare_avatar_rejected fuel b w params sid url e s :
  pm_senderId params = Some sid -> pm_avatarUrl params = Some url -> truthy url = true ->
  (forall l, w_getProfileInfo w l (Ghost (getGhostUserFromThirdPartySenderId b sid))
               (getGhostUserFromThirdPartySenderId b sid) = Resolved None) ->
  (forall l, w_download w l url = Rejected e) ->
  forall h s1, prepareMessageHandler fuel b params w s <> (Resolved h, s1).
Proof.
  intros Hsid Havatar Hurl Hprofile Hdownload h s1.
  unfold prepareMessageHandler. rewrite Hsid, Havatar.
  unfold bind at 1. unfold ask. unfold bind at 1.
  destruct (getOrCreateMatrixRoomFromThirdPartyRoomId _ _ _ w s) as [[room|?|] s2];
    [|discriminate..].
  unfold bind at 1.
  destruct (getIntent_avatar_rejected b w sid (pm_senderName params) url e s2
              Hurl Hprofile Hdownload) as [e' He'].
  destruct (getIntentFromThirdPartySenderId _ _ _ _ w s2) as [o s3].
  cbn [fst] in He'. by subst o.
Qed.

(** X23: a sender whose avatar cannot be fetched is not heard.  When a
    message names a sender and an avatar URL, the sender's ghost has no
    avatar yet and the download of the avatar is rejected, neither inbound
    handler sends anything to the home network: the text handler's promise
    is not rejected (the failure goes to the status report, which posts
    nothing), the picture handler's promise does not resolve. *)
Theorem avatar_failure_blocks_relay (fuel : nat) (b : Base) (w : World) (s : St)
    (sid url : jsstring) (e : JsError)
    (text : ThirdPartyMessagePayload) (picture : ThirdPartyImageMessagePayload) :
  truthy sid = true -> truthy url = true ->
  tm_senderId text = Some sid -> tm_avatarUrl text = Some url ->
  ti_senderId picture = Some sid -> ti_avatarUrl picture = Some url ->
  (forall l, w_getProfileInfo w l (Ghost (getGhostUserFromThirdPartySenderId b (a2b sid)))
               (getGhostUserFromThirdPartySenderId b (a2b sid)) = Resolved None) ->
  (forall l, w_download w l url = Rejected e) ->
  (Forall (fun c => home_send c = false)
     (calls_of (handleThirdPartyRoomMessage fuel b text) w s)
   /\ forall e', fst (handleThirdPartyRoomMessage fuel b text w s) <> Rejected e')
  /\ (Forall (fun c => home_send c = false)
        (calls_of (handleThirdPartyRoomImageMessage fuel b picture) w s)
      /\ fst (handleThirdPartyRoomImageMessage fuel b picture w s) <> Resolved tt).
Proof.
  intros Hsid Hurl Htext Htavatar Hpicture Hpavatar Hprofile Hdownload.
  pose proof (text_payload_sender text sid Htext Hsid) as Htsender.
  pose proof (image_payload_sender picture sid Hpicture Hsid) as Hpsender.
  pose proof (prepare_avatar_rejected fuel b w
                (text_prep (text_payload_encoded text)) (a2b sid) url e s
                Htsender Htavatar Hurl Hprofile Hdownload) as Htprep.
  pose proof (prepare_avatar_rejected fuel b w
                (image_prep (image_payload_encoded picture)) (a2b sid) url e s
                Hpsender Hpavatar Hurl Hprofile Hdownload) as Hpprep.
  assert (Hquiet : forall params,
             emits_from (fun c => home_send c = false) w
               (prepareMessageHandler fuel b params) s).
  { intros params. apply emits_at, emits_prepareMessageHandler.
    apply infrastructure_not_home_send. }
  split; split.
  - apply emits_from_calls_of. unfold handleThirdPartyRoomMessage, catch.
    apply emits_from_then2.
    + apply emits_from_bind; [apply Hquiet|]. intros h s1 Hh. by apply Htprep in Hh.
    + intros; apply emits_at, emits_ret.
    + intros; apply emits_at, emits_detached, emits_sendStatusMsg.
      apply infrastructure_not_home_send.
  - intros e'. unfold handleThirdPartyRoomMessage, catch, then2, detached.
    destruct (bind _ _ w s) as [[[]|?|] s1]; discriminate.
  - apply emits_from_calls_of. unfold handleThirdPartyRoomImageMessage. cbv zeta.
    apply emits_from_bind; [apply Hquiet|]. intros h s1 Hh. by apply Hpprep in Hh.
  - unfold handleThirdPartyRoomImageMessage. cbv zeta. unfold bind at 1.
    destruct (prepareMessageHandler _ _ (image_prep _) w s) as [[h|?|] s1] eqn:Hh;
      [|cbn [fst]; discriminate..].
    by destruct (Hpprep h s1).
Qed.

Lemma avatar_failure_blocks_relay_witness :
  fst (handleThirdPartyRoomImageMessage 1 Deployment.base Scenes.ann_picture
         Scenes.offline st0) <> Resolved tt.
Proof.
  exact (proj2 (proj2 (avatar_failure_blocks_relay 1 Deployment.base Scenes.offline st0
                         (lit "ann") (lit "http://cdn/ann.png") (MkError (lit "404"))
                         Scenes.ann_text Scenes.ann_picture
                         eq_refl eq_refl eq_refl eq_refl eq_refl eq_refl
                         (fun _ => eq_refl) (fun _ => eq_refl)))).
Defined.

(** X24: the first message of a sender the user store does not know.  For
    an ASCII sender id, the store is read under the encoded id; when it has
    no entry, the adapter is asked for the user data of the original id,
    the data is stored under the encoded id, and the store is read again:
    the result is what that second read gives.  When the store has an entry
    it is returned after the one read, and the adapter is not asked. *)
Theorem unknown_sender_is_fetched_and_stored (w : World) (s : St)
    (sid : jsstring) (data : UserData) (known : RemoteUser) :
  is_ascii sid ->
  let id := a2b sid in
  let read := StoreGetRemoteUser id in
  let fetch := AdapterGetUserData sid in
  let store := StoreSetRemoteUser {| ru_id := id; ru_data := data |} in
  (w_getRemoteUser w (log s) id = Resolved None ->
   w_getUserData w (log s ++ [read]) sid = Resolved data ->
   w_setRemoteUser w (log s ++ [read; fetch]) {| ru_id := id; ru_data := data |}
   = Resolved tt ->
   getOrInitRemoteUserStoreDataFromThirdPartyUserId id w s
   = (w_getRemoteUser w (log s ++ [read; fetch; store]) id,
      {| log := log s ++ [read; fetch; store; read];
         thirdPartyRooms := thirdPartyRooms s |}))
  /\ (w_getRemoteUser w (log s) id = Resolved (Some known) ->
      getOrInitRemoteUserStoreDataFromThirdPartyUserId id w s
      = (Resolved (Some known),
         {| log := log s ++ [read]; thirdPartyRooms := thirdPartyRooms s |})).
Proof.
  intros Hascii id read fetch store. subst read fetch store.
  assert (Hid : b2a id = sid) by apply (decode_encode_ascii sid Hascii).
  unfold getOrInitRemoteUserStoreDataFromThirdPartyUserId, await.
  cbn [getOrInitRemoteUserStoreData_started first_call first_reply and_then].
  unfold bind, getRemoteUser, adapter_getUserData, setRemoteUser, call, ret.
  rewrite Hid. cbn [log thirdPartyRooms]. split.
  - intros Hread Hfetch Hstore. rewrite Hread. cbn [log thirdPartyRooms].
    rewrite Hfetch.
    rewrite <- !app_assoc. cbn [app]. by rewrite Hstore.
  - intros Hread. by rewrite Hread.
Qed.

Lemma unknown_sender_is_fetched_and_stored_witness :
  fst (getOrInitRemoteUserStoreDataFromThirdPartyUserId (a2b (lit "ann"))
         Scenes.strangers st0)
  = Resolved None.
Proof.
  refine (f_equal fst
            (proj1 (unknown_sender_is_fetched_and_stored Scenes.strangers st0 (lit "ann")
                      {| ud_name := Some (lit "Ann"); ud_avatarUrl := None |}
                      {| ru_id := []; ru_data := {| ud_name := None; ud_avatarUrl := None |} |}
                      _)
               eq_refl eq_refl eq_refl)).
  apply is_asciib_spec. reflexivity.
Defined.

Section NoUserLookup.
Context (w : World).

Ltac silent := repeat emits_step; first [emits_call; reflexivity | reflexivity | idtac].

Lemma unasked_grantPuppetMaxPowerLevel b room :
  emits unasked w (grantPuppetMaxPowerLevel b room).
Proof. unfold grantPuppetMaxPowerLevel. silent. Qed.

Lemma unasked_setRoomAvatar room url : emits unasked w (setRoomAvatar room url).
Proof. unfold setRoomAvatar. silent. Qed.

Lemma unasked_setRoomAvatarFromDisk room path :
  emits unasked w (setRoomAvatarFromDisk room path).
Proof. unfold setRoomAvatarFromDisk. silent. Qed.

#[local] Hint Resolve unasked_grantPuppetMaxPowerLevel unasked_setRoomAvatar
  unasked_setRoomAvatarFromDisk : emits.

Lemma unasked_getStatusRoomId fuel b o : emits unasked w (getStatusRoomId fuel b o).
Proof.
  induction fuel as [|fuel IH]; cbn [getStatusRoomId]; [apply emits_never|].
  unfold lookup_or_create_status_room. silent.
Qed.

Lemma unasked_getOrCreateMatrixRoomFromThirdPartyRoomId fuel b id :
  emits unasked w (getOrCreateMatrixRoomFromThirdPartyRoomId fuel b id).
Proof.
  induction fuel as [|fuel IH]; cbn [getOrCreateMatrixRoomFromThirdPartyRoomId];
    [apply emits_never|].
  unfold lookup_or_create_room, record_and_leave. silent.
Qed.

#[local] Hint Resolve unasked_getStatusRoomId
  unasked_getOrCreateMatrixRoomFromThirdPartyRoomId : emits.

Lemma unasked_sendStatusMsg fuel b o args : emits unasked w (sendStatusMsg fuel b o args).
Proof. unfold sendStatusMsg. silent. Qed.

Lemma unasked_setGhostAvatar ghost url : emits unasked w (setGhostAvatar ghost url).
Proof. unfold setGhostAvatar. silent. Qed.

#[local] Hint Resolve unasked_sendStatusMsg unasked_setGhostAvatar : emits.

Lemma unasked_getIntentFromThirdPartySenderId b id name avatar :
  truthy_opt name = true -> truthy_opt avatar = true ->
  emits unasked w (getIntentFromThirdPartySenderId b id name avatar).
Proof.
  intros Hname Havatar. unfold getIntentFromThirdPartySenderId.
  rewrite Hname, Havatar. silent.
Qed.

Lemma unasked_prepareMessageHandler fuel b params :
  (pm_senderId params <> None -> truthy_opt (pm_senderName params) = true) ->
  truthy_opt (pm_avatarUrl params) = true ->
  emits unasked w (prepareMessageHandler fuel b params).
Proof.
  intros Hname Havatar. unfold prepareMessageHandler.
  destruct (pm_senderId params) as [sid|].
  - pose proof (unasked_getIntentFromThirdPartySenderId b sid _ _
                  (Hname ltac:(discriminate)) Havatar).
    silent.
  - silent.
Qed.

End NoUserLookup.

Lemma a2b_truthy sid : truthy sid = true -> truthy (a2b sid) = true.
Proof.
  destruct sid as [|c rest]; [discriminate|]. intros _.
  assert (Hbytes : Buffer.from_string (c :: rest) <> []).
  { cbn [Buffer.from_string]. unfold Buffer.utf8_3, Buffer.utf8_4.
    repeat case_match; discriminate. }
  pose proof (to_base64_nonempty _ Hbytes) as Hne. unfold a2b.
  by destruct (Buffer.to_base64 _).
Qed.

(** X25: a sender that comes with an avatar is never looked up.  When a
    payload carries an avatar URL, and its sender id is not the empty
    string, neither inbound handler reads or writes the user store or asks
    the adapter for user data: the display name is the one given or
    defaulted from the sender id, never the stored one. *)
Theorem given_avatar_skips_user_store (fuel : nat) (b : Base) (w : World)
    (text : ThirdPartyMessagePayload) (picture : ThirdPartyImageMessagePayload) :
  tm_senderId text <> Some [] -> truthy_opt (tm_avatarUrl text) = true ->
  ti_senderId picture <> Some [] -> truthy_opt (ti_avatarUrl picture) = true ->
  emits unasked w (handleThirdPartyRoomMessage fuel b text)
  /\ emits unasked w (handleThirdPartyRoomImageMessage fuel b picture).
Proof.
  intros Htext Htavatar Hpicture Hpavatar. split.
  - unfold handleThirdPartyRoomMessage. cbv zeta.
    apply emits_catch; [|intros; apply emits_detached, unasked_sendStatusMsg].
    apply emits_bind.
    + apply unasked_prepareMessageHandler; [|exact Htavatar].
      cbn [text_prep text_payload_encoded pm_senderId pm_senderName tm_senderId
           tm_senderName].
      destruct (tm_senderId text) as [[|c sid]|]; [done| |done]. intros _.
      cbn [truthy_opt truthy option_map].
      destruct (truthy_opt (tm_senderName text)) eqn:Hname; [exact Hname|].
      cbn [andb negb truthy_opt]. by apply a2b_truthy.
    + intros h. repeat emits_step; emits_call; reflexivity.
  - unfold handleThirdPartyRoomImageMessage. cbv zeta.
    apply emits_bind.
    + apply unasked_prepareMessageHandler; [|exact Hpavatar].
      cbn [image_prep image_payload_encoded pm_senderId pm_senderName ti_senderId
           ti_senderName].
      destruct (ti_senderId picture) as [[|c sid]|]; [done| |done]. intros _.
      cbn [truthy_opt truthy option_map].
      destruct (truthy_opt (ti_senderName picture)) eqn:Hname; [exact Hname|].
      reflexivity.
    + intros h. repeat emits_step; emits_call; reflexivity.
Qed.

Lemma given_avatar_skips_user_store_witness :
  emits unasked Scenes.offline
    (handleThirdPartyRoomMessage 1 Deployment.base Scenes.ann_text).
Proof.
  exact (proj1 (given_avatar_skips_user_store 1 Deployment.base Scenes.offline
                  Scenes.ann_text Scenes.ann_picture
                  ltac:(discriminate) eq_refl ltac:(discriminate) eq_refl)).
Defined.

Section FirstCall.
Context (w : World).

Lemma leads_from_call {A} c (reply : World -> list Call -> Outcome A) s :
  leads_from c w (call c reply) s.
Proof. by exists []. Qed.

Lemma leads_from_then2 {A B} c (m : M A) (k : A -> M B) (h : JsError -> M B) s :
  leads_from c w m s ->
  (forall a, emits any_call w (k a)) -> (forall e, emits any_call w (h e)) ->
  leads_from c w (then2 m k h) s.
Proof.
  intros [rest Hrest] Hk Hh. unfold leads_from, then2.
  destruct (m w s) as [[a|e|] s1]; cbn [snd] in Hrest.
  - destruct (Hk a s1) as (more & Hmore & _). rewrite Hmore, Hrest.
    exists (rest ++ more). by rewrite <- app_assoc.
  - destruct (Hh e s1) as (more & Hmore & _). rewrite Hmore, Hrest.
    exists (rest ++ more). by rewrite <- app_assoc.
  - by exists rest.
Qed.

Lemma leads_from_bind {A B} c (m : M A) (k : A -> M B) s :
  leads_from c w m s -> (forall a, emits any_call w (k a)) ->
  leads_from c w (bind m k) s.
Proof.
  intros [rest Hrest] Hk. unfold leads_from, bind.
  destruct (m w s) as [[a|e|] s1]; cbn [snd] in Hrest; [|by exists rest..].
  destruct (Hk a s1) as (more & Hmore & _). rewrite Hmore, Hrest.
  exists (rest ++ more). by rewrite <- app_assoc.
Qed.

Lemma leads_from_all2 {A B} (p1 : Chain A) (p2 : Chain B) s :
  chain_emits any_call w p1 -> chain_emits any_call w p2 ->
  leads_from (first_call p1) w (all2 p1 p2) s.
Proof.
  intros [_ H1] [_ H2]. unfold leads_from, all2. cbv zeta.
  match goal with
  | |- context [resume p1 ?o w ?started] =>
    destruct (emits_resume any_call w p1 o H1 started) as (e1 & Hlog1 & _);
    destruct (resume p1 o w started) as [r1 s1]
  end.
  match goal with
  | |- context [resume p2 ?o w s1] =>
    destruct (emits_resume any_call w p2 o H2 s1) as (e2 & Hlog2 & _);
    destruct (resume p2 o w s1) as [r2 s2]
  end.
  cbn [snd log] in *. exists (first_call p2 :: e1 ++ e2).
  by rewrite Hlog2, Hlog1, <- !app_assoc.
Qed.

Lemma any_call_infrastructure c : infrastructure c = true -> any_call c.
Proof. done. Qed.

(** With a name given, the first thing done for a sender is to set the
    ghost's display name to it. *)
Lemma getIntent_leads b sid name avatar s :
  truthy name = true ->
  leads_from (SetDisplayName (Ghost (getGhostUserFromThirdPartySenderId b sid)) name) w
    (getIntentFromThirdPartySenderId b sid (Some name) avatar) s.
Proof.
  intros Hname. unfold getIntentFromThirdPartySenderId.
  cbn [truthy_opt default from_option Datatypes.id]. rewrite Hname.
  apply leads_from_bind; [|intros; apply emits_ret].
  pose proof (emits_setGhostAvatar any_call w any_call_infrastructure).
  pose proof (emits_getOrInitRemoteUser any_call w any_call_infrastructure).
  match goal with
  | |- leads_from _ _ (all2 ?p1 ?p2) _ => apply (leads_from_all2 p1 p2)
  end; unfold with_remote_user; repeat emits_step; try exact I;
    try (emits_call; exact I).
Qed.

Lemma prepare_leads fuel b params sid name room s s1 :
  pm_senderId params = Some sid -> pm_senderName params = Some name ->
  truthy name = true ->
  getOrCreateMatrixRoomFromThirdPartyRoomId fuel b (pm_roomId params) w s
  = (Resolved room, s1) ->
  exists m : M MessageHandler,
    prepareMessageHandler fuel b params w s = m w s1
    /\ leads_from (SetDisplayName (Ghost (getGhostUserFromThirdPartySenderId b sid)) name)
         w m s1.
Proof.
  intros Hsid Hname Htruthy Hroom. unfold prepareMessageHandler.
  rewrite Hsid, Hname. eexists. split.
  - unfold bind at 1. unfold ask. rewrite (bind_resolved _ _ _ _ _ _ Hroom). reflexivity.
  - apply leads_from_bind; [by apply getIntent_leads|].
    intros ghost.
    pose proof (emits_getStatusRoomId any_call w any_call_infrastructure).
    repeat emits_step; emits_call; exact I.
Qed.

Lemma bind_from {A B} (m m' : M A) (k : A -> M B) s s1 :
  m w s = m' w s1 -> bind m k w s = bind m' k w s1.
Proof. intros H. unfold bind. by rewrite H. Qed.

Lemma bind_leads {A B} c (m m' : M A) (k : A -> M B) s s1 :
  m w s = m' w s1 -> leads_from c w m' s1 -> (forall a, emits any_call w (k a)) ->
  exists rest, log (snd (bind m k w s)) = log s1 ++ c :: rest.
Proof.
  intros Hm Hleads Hk. rewrite (bind_from m m' k s s1 Hm).
  by apply leads_from_bind.
Qed.

Lemma then2_leads {A B} c (m m' : M A) (k : A -> M B) (h : JsError -> M B) s s1 :
  m w s = m' w s1 -> leads_from c w m' s1 ->
  (forall a, emits any_call w (k a)) -> (forall e, emits any_call w (h e)) ->
  exists rest, log (snd (then2 m k h w s)) = log s1 ++ c :: rest.
Proof.
  intros Hm Hleads Hk Hh.
  replace (then2 m k h w s) with (then2 m' k h w s1) by (unfold then2; by rewrite Hm).
  by apply leads_from_then2.
Qed.

End FirstCall.

(** X26: the name a ghost gets when the adapter gives none.  For a message
    with a sender id and no sender name, the first thing done once the room
    is resolved is to set the display name of the sender's ghost: the text
    handler sets it to the encoded sender id, the picture handler to the
    sender id as the adapter gave it. *)
Theorem nameless_sender_display_name (fuel : nat) (b : Base) (w : World)
    (s s1 : St) (sid room : jsstring)
    (text : ThirdPartyMessagePayload) (picture : ThirdPartyImageMessagePayload) :
  truthy sid = true ->
  tm_senderId text = Some sid -> truthy_opt (tm_senderName text) = false ->
  ti_senderId picture = Some sid -> truthy_opt (ti_senderName picture) = false ->
  ti_roomId picture = tm_roomId text ->
  getOrCreateMatrixRoomFromThirdPartyRoomId fuel b (a2b (tm_roomId text)) w s
  = (Resolved room, s1) ->
  let ghost := Ghost (getGhostUserFromThirdPartySenderId b (a2b sid)) in
  (exists rest,
     log (snd (handleThirdPartyRoomMessage fuel b text w s))
     = log s1 ++ SetDisplayName ghost (a2b sid) :: rest)
  /\ (exists rest,
        log (snd (handleThirdPartyRoomImageMessage fuel b picture w s))
        = log s1 ++ SetDisplayName ghost sid :: rest).
Proof.
  intros Hsid Htext Htname Hpicture Hpname Hsame Hroom ghost. split.
  - destruct (prepare_leads w fuel b (text_prep (text_payload_encoded text))
                (a2b sid) (a2b sid) room s s1) as (m & Hm & Hleads).
    + by apply text_payload_sender.
    + cbn [text_prep text_payload_encoded pm_senderName tm_senderId tm_senderName].
      rewrite Htext, Htname. cbn [truthy_opt option_map]. by rewrite Hsid.
    + by apply a2b_truthy.
    + exact Hroom.
    + unfold handleThirdPartyRoomMessage, catch. cbv zeta.
      eapply then2_leads.
      * apply bind_from, Hm.
      * apply leads_from_bind; [exact Hleads|].
        intros h. repeat emits_step; emits_call; exact I.
      * intros; apply emits_ret.
      * intros; apply emits_detached, emits_sendStatusMsg, any_call_infrastructure.
  - destruct (prepare_leads w fuel b (image_prep (image_payload_encoded picture))
                (a2b sid) sid room s s1) as (m & Hm & Hleads).
    + by apply image_payload_sender.
    + cbn [image_prep image_payload_encoded pm_senderName ti_senderId ti_senderName].
      rewrite Hpicture, Hpname. cbn [truthy_opt]. by rewrite Hsid.
    + exact Hsid.
    + cbn [image_prep image_payload_encoded pm_roomId ti_roomId]. by rewrite Hsame.
    + unfold handleThirdPartyRoomImageMessage. cbv zeta.
      eapply bind_leads; [exact Hm | exact Hleads |].
      intros h. repeat emits_step; emits_call; exact I.
Qed.

Lemma nameless_sender_display_name_witness :
  exists rest,
    log (snd (handleThirdPartyRoomMessage 1 Deployment.base Scenes.ann_text
                (Deployment.calm "!r1:hs") st0))
    = log (snd (getOrCreateMatrixRoomFromThirdPartyRoomId 1 Deployment.base
                  (a2b (lit "room1")) (Deployment.calm "!r1:hs") st0))
      ++ SetDisplayName
           (Ghost (getGhostUserFromThirdPartySenderId Deployment.base (a2b (lit "ann"))))
           (a2b (lit "ann")) :: rest.
Proof.
  refine (proj1 (nameless_sender_display_name 1 Deployment.base (Deployment.calm "!r1:hs")
                   st0 _ (lit "ann") (lit "!r1:hs") Scenes.ann_text Scenes.ann_picture
                   eq_refl eq_refl eq_refl eq_refl eq_refl eq_refl _)).
  by vm_compute.
Defined.

(* ------------------------------------------------------------------ *)
(** ** The puppet session's room mapping *)
(* ------------------------------------------------------------------ *)

Lemma js_set_other (room other id : jsstring) (prior : gmap jsstring jsstring) :
  other <> room -> js_set other id prior !! room = prior !! room.
Proof.
  intros Hother. unfold js_set. destruct (str_eqb other _); [reflexivity|].
  by apply lookup_insert_ne.
Qed.

(** X27: a saved room id is the one a receipt is forwarded with.  On a
    puppet session with an adapter that can send read receipts, after
    [saveThirdPartyRoomId room id] an own read receipt in [room] is
    forwarded once with [id], whatever was saved for [room] before; and
    saving an id for another room changes nothing of what is forwarded for
    [room]. *)
Theorem saved_room_id_is_forwarded (p : Puppet.t) (a : Puppet.Adapter)
    (room other id : jsstring) (content : Puppet.ReceiptContent) :
  Puppet.adapter p = Some a -> Puppet.has_sendReadReceipt a = true ->
  Puppet.read_by p content = true ->
  room <> lit "__proto__" -> other <> room ->
  Puppet.on_Room_receipt (Puppet.saveThirdPartyRoomId room id p) room content
  = [AdapterSendReadReceipt (Some id)]
  /\ Puppet.on_Room_receipt (Puppet.saveThirdPartyRoomId other id p) room content
     = Puppet.on_Room_receipt p room content.
Proof.
  intros Ha Hcap Hread Hroom Hother. unfold Puppet.on_Room_receipt, Puppet.read_by in *.
  cbn [Puppet.saveThirdPartyRoomId Puppet.adapter Puppet.thirdPartyRooms Puppet.id].
  rewrite Ha, Hcap, Hread. split.
  - pose proof (js_get_set room id (Puppet.thirdPartyRooms p) Hroom) as Hget.
    rewrite (js_in_stored _ _ _ _ Hget). by rewrite Hget.
  - unfold js_in, js_get. by rewrite js_set_other.
Qed.

Lemma saved_room_id_is_forwarded_witness :
  Puppet.on_Room_receipt
    (Puppet.saveThirdPartyRoomId (lit "!r1:hs") (lit "room2") Deployment.attached)
    (lit "!r1:hs") Deployment.own_receipt
  = [AdapterSendReadReceipt (Some (lit "room2"))].
Proof.
  refine (proj1 (saved_room_id_is_forwarded Deployment.attached
                   {| Puppet.has_sendReadReceipt := true |}
                   (lit "!r1:hs") (lit "!r2:hs") (lit "room2") Deployment.own_receipt
                   eq_refl eq_refl eq_refl _ _)); by vm_compute.
Defined.

Lemma read_by_nobody (p : Puppet.t) (content : Puppet.ReceiptContent) :
  (forall event users user,
     In (event, Some users) content -> In user users -> Some user <> Puppet.id p) ->
  Puppet.read_by p content = false.
Proof.
  intros Hothers. unfold Puppet.read_by.
  apply not_true_is_false. intros Hsome.
  apply existsb_exists in Hsome as ([event [users|]] & Hin & Hread); [|discriminate].
  cbn [snd] in Hread. apply existsb_exists in Hread as (user & Huser & Hown).
  apply bool_decide_eq_true_1 in Hown. by apply (Hothers event users user).
Qed.

(** X28: only the operator's own read receipts are forwarded.  A receipt
    event in which no user under any [m.read] is the session's own id makes
    no call on the adapter, whatever adapter is attached and whatever rooms
    are saved; in particular nothing is forwarded before the session has an
    id. *)
Theorem receipts_of_others_are_not_forwarded (p : Puppet.t) (room : jsstring)
    (content : Puppet.ReceiptContent) :
  (forall event users user,
     In (event, Some users) content -> In user users -> Some user <> Puppet.id p) ->
  Puppet.on_Room_receipt p room content = [].
Proof.
  intros Hothers. unfold Puppet.on_Room_receipt.
  rewrite (read_by_nobody p content Hothers). by repeat case_match.
Qed.

Lemma receipts_of_others_are_not_forwarded_witness :
  Puppet.on_Room_receipt Deployment.attached (lit "!r1:hs")
    [(lit "$event1", Some [lit "@ann:hs"; lit "@bob:hs"])] = [].
Proof.
  apply (receipts_of_others_are_not_forwarded Deployment.attached).
  intros event users user [[= <- <-]|[]] [<-|[<-|[]]]; by vm_compute.
Defined.

(* ------------------------------------------------------------------ *)
(** ** Room avatars *)
(* ------------------------------------------------------------------ *)

(** X29: the first message for a room that has an avatar.  When the alias
    is unknown and the adapter's room data names an avatar, the avatar is
    downloaded, uploaded by the bot under the base name of its URL and set
    on the created room before the puppet joins; the created room is taken
    not to be called [size], the one name the mapping cannot take.  If the
    download is rejected the resolution is rejected with that reason, after
    the room was created under its alias: the puppet has not joined and the
    room is not recorded. *)
Theorem room_avatar_precedes_join (fuel : nat) (b : Base) (w : World) (s : St)
    (id room url : jsstring) (data : RoomData) (e : JsError) :
  let alias := getRoomAliasFromThirdPartyRoomId b id in
  let user := p_credentials_userId (puppet b) in
  w_getRoomIdForAlias w (log s) alias = Rejected e ->
  (forall l, w_getRoomData w l (b2a id) = Resolved data) ->
  rd_avatarUrl data = Some url -> truthy url = true ->
  (forall l, w_createRoom w l (room_creation b id data) = Resolved room) ->
  (forall l, w_joinRoom w l room = Resolved tt) ->
  (forall l, settles (w_setPowerLevel w l room user 100)) ->
  (forall picture uploaded,
     (forall l, w_download w l url = Resolved picture) ->
     (forall l o, w_uploadContent w l Bot (bt_buffer picture) o = Resolved uploaded) ->
     (forall l, w_setRoomAvatar w l room (content_uri uploaded) = Resolved tt) ->
     room <> lit "size" ->
     getOrCreateMatrixRoomFromThirdPartyRoomId (S fuel) b id w s
     = (Resolved room,
        {| log := log s ++ [GetRoomIdForAlias alias; AdapterGetRoomData (b2a id);
                            CreateRoom (room_creation b id data);
                            Download url;
                            UploadContent Bot (bt_buffer picture)
                              {| uo_name := w_basename w url; uo_type := bt_type picture |};
                            SetRoomAvatar room (content_uri uploaded);
                            JoinRoom room; SetPowerLevel room user 100;
                            IntentLeave room];
           thirdPartyRooms := js_set room id (thirdPartyRooms s) |}))
  /\ (forall e',
        (forall l, w_download w l url = Rejected e') ->
        getOrCreateMatrixRoomFromThirdPartyRoomId (S fuel) b id w s
        = (Rejected e',
           {| log := log s ++ [GetRoomIdForAlias alias; AdapterGetRoomData (b2a id);
                               CreateRoom (room_creation b id data); Download url];
              thirdPartyRooms := thirdPartyRooms s |})).
Proof.
  intros alias user Hlookup Hdata Havatar Hurl Hcreate Hjoin Hgrant.
  assert (Hfirst :
    lookup_or_create_room b id w s
    = bind (setRoomAvatar room url) (fun _ => ret room) w
        {| log := log s ++ [GetRoomIdForAlias alias; AdapterGetRoomData (b2a id);
                            CreateRoom (room_creation b id data)];
           thirdPartyRooms := thirdPartyRooms s |}).
  { unfold lookup_or_create_room, then2, getRoomIdForAlias, call. fold alias.
    rewrite Hlookup. unfold bind at 1 2, adapter_getRoomData, createRoom, call.
    rewrite Hdata. fold (room_creation b id data). rewrite Hcreate, Havatar.
    cbn [truthy_opt default from_option Datatypes.id log thirdPartyRooms].
    rewrite Hurl. by rewrite <- !app_assoc. }
  split.
  - intros picture uploaded Hdownload Hupload Hset Hroom.
    cbn [getOrCreateMatrixRoomFromThirdPartyRoomId]. cbv zeta.
    unfold bind at 1. rewrite Hfirst.
    unfold setRoomAvatar, bind at 1 2 3 4, download_getBufferAndType,
      uploadContent, intentSetRoomAvatar, ask, call, ret.
    cbn [log thirdPartyRooms]. rewrite Hdownload. cbn [log thirdPartyRooms].
    rewrite Hupload. cbn [log thirdPartyRooms]. rewrite Hset.
    unfold bind at 1. rewrite then2_joinRoom. cbv zeta. rewrite Hjoin.
    rewrite grant_settled by apply Hgrant.
    rewrite record_and_leave_run by assumption.
    cbn [log thirdPartyRooms]. by rewrite <- !app_assoc.
  - intros e' Hdownload.
    cbn [getOrCreateMatrixRoomFromThirdPartyRoomId]. cbv zeta.
    unfold bind at 1. rewrite Hfirst.
    unfold setRoomAvatar, bind, download_getBufferAndType, call.
    cbn [log thirdPartyRooms]. rewrite Hdownload. cbn [log thirdPartyRooms].
    by rewrite <- !app_assoc.
Qed.

Lemma room_avatar_precedes_join_witness :
  getOrCreateMatrixRoomFromThirdPartyRoomId 1 Deployment.base (a2b (lit "room1"))
    Scenes.fresh_pictured st0
  = (Resolved (lit "!new:hs"),
     {| log := [GetRoomIdForAlias (lit "#net_puppet_me_cm9vbTE=:hs");
                AdapterGetRoomData (lit "room1");
                CreateRoom (room_creation Deployment.base (a2b (lit "room1"))
                              Scenes.pictured);
                Download (lit "http://cdn/room.png");
                UploadContent Bot (bt_buffer Deployment.png)
                  {| uo_name := lit "http://cdn/room.png"; uo_type := lit "image/png" |};
                SetRoomAvatar (lit "!new:hs") (lit "mxc://hs/avatar");
                JoinRoom (lit "!new:hs");
                SetPowerLevel (lit "!new:hs") (lit "@me:hs") 100;
                IntentLeave (lit "!new:hs")];
        thirdPartyRooms := js_set (lit "!new:hs") (a2b (lit "room1")) ∅ |}).
Proof.
  exact (proj1 (room_avatar_precedes_join 0 Deployment.base Scenes.fresh_pictured st0
                  (a2b (lit "room1")) (lit "!new:hs") (lit "http://cdn/room.png")
                  Scenes.pictured (MkError (lit "Room alias not found"))
                  eq_refl (fun _ => eq_refl) eq_refl eq_refl (fun _ => eq_refl)
                  (fun _ => eq_refl) (fun _ H => ltac:(discriminate H)))
               Deployment.png
               {| content_uri := lit "mxc://hs/avatar"; up_size := 4 |}
               (fun _ => eq_refl) (fun _ _ => eq_refl) (fun _ => eq_refl)
               ltac:(discriminate)).
Defined.
